(** * The OPC UA binary codec of python-opcua ([opcua/ua/ua_binary.py])

    A shallow embedding of the encoders and decoders of [ua_binary.py] and
    the properties of its specification that can be settled on them.

    Conventions of the embedding.
    - Python 3 is assumed wherever the source branches on
      [sys.version_info].
    - A Python exception is a value [Raise e]; a function that can raise
      returns a [res].
    - A decoder reads from a [Buffer] and moves its cursor: it is a function
      from the buffer to a result together with the buffer it leaves behind.
      The buffer is kept also when the decoder raises, as the Python object
      keeps its cursor.
    - The recursion between the encoders (and between the decoders) follows
      the run-time value, the schema and the input bytes; it is bounded here
      by a fuel argument that every nested call decrements.
    - A Python [str] is represented by its UTF-8 text, so that
      [str.encode('utf-8')] is the identity on the representation and
      [bytes.decode('utf-8')] is the check that the bytes are well formed.
    - The binary32 and binary64 formats of [struct] are not represented:
      packing or unpacking with ["<f"] or ["<d"] gives [Raise Unmodelled]. *)

From stdpp Require Import gmap strings list.
From Stdlib Require Import ZArith Lia.
From Stdlib.Strings Require Byte.

#[local] Set Warnings "-register-all".
#[local] Open Scope Z_scope.

Abbreviation byte := Byte.byte.
Abbreviation bytes := (list Byte.byte).

(** ** Exceptions and results *)

Inductive error :=
| NotEnoughData        (* Buffer underflow *)
| BadLength            (* a negative size handed to the buffer *)
| StructError          (* struct.error *)
| UaError              (* opcua.ua.uaerrors.UaError *)
| TypeError
| ValueError
| IndexError
| AttributeError
| KeyError
| OverflowError
| UnicodeDecodeError
| Unmodelled           (* floating point formats *)
| OutOfFuel.

Inductive res (A : Type) :=
| Ok (a : A)
| Raise (e : error).
Arguments Ok {A} a.
Arguments Raise {A} e.

Definition res_bind {A B} (r : res A) (k : A -> res B) : res B :=
  match r with
  | Ok a => k a
  | Raise e => Raise e
  end.

Declare Scope res_scope.
Delimit Scope res_scope with res.
Notation "'do' x <- r ;; k" := (res_bind r (fun x => k))
  (at level 10, x name, r at level 99, k at level 200) : res_scope.
Notation "'do' ' p <- r ;; k" := (res_bind r (fun p => k))
  (at level 10, p pattern, r at level 99, k at level 200) : res_scope.

(** [[f(x) for x in l]] for an [f] that can raise. *)
Fixpoint res_map {A B} (f : A -> res B) (l : list A) : res (list B) :=
  match l with
  | [] => Ok []
  | x :: l =>
      (do y <- f x ;; do ys <- res_map f l ;; Ok (y :: ys))%res
  end.

(** ** Bytes and little-endian integers *)

Definition byte_of_Z (z : Z) : byte :=
  match Byte.of_N (Z.to_N (z mod 256)) with
  | Some b => b
  | None => Byte.x00
  end.

Definition Z_of_byte (b : byte) : Z := Z.of_N (Byte.to_N b).

(** The [n] low bytes of [z], least significant first. *)
Fixpoint le_bytes (n : nat) (z : Z) : bytes :=
  match n with
  | O => []
  | S n => byte_of_Z z :: le_bytes n (z / 256)
  end.

Fixpoint le_value (bs : bytes) : Z :=
  match bs with
  | [] => 0
  | b :: bs => Z_of_byte b + 256 * le_value bs
  end.

(** Most significant byte first, for the [">..."] formats of the Guid codec. *)
Definition be_bytes (n : nat) (z : Z) : bytes := rev (le_bytes n z).
Definition be_value (bs : bytes) : Z := le_value (rev bs).

(** ** The buffer

    [opcua.common.utils.Buffer] is not part of [ua_binary.py]. *)

(** Modelled from the spec: the class [Buffer] of [opcua.common.utils], "a
    byte sequence with a read cursor" supporting [read(n)], [skip(n)],
    [copy(n)] and [remaining()]. The value is the byte range from the cursor
    to the end; advancing the cursor drops a prefix. *)
Definition Buffer := bytes.

Definition dec (A : Type) := Buffer -> res A * Buffer.

Definition dec_ret {A} (a : A) : dec A := fun b => (Ok a, b).
Definition dec_raise {A} (e : error) : dec A := fun b => (Raise e, b).
Definition dec_bind {A B} (m : dec A) (k : A -> dec B) : dec B :=
  fun b =>
    match m b with
    | (Ok a, b') => k a b'
    | (Raise e, b') => (Raise e, b')
    end.

Declare Scope dec_scope.
Delimit Scope dec_scope with dec.
Notation "'do' x <- m ;; k" := (dec_bind m (fun x => k))
  (at level 10, x name, m at level 99, k at level 200) : dec_scope.
Notation "'do' ' p <- m ;; k" := (dec_bind m (fun p => k))
  (at level 10, p pattern, m at level 99, k at level 200) : dec_scope.

(** [len(buf)]: the bytes that remain. *)
Definition remaining (b : Buffer) : Z := Z.of_nat (length b).

(** Modelled from the spec: [Buffer.read(n)] "advances cursor; fails on
    underflow"; a negative size is the [BadLength] error of the spec. *)
Definition read (n : Z) : dec bytes := fun b =>
  if n <? 0 then (Raise BadLength, b)
  else if remaining b <? n then (Raise NotEnoughData, b)
  else (Ok (take (Z.to_nat n) b), drop (Z.to_nat n) b).

(** Modelled from the spec: [Buffer.skip(n)] advances the cursor without
    returning the bytes. *)
Definition skip (n : Z) : dec unit := fun b =>
  if n <? 0 then (Raise BadLength, b)
  else if remaining b <? n then (Raise NotEnoughData, b)
  else (Ok tt, drop (Z.to_nat n) b).

(** Modelled from the spec: [Buffer.copy(n)] "yields a sub-buffer logically
    owning the next n bytes without advancing reads beyond them in the
    parent". The sub-buffer has a cursor of its own. *)
Definition copy (n : Z) : dec Buffer := fun b =>
  (Ok (take (Z.to_nat n) b), b).

(** [[f(data) for _ in range(n)]] *)
Fixpoint dec_repeat {A} (n : nat) (m : dec A) : dec (list A) :=
  match n with
  | O => dec_ret []
  | S n => (do x <- m ;; do xs <- dec_repeat n m ;; dec_ret (x :: xs))%dec
  end.

(** ** The enumerations of the [ua] package

    [ua.NodeIdType], [ua.VariantType] and the classes [ua.NodeId],
    [ua.Variant] are declared outside [ua_binary.py]. *)

Module ua.

(** Modelled from the spec: [ua.NodeIdType], the tags 0 to 5 of the
    NodeId body layouts. *)
Module NodeIdType.
Inductive t := TwoByte | FourByte | Numeric | String | Guid | ByteString.

Definition value (x : t) : Z :=
  match x with
  | TwoByte => 0 | FourByte => 1 | Numeric => 2
  | String => 3 | Guid => 4 | ByteString => 5
  end.

(** The enumeration called on an integer: [ua.NodeIdType(n)]. *)
Definition of_value (n : Z) : res t :=
  if n =? 0 then Ok TwoByte
  else if n =? 1 then Ok FourByte
  else if n =? 2 then Ok Numeric
  else if n =? 3 then Ok String
  else if n =? 4 then Ok Guid
  else if n =? 5 then Ok ByteString
  else Raise ValueError.
End NodeIdType.

(** Modelled from the spec: [ua.VariantType], the "finite enumeration of
    builtin type codes 0..25, plus the tag value used to mark user-defined
    content". *)
Module VariantType.
Inductive t :=
| Null | Boolean | SByte | Byte | Int16 | UInt16 | Int32 | UInt32
| Int64 | UInt64 | Float | Double | String | DateTime | Guid
| ByteString | XmlElement | NodeId | ExpandedNodeId | StatusCode
| QualifiedName | LocalizedText | ExtensionObject | DataValue
| Variant | DiagnosticInfo
| Custom (n : Z).

Definition value (x : t) : Z :=
  match x with
  | Null => 0 | Boolean => 1 | SByte => 2 | Byte => 3 | Int16 => 4
  | UInt16 => 5 | Int32 => 6 | UInt32 => 7 | Int64 => 8 | UInt64 => 9
  | Float => 10 | Double => 11 | String => 12 | DateTime => 13
  | Guid => 14 | ByteString => 15 | XmlElement => 16 | NodeId => 17
  | ExpandedNodeId => 18 | StatusCode => 19 | QualifiedName => 20
  | LocalizedText => 21 | ExtensionObject => 22 | DataValue => 23
  | Variant => 24 | DiagnosticInfo => 25
  | Custom n => n
  end.

Definition name (x : t) : string :=
  match x with
  | Null => "Null" | Boolean => "Boolean" | SByte => "SByte"
  | Byte => "Byte" | Int16 => "Int16" | UInt16 => "UInt16"
  | Int32 => "Int32" | UInt32 => "UInt32" | Int64 => "Int64"
  | UInt64 => "UInt64" | Float => "Float" | Double => "Double"
  | String => "String" | DateTime => "DateTime" | Guid => "Guid"
  | ByteString => "ByteString" | XmlElement => "XmlElement"
  | NodeId => "NodeId" | ExpandedNodeId => "ExpandedNodeId"
  | StatusCode => "StatusCode" | QualifiedName => "QualifiedName"
  | LocalizedText => "LocalizedText"
  | ExtensionObject => "ExtensionObject" | DataValue => "DataValue"
  | Variant => "Variant" | DiagnosticInfo => "DiagnosticInfo"
  | Custom _ => "VariantTypeCustom"
  end.

Definition builtin : list t :=
  [Null; Boolean; SByte; Byte; Int16; UInt16; Int32; UInt32; Int64;
   UInt64; Float; Double; String; DateTime; Guid; ByteString;
   XmlElement; NodeId; ExpandedNodeId; StatusCode; QualifiedName;
   LocalizedText; ExtensionObject; DataValue; Variant; DiagnosticInfo].

(** [getattr(ua.VariantType, s)] where [hasattr(ua.VariantType, s)]. *)
Definition of_name (s : string) : option t :=
  List.find (fun x => String.eqb (name x) s) builtin.

Definition eqb (x y : t) : bool :=
  (value x =? value y) && String.eqb (name x) (name y).
End VariantType.

(** Modelled from the spec: [ua.datatype_to_varianttype]; a tag above 25
    marks user-defined content. *)
Definition datatype_to_varianttype (int_type : Z) : VariantType.t :=
  match List.find (fun x => VariantType.value x =? int_type)
                  VariantType.builtin with
  | Some x => x
  | None => VariantType.Custom int_type
  end.

End ua.

(** ** Python values *)

(** Modelled from the spec: the class [ua.NodeId],
    "{ type, namespace_index, identifier, optional namespace_uri, optional
    server_index }". *)
Record NodeId_ (V : Type) := mkNodeId {
  NodeIdType : ua.NodeIdType.t;
  NamespaceIndex : Z;
  Identifier : V;
  NamespaceUri : option string;
  ServerIndex : option Z
}.
Arguments mkNodeId {V}.
Arguments NodeIdType {V}.
Arguments NamespaceIndex {V}.
Arguments Identifier {V}.
Arguments NamespaceUri {V}.
Arguments ServerIndex {V}.

(** Modelled from the spec: the class [ua.Variant],
    "{ variant_type, value, is_array, dimensions? }". *)
Record Variant_ (V : Type) := mkVariant {
  Value : V;
  VariantType : ua.VariantType.t;
  Dimensions : option (list Z);
  is_array : bool
}.
Arguments mkVariant {V}.
Arguments Value {V}.
Arguments VariantType {V}.
Arguments Dimensions {V}.
Arguments is_array {V}.

(** An instance of a class that carries [ua_types]: the class name, the
    schema attributes [ua_types] and [ua_switches] (absent when the class
    has none) and the instance attributes. A switch maps a field name to
    the name of its bitmask field and a bit index. *)
Record Object_ (V : Type) := mkObject {
  ua_class : string;
  ua_types : list (string * string);
  ua_switches : option (list (string * (string * nat)));
  attrs : gmap string V
}.
Arguments mkObject {V}.
Arguments ua_class {V}.
Arguments ua_types {V}.
Arguments ua_switches {V}.
Arguments attrs {V}.

Inductive value :=
| VNone
| VBool (b : bool)
| VInt (z : Z)
| VStr (s : string)                (* str, by its UTF-8 text *)
| VBytes (b : bytes)
| VDateTime (us : Z)               (* datetime: microseconds since 1601-01-01 *)
| VUuid (i : Z)                    (* uuid.UUID, by its 128-bit integer *)
| VEnum (ordinal : Z)              (* a member of an Enum, by its value *)
| VList (l : list value)           (* list or tuple *)
| VNodeId (n : NodeId_ value)
| VVariant (v : Variant_ value)
| VObj (o : Object_ value).

Abbreviation NodeId := (NodeId_ value).
Abbreviation Variant := (Variant_ value).
Abbreviation Object := (Object_ value).

(** Modelled from the spec: [ua.NodeId()], the null NodeId in two-byte
    form. *)
Definition NodeId_default : NodeId :=
  mkNodeId ua.NodeIdType.TwoByte 0 (VInt 0) None None.

(** [getattr(obj, name)] and [setattr(obj, name, v)]. *)
Definition getattr (obj : Object) (name : string) : res value :=
  match attrs obj !! name with
  | Some v => Ok v
  | None => Raise AttributeError
  end.

Definition setattr (obj : Object) (name : string) (v : value) : Object :=
  mkObject (ua_class obj) (ua_types obj) (ua_switches obj)
           (<[name := v]> (attrs obj)).

(** The truth value of an object, as [if x:] takes it. *)
Definition truthy (v : value) : bool :=
  match v with
  | VNone => false
  | VBool b => b
  | VInt z => negb (z =? 0)
  | VStr s => negb (String.eqb s "")
  | VBytes b => match b with [] => false | _ => true end
  | VList l => match l with [] => false | _ => true end
  | _ => true
  end.

(** An [int] (a [bool] is one). *)
Definition py_int (v : value) : option Z :=
  match v with
  | VInt z => Some z
  | VBool b => Some (if b then 1 else 0)
  | _ => None
  end.

(** The helpers at the head of the module. *)
Definition test_bit (data offset : Z) : Z := Z.land data (Z.shiftl 1 offset).
Definition set_bit (data offset : Z) : Z := Z.lor data (Z.shiftl 1 offset).
Definition unset_bit (data offset : Z) : Z :=
  Z.land data (Z.lnot (Z.shiftl 1 offset)).

(** ** The [struct] module, for the formats the codec uses *)

Inductive fmt :=
| Fmt_b | Fmt_h | Fmt_i | Fmt_q          (* "<b" "<h" "<i" "<q" *)
| Fmt_B | Fmt_H | Fmt_I | Fmt_Q          (* "<B" "<H" "<I" "<Q" *)
| Fmt_bool                               (* "<?" *)
| Fmt_d | Fmt_f.                         (* "<d" "<f" *)

(** [struct.Struct(fmt).size] *)
Definition fmt_size (f : fmt) : nat :=
  match f with
  | Fmt_b | Fmt_B | Fmt_bool => 1
  | Fmt_h | Fmt_H => 2
  | Fmt_i | Fmt_I | Fmt_f => 4
  | Fmt_q | Fmt_Q | Fmt_d => 8
  end%nat.

Definition fmt_signed (f : fmt) : bool :=
  match f with
  | Fmt_b | Fmt_h | Fmt_i | Fmt_q => true
  | _ => false
  end.

Definition fmt_bits (f : fmt) : Z := 8 * Z.of_nat (fmt_size f).

Definition fmt_min (f : fmt) : Z :=
  if fmt_signed f then - 2 ^ (fmt_bits f - 1) else 0.

Definition fmt_max (f : fmt) : Z :=
  if fmt_signed f then 2 ^ (fmt_bits f - 1) - 1 else 2 ^ fmt_bits f - 1.

(** [struct.pack(fmt, v)] for a format of one field. *)
Definition struct_pack1 (f : fmt) (v : value) : res bytes :=
  match f with
  | Fmt_d | Fmt_f => Raise Unmodelled
  | Fmt_bool => Ok [byte_of_Z (if truthy v then 1 else 0)]
  | _ =>
      match py_int v with
      | None => Raise StructError
      | Some z =>
          if (fmt_min f <=? z) && (z <=? fmt_max f)
          then Ok (le_bytes (fmt_size f) z)
          else Raise StructError
      end
  end.

(** The integer that [fmt_size f] little-endian bytes stand for. *)
Definition int_of_le (f : fmt) (bs : bytes) : Z :=
  let u := le_value bs in
  if fmt_signed f && (2 ^ (fmt_bits f - 1) <=? u) then u - 2 ^ fmt_bits f
  else u.

(** [struct.unpack(fmt, bs)[0]] for a format of one field. *)
Definition struct_unpack1 (f : fmt) (bs : bytes) : res value :=
  if negb (length bs =? fmt_size f)%nat then Raise StructError
  else
    match f with
    | Fmt_d | Fmt_f => Raise Unmodelled
    | Fmt_bool => Ok (VBool (negb (le_value bs =? 0)))
    | _ => Ok (VInt (int_of_le f bs))
    end.

(** [struct.pack] with a format of several fields, little-endian and so
    without padding. *)
Fixpoint struct_pack (fs : list fmt) (vs : list value) : res bytes :=
  match fs, vs with
  | [], [] => Ok []
  | f :: fs, v :: vs =>
      (do b <- struct_pack1 f v ;;
       do bs <- struct_pack fs vs ;;
       Ok (b ++ bs))%res
  | _, _ => Raise StructError
  end.

Fixpoint struct_unpack (fs : list fmt) (bs : bytes) : res (list value) :=
  match fs with
  | [] => match bs with [] => Ok [] | _ => Raise StructError end
  | f :: fs =>
      (do v <- struct_unpack1 f (take (fmt_size f) bs) ;;
       do vs <- struct_unpack fs (drop (fmt_size f) bs) ;;
       Ok (v :: vs))%res
  end.

(** ** Text *)

(** [true] when the bytes are well-formed UTF-8, the condition under which
    [bytes.decode("utf-8")] returns. *)
Fixpoint utf8_valid (bs : list Z) : bool :=
  let cont b := (128 <=? b) && (b <=? 191) in
  match bs with
  | [] => true
  | b0 :: r =>
      if b0 <? 128 then utf8_valid r
      else if (194 <=? b0) && (b0 <=? 223) then
        match r with
        | b1 :: r => cont b1 && utf8_valid r
        | _ => false
        end
      else if (224 <=? b0) && (b0 <=? 239) then
        match r with
        | b1 :: b2 :: r =>
            cont b1 && cont b2
            && (negb (b0 =? 224) || (160 <=? b1))
            && (negb (b0 =? 237) || (b1 <=? 159))
            && utf8_valid r
        | _ => false
        end
      else if (240 <=? b0) && (b0 <=? 244) then
        match r with
        | b1 :: b2 :: b3 :: r =>
            cont b1 && cont b2 && cont b3
            && (negb (b0 =? 240) || (144 <=? b1))
            && (negb (b0 =? 244) || (b1 <=? 143))
            && utf8_valid r
        | _ => false
        end
      else false
  end.

(** [s.encode('utf-8')] and [b.decode("utf-8")]. *)
Definition str_encode (s : string) : bytes := String.list_byte_of_string s.

Definition bytes_decode (b : bytes) : res string :=
  if utf8_valid (map Z_of_byte b) then Ok (String.string_of_list_byte b)
  else Raise UnicodeDecodeError.

(** A [str] value of the program: its text is well-formed UTF-8. *)
Definition str_ok (s : string) : bool :=
  utf8_valid (map Z_of_byte (str_encode s)).

(** ** Dates *)

(** The range of [datetime], in microseconds from 1601-01-01:
    0001-01-01T00:00:00 to 9999-12-31T23:59:59.999999. *)
Definition datetime_min : Z := - (584388 * 86400 * 1000000).
Definition datetime_max : Z := 3067671 * 86400 * 1000000 - 1.

(** Modelled from the spec: [ua.datetime_to_win_epoch], the "count of
    100-nanosecond intervals since 1601-01-01T00:00:00 UTC". *)
Definition datetime_to_win_epoch (dt : value) : res Z :=
  match dt with
  | VDateTime us => Ok (10 * us)
  | _ => Raise TypeError
  end.

(** Modelled from the spec: [ua.win_epoch_to_datetime]; "values outside the
    representable range surface as an out-of-range error". *)
Definition win_epoch_to_datetime (epch : Z) : res value :=
  let us := epch / 10 in
  if (datetime_min <=? us) && (us <=? datetime_max) then Ok (VDateTime us)
  else Raise OverflowError.

(** ** The primitive codecs *)

Definition dec_lift {A} (r : res A) : dec A := fun b => (r, b).

(** The classes [_Primitive1], [_Null], [_String], [_Bytes], [_DateTime]
    and [_Guid]: the instances that class [Primitives] collects. *)
Inductive _Primitive :=
| _Primitive1 (f : fmt)
| _Null
| _String
| _Bytes
| _DateTime
| _Guid.

Module Primitives.
Definition table : list (string * _Primitive) :=
  [("SByte", _Primitive1 Fmt_b); ("Int16", _Primitive1 Fmt_h);
   ("Int32", _Primitive1 Fmt_i); ("Int64", _Primitive1 Fmt_q);
   ("Byte", _Primitive1 Fmt_B); ("Char", _Primitive1 Fmt_B);
   ("UInt16", _Primitive1 Fmt_H); ("UInt32", _Primitive1 Fmt_I);
   ("UInt64", _Primitive1 Fmt_Q); ("Boolean", _Primitive1 Fmt_bool);
   ("Double", _Primitive1 Fmt_d); ("Float", _Primitive1 Fmt_f);
   ("Null", _Null); ("String", _String); ("Bytes", _Bytes);
   ("ByteString", _Bytes); ("CharArray", _String);
   ("DateTime", _DateTime); ("Guid", _Guid)].

(** [getattr(Primitives, name)], [None] when [hasattr] is false. *)
Definition getattr (name : string) : option _Primitive :=
  match List.find (fun p => String.eqb (fst p) name) table with
  | Some p => Some (snd p)
  | None => None
  end.

Definition SByte := _Primitive1 Fmt_b.
Definition Int16 := _Primitive1 Fmt_h.
Definition Int32 := _Primitive1 Fmt_i.
Definition Int64 := _Primitive1 Fmt_q.
Definition Byte := _Primitive1 Fmt_B.
Definition Char := Byte.
Definition UInt16 := _Primitive1 Fmt_H.
Definition UInt32 := _Primitive1 Fmt_I.
Definition UInt64 := _Primitive1 Fmt_Q.
Definition Boolean := _Primitive1 Fmt_bool.
Definition Double := _Primitive1 Fmt_d.
Definition Float := _Primitive1 Fmt_f.
Definition Null := _Null.
Definition String := _String.
Definition Bytes := _Bytes.
Definition ByteString := _Bytes.
Definition CharArray := _String.
Definition DateTime := _DateTime.
Definition Guid := _Guid.
End Primitives.

(** [_String.pack]; [_Bytes.pack] calls it. *)
Definition _String_pack (string : value) : res bytes :=
  match string with
  | VNone => struct_pack1 Fmt_i (VInt (-1))
  | VStr s =>
      let string := str_encode s in
      (do l <- struct_pack1 Fmt_i (VInt (Z.of_nat (length string))) ;;
       Ok (l ++ string))%res
  | VBytes string =>
      (do l <- struct_pack1 Fmt_i (VInt (Z.of_nat (length string))) ;;
       Ok (l ++ string))%res
  | _ => Raise TypeError
  end.

(** [_Guid.pack]: the fields of the UUID in the four-field layout. *)
Definition _Guid_pack (guid : value) : res bytes :=
  match guid with
  | VUuid i =>
      let time_low := Z.land (Z.shiftr i 96) 4294967295 in
      let time_mid := Z.land (Z.shiftr i 80) 65535 in
      let time_hi_version := Z.land (Z.shiftr i 64) 65535 in
      let clock_seq_hi_variant := Z.land (Z.shiftr i 56) 255 in
      let clock_seq_low := Z.land (Z.shiftr i 48) 255 in
      let node := Z.land i 281474976710655 in
      (do f1 <- struct_pack1 Fmt_I (VInt time_low) ;;
       do f2 <- struct_pack1 Fmt_H (VInt time_mid) ;;
       do f3 <- struct_pack1 Fmt_H (VInt time_hi_version) ;;
       do f4a <- struct_pack1 Fmt_B (VInt clock_seq_hi_variant) ;;
       do f4b <- struct_pack1 Fmt_B (VInt clock_seq_low) ;;
       let f4c := drop 2 (be_bytes 8 node) in
       let f4 := f4a ++ f4b ++ f4c in
       Ok (f1 ++ f2 ++ f3 ++ f4))%res
  | _ => Raise AttributeError
  end.

(** The method [pack] of each primitive. *)
Definition pack (self : _Primitive) (data : value) : res bytes :=
  match self with
  | _Primitive1 f => struct_pack1 f data
  | _Null => Ok []
  | _String => _String_pack data
  | _Bytes => _String_pack data
  | _DateTime =>
      (do epch <- datetime_to_win_epoch data ;;
       struct_pack1 Fmt_q (VInt epch))%res
  | _Guid => _Guid_pack data
  end.

Definition _Primitive1_unpack (f : fmt) : dec value :=
  (do bs <- read (Z.of_nat (fmt_size f)) ;;
   dec_lift (struct_unpack1 f bs))%dec.

(** An integer primitive read where the program goes on to use the
    integer. *)
Definition unpack_int (f : fmt) : dec Z :=
  (do v <- _Primitive1_unpack f ;;
   match v with
   | VInt z => dec_ret z
   | _ => dec_raise TypeError
   end)%dec.

Definition _Bytes_unpack : dec value :=
  (do length <- unpack_int Fmt_i ;;
   if length =? -1 then dec_ret VNone
   else do b <- read length ;; dec_ret (VBytes b))%dec.

Definition _String_unpack : dec value :=
  (do b <- _Bytes_unpack ;;
   match b with
   | VBytes b =>
       dec_lift (do s <- bytes_decode b ;; Ok (VStr s))%res
   | _ => dec_ret b
   end)%dec.

Definition _Guid_unpack : dec value :=
  (do t1 <- unpack_int Fmt_I ;;
   do t2 <- unpack_int Fmt_H ;;
   do t3 <- unpack_int Fmt_H ;;
   do f4 <- read 8 ;;
   let f1 := be_bytes 4 t1 in
   let f2 := be_bytes 2 t2 in
   let f3 := be_bytes 2 t3 in
   let b := f1 ++ f2 ++ f3 ++ f4 in
   dec_ret (VUuid (be_value b)))%dec.

(** The method [unpack] of each primitive. *)
Definition unpack (self : _Primitive) : dec value :=
  match self with
  | _Primitive1 f => _Primitive1_unpack f
  | _Null => dec_ret VNone
  | _String => _String_unpack
  | _Bytes => _Bytes_unpack
  | _DateTime =>
      (do epch <- unpack_int Fmt_q ;;
       dec_lift (win_epoch_to_datetime epch))%dec
  | _Guid => _Guid_unpack
  end.

(** The absent marker, [b'\xff\xff\xff\xff']. *)
Definition absent_marker : bytes := [Byte.xff; Byte.xff; Byte.xff; Byte.xff].


(** [_Primitive.unpack_array] *)
Definition unpack_array (self : _Primitive) : dec value :=
  (do length <- unpack_int Fmt_i ;;
   if length =? -1 then dec_ret VNone
   else if length =? 0 then dec_ret (VList [])
   else do l <- dec_repeat (Z.to_nat length) (unpack self) ;;
        dec_ret (VList l))%dec.

(** ** The registries of the [ua] package *)

(** A class of the [ua] package as the decoders use it: an enumeration, by
    its members, or a structure, by the object its constructor returns. *)
Inductive klass :=
| KEnum (name : string) (members : list Z)
| KStruct (init : Object).

(** A type handed to [from_binary]: "an uatype as a string or a python
    class". *)
Inductive uatype_ref :=
| ByName (s : string)
| ByClass (k : klass).

(** What the codec reads from the [ua] package at run time: the classes by
    name ([getattr(ua, name)]), the two extension-object tables, and the
    class [ua.ExtensionObject], by the object its constructor returns. *)
Record ua_package := {
  ua_classes : gmap string klass;
  extension_object_classes : NodeId -> option klass;
  extension_object_ids : gmap string NodeId;
  ExtensionObject : Object
}.

(** ** NodeId *)

Definition ord (b : bytes) : Z := le_value b.

Definition nodeid_to_binary (nodeid : NodeId) : res bytes :=
  let tag := VInt (ua.NodeIdType.value (NodeIdType nodeid)) in
  let ns := VInt (NamespaceIndex nodeid) in
  match NodeIdType nodeid with
  | ua.NodeIdType.TwoByte =>
      struct_pack [Fmt_B; Fmt_B] [tag; Identifier nodeid]
  | ua.NodeIdType.FourByte =>
      struct_pack [Fmt_B; Fmt_B; Fmt_H] [tag; ns; Identifier nodeid]
  | ua.NodeIdType.Numeric =>
      struct_pack [Fmt_B; Fmt_H; Fmt_I] [tag; ns; Identifier nodeid]
  | ua.NodeIdType.String =>
      (do h <- struct_pack [Fmt_B; Fmt_H] [tag; ns] ;;
       do i <- pack Primitives.String (Identifier nodeid) ;;
       Ok (h ++ i))%res
  | ua.NodeIdType.ByteString =>
      (do h <- struct_pack [Fmt_B; Fmt_H] [tag; ns] ;;
       do i <- pack Primitives.Bytes (Identifier nodeid) ;;
       Ok (h ++ i))%res
  | ua.NodeIdType.Guid =>
      (do h <- struct_pack [Fmt_B; Fmt_H] [tag; ns] ;;
       do i <- pack Primitives.Guid (Identifier nodeid) ;;
       Ok (h ++ i))%res
  end.
  (* FIXME: Missing NNamespaceURI and ServerIndex *)

(** The two-field [struct.unpack] of the FourByte and Numeric bodies. *)
Definition unpack_ns_id (fs : list fmt) (n : Z) : dec (Z * value) :=
  (do bs <- read n ;;
   do vs <- dec_lift (struct_unpack fs bs) ;;
   match vs with
   | [VInt ns; id] => dec_ret (ns, id)
   | _ => dec_raise StructError
   end)%dec.

Definition nodeid_from_binary : dec NodeId :=
  (do b <- read 1 ;;
   let encoding := ord b in
   do t <- dec_lift (ua.NodeIdType.of_value (Z.land encoding 63)) ;;
   let nid := NodeId_default in
   do nid <-
     match t with
     | ua.NodeIdType.TwoByte =>
         do b <- read 1 ;;
         dec_ret (mkNodeId t (NamespaceIndex nid) (VInt (ord b))
                           (NamespaceUri nid) (ServerIndex nid))
     | ua.NodeIdType.FourByte =>
         do '(ns, id) <- unpack_ns_id [Fmt_B; Fmt_H] 3 ;;
         dec_ret (mkNodeId t ns id (NamespaceUri nid) (ServerIndex nid))
     | ua.NodeIdType.Numeric =>
         do '(ns, id) <- unpack_ns_id [Fmt_H; Fmt_I] 6 ;;
         dec_ret (mkNodeId t ns id (NamespaceUri nid) (ServerIndex nid))
     | ua.NodeIdType.String =>
         do ns <- unpack_int Fmt_H ;;
         do id <- unpack Primitives.String ;;
         dec_ret (mkNodeId t ns id (NamespaceUri nid) (ServerIndex nid))
     | ua.NodeIdType.ByteString =>
         do ns <- unpack_int Fmt_H ;;
         do id <- unpack Primitives.Bytes ;;
         dec_ret (mkNodeId t ns id (NamespaceUri nid) (ServerIndex nid))
     | ua.NodeIdType.Guid =>
         do ns <- unpack_int Fmt_H ;;
         do id <- unpack Primitives.Guid ;;
         dec_ret (mkNodeId t ns id (NamespaceUri nid) (ServerIndex nid))
     end ;;
   do nid <-
     (if negb (test_bit encoding 7 =? 0) then
        do s <- unpack Primitives.String ;;
        dec_ret (mkNodeId (NodeIdType nid) (NamespaceIndex nid)
                   (Identifier nid)
                   (match s with VStr s => Some s | _ => None end)
                   (ServerIndex nid))
      else dec_ret nid) ;;
   do nid <-
     (if negb (test_bit encoding 6 =? 0) then
        do i <- unpack_int Fmt_I ;;
        dec_ret (mkNodeId (NodeIdType nid) (NamespaceIndex nid)
                   (Identifier nid) (NamespaceUri nid) (Some i))
      else dec_ret nid) ;;
   dec_ret nid)%dec.

(** ** Reshaping a decoded array *)

(** [[l[i:i + k] for i in range(0, len(l), k)]] for a positive [k]. *)
Fixpoint chunks_from {A} (fuel k : nat) (l : list A) : list (list A) :=
  match fuel with
  | O => []
  | S fuel =>
      match l with
      | [] => []
      | _ => take k l :: chunks_from fuel k (drop k l)
      end
  end.

(** The same for any step: [range] with a negative step is empty here. *)
Definition chunks {A} (subsize : Z) (l : list A) : list (list A) :=
  if subsize <=? 0 then []
  else chunks_from (length l) (Z.to_nat subsize) l.

(** The loop [for i in subdims: if i == 0: i = 1; subsize *= i]. *)
Definition subsize_of (subdims : list Z) : Z :=
  fold_left (fun subsize i => subsize * (if i =? 0 then 1 else i)) subdims 1.

(** [flat] after [while dims[0] * subsize > len(flat): flat.append([])]. *)
Definition pad_flat (d0 subsize : Z) (flat : list value) : list value :=
  flat ++ repeat (VList []) (Z.to_nat (d0 * subsize - Z.of_nat (length flat))).

Fixpoint _reshape (flat : list value) (dims : list Z) : res value :=
  match dims with
  | [] => Raise IndexError
  | d0 :: subdims =>
      let subsize := subsize_of subdims in
      let flat := pad_flat d0 subsize flat in
      match subdims with
      | [] => Ok (VList flat)
      | [0] => Ok (VList flat)
      | _ =>
          (do groups <-
             res_map (fun chunk => _reshape chunk subdims)
                     (chunks subsize flat) ;;
           Ok (VList groups))%res
      end
  end.

(** Modelled from the spec: [ua.flatten], which turns the value of an array
    Variant into the "flat sequence" that is encoded; an absent value stays
    absent. *)
Fixpoint flatten_list (v : value) : list value :=
  match v with
  | VList l => concat (List.map flatten_list l)
  | _ => [v]
  end.

Definition flatten (v : value) : res value :=
  match v with
  | VNone => Ok VNone
  | VList l => Ok (VList (concat (List.map flatten_list l)))
  | _ => Raise TypeError
  end.

(** ** The encoders

    The encoders call one another; each is written once, with the calls
    that close a cycle going through [self], and [encoders_at] ties them.
    [struct_to_binary] and [variant_to_binary] assign attributes of their
    argument: they return the object after the call next to the bytes. An
    object reached through an attribute is encoded by a call of its own,
    and the assignments of that call are those of this function at that
    object. *)

Record encoders := {
  self_pack_uatype : ua.VariantType.t -> value -> res bytes;
  self_to_binary : string -> value -> res bytes;
  self_struct_to_binary : Object -> res (bytes * Object);
  self_variant_to_binary : Variant -> res (bytes * Variant);
  self_extensionobject_to_binary : value -> res bytes
}.

Definition is_list (v : value) : bool :=
  match v with VList _ => true | _ => false end.

Definition is_None (v : value) : bool :=
  match v with VNone => true | _ => false end.

(** [name in obj.ua_switches] and [obj.ua_switches[name]]. *)
Definition switch_of (sw : list (string * (string * nat))) (name : string)
  : option (string * nat) :=
  match List.find (fun p => String.eqb (fst p) name) sw with
  | Some p => Some (snd p)
  | None => None
  end.

(** [uatype[6:]] *)
Definition strip_ListOf (uatype : string) : string :=
  String.substring 6 (String.length uatype - 6) uatype.

Section Encoders.
Variable registry : ua_package.
Variable self : encoders.

Definition pack_uatype (vtype : ua.VariantType.t) (value : value)
  : res bytes :=
  match Primitives.getattr (ua.VariantType.name vtype) with
  | Some p => pack p value
  | None =>
      if 25 <? ua.VariantType.value vtype then
        pack Primitives.Bytes value
      else if ua.VariantType.eqb vtype ua.VariantType.ExtensionObject then
        self_extensionobject_to_binary self value
      else if ua.VariantType.eqb vtype ua.VariantType.NodeId
              || ua.VariantType.eqb vtype ua.VariantType.ExpandedNodeId then
        match value with
        | VNodeId n => nodeid_to_binary n
        | _ => Raise AttributeError
        end
      else if ua.VariantType.eqb vtype ua.VariantType.Variant then
        match value with
        | VVariant v =>
            (do r <- self_variant_to_binary self v ;; Ok (fst r))%res
        | _ => Raise AttributeError
        end
      else
        match value with
        | VObj o =>
            (do r <- self_struct_to_binary self o ;; Ok (fst r))%res
        | _ => Raise AttributeError
        end
  end.

Definition pack_uatype_array (vtype : ua.VariantType.t) (array : value)
  : res bytes :=
  match array with
  | VNone => Ok absent_marker
  | VList array =>
      let length := Z.of_nat (length array) in
      (do b <- res_map (pack_uatype vtype) array ;;
       do l <- pack Primitives.Int32 (VInt length) ;;
       Ok (l ++ concat b))%res
  | _ => Raise TypeError
  end.

Definition to_binary (uatype : string) (val : value) : res bytes :=
  match val with
  | VList l =>
      let length := Z.of_nat (length l) in
      (do b <- res_map (self_to_binary self uatype) l ;;
       do h <- pack Primitives.Int32 (VInt length) ;;
       Ok (h ++ concat b))%res
  | _ =>
      match ua.VariantType.of_name uatype with
      | Some vtype => pack_uatype vtype val
      | None =>
          match val with
          | VEnum ordinal => pack Primitives.UInt32 (VInt ordinal)
          | VNodeId n => nodeid_to_binary n
          | VVariant v =>
              (do r <- self_variant_to_binary self v ;; Ok (fst r))%res
          | VObj o =>
              (do r <- self_struct_to_binary self o ;; Ok (fst r))%res
          | _ => Raise UaError
          end
      end
  end.

Definition list_to_binary (uatype : string) (val : value) : res bytes :=
  match val with
  | VNone => pack Primitives.Int32 (VInt (-1))
  | VList l =>
      (do h <- pack Primitives.Int32 (VInt (Z.of_nat (length l))) ;;
       do pack <- res_map (to_binary uatype) l ;;
       Ok (h ++ concat pack))%res
  | _ => Raise TypeError
  end.

(** One turn of the loop over [obj.ua_switches.items()]. *)
Definition apply_switch (obj : Object) (name : string)
           (switch : string * nat) : res Object :=
  (do member <- getattr obj name ;;
   let '(container_name, idx) := switch in
   if negb (is_None member) then
     do container_val <- getattr obj container_name ;;
     match py_int container_val with
     | Some container_val =>
         let container_val :=
           Z.lor container_val (Z.shiftl 1 (Z.of_nat idx)) in
         Ok (setattr obj container_name (VInt container_val))
     | None => Raise TypeError
     end
   else Ok obj)%res.

Fixpoint apply_switches (obj : Object)
         (items : list (string * (string * nat))) : res Object :=
  match items with
  | [] => Ok obj
  | (name, switch) :: items =>
      (do obj <- apply_switch obj name switch ;;
       apply_switches obj items)%res
  end.

(** The bytes that one entry of [obj.ua_types] adds to the packet. *)
Definition field_to_binary (obj : Object) (field : string * string)
  : res bytes :=
  let '(name, uatype) := field in
  (do val <- getattr obj name ;;
   if String.prefix "ListOf" uatype then
     list_to_binary (strip_ListOf uatype) val
   else
     match ua_switches obj with
     | Some sw =>
         if is_None val && bool_decide (is_Some (switch_of sw name))
         then Ok []
         else to_binary uatype val
     | None => to_binary uatype val
     end)%res.

Definition struct_to_binary (obj : Object) : res (bytes * Object) :=
  (do obj <-
     match ua_switches obj with
     | Some sw => apply_switches obj sw
     | None => Ok obj
     end ;;
   do packet <- res_map (field_to_binary obj) (ua_types obj) ;;
   Ok (concat packet, obj))%res.

Definition variant_to_binary (var : Variant) : res (bytes * Variant) :=
  let encoding := Z.land (ua.VariantType.value (VariantType var)) 63 in
  if is_array var || is_list (Value var) then
    let var := mkVariant (Value var) (VariantType var) (Dimensions var)
                         true in
    let encoding := set_bit encoding 7 in
    let encoding :=
      match Dimensions var with
      | Some _ => set_bit encoding 6
      | None => encoding
      end in
    (do b0 <- pack Primitives.Byte (VInt encoding) ;;
     do flat <- flatten (Value var) ;;
     do b1 <- pack_uatype_array (VariantType var) flat ;;
     do b2 <-
       match Dimensions var with
       | Some dims =>
           pack_uatype_array ua.VariantType.Int32 (VList (map VInt dims))
       | None => Ok []
       end ;;
     Ok (b0 ++ b1 ++ b2, var))%res
  else
    (do b0 <- pack Primitives.Byte (VInt encoding) ;;
     do b1 <- pack_uatype (VariantType var) (Value var) ;;
     Ok (b0 ++ b1, var))%res.

(** [isinstance(obj, ua.ExtensionObject)] *)
Definition is_ExtensionObject (obj : value) : bool :=
  match obj with
  | VObj o => String.eqb (ua_class o) (ua_class (ExtensionObject registry))
  | _ => false
  end.

Definition extensionobject_to_binary (obj : value) : res bytes :=
  if is_ExtensionObject obj then
    match obj with
    | VObj o => (do r <- self_struct_to_binary self o ;; Ok (fst r))%res
    | _ => Raise AttributeError
    end
  else
    (do '(TypeId, Encoding, Body) <-
       (if is_None obj then Ok (NodeId_default, 0, VNone)
        else
          match obj with
          | VObj o =>
              match extension_object_ids registry !! ua_class o with
              | Some TypeId =>
                  do r <- self_struct_to_binary self o ;;
                  Ok (TypeId, 1, VBytes (fst r))
              | None => Raise KeyError
              end
          | _ => Raise KeyError
          end) ;;
     do p0 <- nodeid_to_binary TypeId ;;
     do p1 <- pack Primitives.Byte (VInt Encoding) ;;
     do p2 <- (if truthy Body then pack Primitives.Bytes Body
               else Ok []) ;;
     Ok (p0 ++ p1 ++ p2))%res.

End Encoders.

(** The encoders with a bound on the depth of the calls. *)
Fixpoint encoders_at (registry : ua_package) (fuel : nat) : encoders :=
  match fuel with
  | O =>
      {| self_pack_uatype := fun _ _ => Raise OutOfFuel;
         self_to_binary := fun _ _ => Raise OutOfFuel;
         self_struct_to_binary := fun _ => Raise OutOfFuel;
         self_variant_to_binary := fun _ => Raise OutOfFuel;
         self_extensionobject_to_binary := fun _ => Raise OutOfFuel |}
  | S fuel =>
      let self := encoders_at registry fuel in
      {| self_pack_uatype := pack_uatype self;
         self_to_binary := to_binary self;
         self_struct_to_binary := struct_to_binary self;
         self_variant_to_binary := variant_to_binary self;
         self_extensionobject_to_binary :=
           extensionobject_to_binary registry self |}
  end.

(** ** The decoders *)

Record decoders := {
  self_unpack_uatype : ua.VariantType.t -> dec value;
  self_from_binary : uatype_ref -> dec value;
  self_struct_from_binary : uatype_ref -> dec value;
  self_variant_from_binary : dec Variant;
  self_extensionobject_from_binary : dec value
}.

(** [from_binary(klass, body)] on a sub-buffer: the cursor that moves is
    the sub-buffer's. *)
Definition on_buffer {A} (body : Buffer) (m : dec A) : dec A :=
  fun data => (fst (m body), data).

(** [typeid.Identifier == 0] *)
Definition Identifier_is_0 (typeid : NodeId) : bool :=
  match py_int (Identifier typeid) with
  | Some z => z =? 0
  | None => false
  end.

(** The list of [int] that a decoded Int32 array is. *)
Fixpoint ints_of (l : list value) : res (list Z) :=
  match l with
  | [] => Ok []
  | VInt z :: l => (do zs <- ints_of l ;; Ok (z :: zs))%res
  | _ => Raise TypeError
  end.

Section Decoders.
Variable registry : ua_package.
Variable self : decoders.

Definition unpack_uatype (vtype : ua.VariantType.t) : dec value :=
  match Primitives.getattr (ua.VariantType.name vtype) with
  | Some st => unpack st
  | None =>
      if 25 <? ua.VariantType.value vtype then unpack Primitives.Bytes
      else if ua.VariantType.eqb vtype ua.VariantType.ExtensionObject then
        self_extensionobject_from_binary self
      else if ua.VariantType.eqb vtype ua.VariantType.NodeId
              || ua.VariantType.eqb vtype ua.VariantType.ExpandedNodeId then
        (do n <- nodeid_from_binary ;; dec_ret (VNodeId n))%dec
      else if ua.VariantType.eqb vtype ua.VariantType.Variant then
        (do v <- self_variant_from_binary self ;; dec_ret (VVariant v))%dec
      else
        match ua_classes registry !! ua.VariantType.name vtype with
        | Some klass => self_struct_from_binary self (ByClass klass)
        | None => dec_raise UaError
        end
  end.

Definition unpack_uatype_array (vtype : ua.VariantType.t) : dec value :=
  match Primitives.getattr (ua.VariantType.name vtype) with
  | Some st => unpack_array st
  | None =>
      (do length <- unpack_int Fmt_i ;;
       if length =? -1 then dec_ret VNone
       else
         do l <- dec_repeat (Z.to_nat length) (unpack_uatype vtype) ;;
         dec_ret (VList l))%dec
  end.

Definition variant_from_binary : dec Variant :=
  (do b <- read 1 ;;
   let encoding := ord b in
   let int_type := Z.land encoding 63 in
   let vtype := ua.datatype_to_varianttype int_type in
   do '(value, array) <-
     (if negb (test_bit encoding 7 =? 0) then
        do value <- unpack_uatype_array vtype ;; dec_ret (value, true)
      else
        do value <- unpack_uatype vtype ;; dec_ret (value, false)) ;;
   do '(value, dimensions) <-
     (if negb (test_bit encoding 6 =? 0) then
        do dimensions <- unpack_uatype_array ua.VariantType.Int32 ;;
        match dimensions, value with
        | VList dims, VList flat =>
            do dims <- dec_lift (ints_of dims) ;;
            do value <- dec_lift (_reshape flat dims) ;;
            dec_ret (value, Some dims)
        | _, _ => dec_raise TypeError
        end
      else dec_ret (value, None)) ;;
   dec_ret (mkVariant value vtype dimensions array))%dec.

Definition extensionobject_from_binary : dec value :=
  (do typeid <- nodeid_from_binary ;;
   do b <- read 1 ;;
   let Encoding := ord b in
   do body <-
     (if negb (Z.land Encoding (Z.shiftl 1 0) =? 0) then
        do length <- unpack_int Fmt_i ;;
        if length <? 1 then dec_ret (Some ([] : Buffer))
        else
          do body <- copy length ;;
          do _ <- skip length ;;
          dec_ret (Some body)
      else dec_ret None) ;;
   if Identifier_is_0 typeid then dec_ret VNone
   else
     match extension_object_classes registry typeid with
     | Some klass =>
         match body with
         | None => dec_raise UaError
         | Some body =>
             on_buffer body (self_from_binary self (ByClass klass))
         end
     | None =>
         let e := ExtensionObject registry in
         let e := setattr e "TypeId" (VNodeId typeid) in
         let e := setattr e "Encoding" (VInt Encoding) in
         let e :=
           match body with
           | Some body => setattr e "Body" (VBytes body)
           | None => e
           end in
         dec_ret (VObj e)
     end)%dec.

Definition from_binary (uatype : uatype_ref) : dec value :=
  match uatype with
  | ByName s =>
      if String.prefix "ListOf" s then
        (do size <- unpack_int Fmt_i ;;
         if size =? -1 then dec_ret VNone
         else
           do res <- dec_repeat (Z.to_nat size)
                       (self_from_binary self (ByName (strip_ListOf s))) ;;
           dec_ret (VList res))%dec
      else
        match ua.VariantType.of_name s with
        | Some vtype => unpack_uatype vtype
        | None => self_struct_from_binary self uatype
        end
  | ByClass _ => self_struct_from_binary self uatype
  end.

(** One turn of the loop over [obj.ua_types]. *)
Definition field_from_binary (obj : Object) (field : string * string)
  : dec Object :=
  let '(name, uatype) := field in
  let decode :=
    (do val <- from_binary (ByName uatype) ;;
     dec_ret (setattr obj name val))%dec in
  match ua_switches obj with
  | Some sw =>
      match switch_of sw name with
      | Some (container_name, idx) =>
          (do val <- dec_lift (getattr obj container_name) ;;
           match py_int val with
           | Some val =>
               if test_bit val (Z.of_nat idx) =? 0 then dec_ret obj
               else decode
           | None => dec_raise TypeError
           end)%dec
      | None => decode
      end
  | None => decode
  end.

Fixpoint fields_from_binary (obj : Object) (fields : list (string * string))
  : dec Object :=
  match fields with
  | [] => dec_ret obj
  | field :: fields =>
      (do obj <- field_from_binary obj field ;;
       fields_from_binary obj fields)%dec
  end.

Definition struct_from_binary (objtype : uatype_ref) : dec value :=
  (do objtype <-
     match objtype with
     | ByName s =>
         match ua_classes registry !! s with
         | Some k => dec_ret k
         | None => dec_raise AttributeError
         end
     | ByClass k => dec_ret k
     end ;;
   match objtype with
   | KEnum _ members =>
       do n <- unpack_int Fmt_I ;;
       if existsb (Z.eqb n) members then dec_ret (VEnum n)
       else dec_raise ValueError
   | KStruct init =>
       let obj := init in
       do obj <- fields_from_binary obj (ua_types obj) ;;
       dec_ret (VObj obj)
   end)%dec.

End Decoders.

(** The decoders with a bound on the depth of the calls. *)
Fixpoint decoders_at (registry : ua_package) (fuel : nat) : decoders :=
  match fuel with
  | O =>
      {| self_unpack_uatype := fun _ => dec_raise OutOfFuel;
         self_from_binary := fun _ => dec_raise OutOfFuel;
         self_struct_from_binary := fun _ => dec_raise OutOfFuel;
         self_variant_from_binary := dec_raise OutOfFuel;
         self_extensionobject_from_binary := dec_raise OutOfFuel |}
  | S fuel =>
      let self := decoders_at registry fuel in
      {| self_unpack_uatype := unpack_uatype registry self;
         self_from_binary := from_binary registry self;
         self_struct_from_binary := struct_from_binary registry self;
         self_variant_from_binary := variant_from_binary registry self;
         self_extensionobject_from_binary :=
           extensionobject_from_binary registry self |}
  end.

(** ** Predicates of the statements *)

(** [r] is an encoding from which [d] reads [a] back, whatever follows it
    in the buffer, leaving the cursor behind it. *)
Definition decodes_to {A} (r : res bytes) (d : dec A) (a : A) : Prop :=
  exists bs, r = Ok bs /\ forall rest, d (bs ++ rest) = (Ok a, rest).

Definition Int32_max : Z := 2147483647.

(** The values of each primitive type: an [int] within the range of the
    format, a [bool], a [str] of well-formed text, [bytes], a [datetime],
    a UUID; an absent String or ByteString is [None]. The two floating
    point formats have no value here. *)
Definition prim_ok (T : _Primitive) (v : value) : bool :=
  match T, v with
  | _Primitive1 Fmt_bool, VBool _ => true
  | _Primitive1 Fmt_bool, _ => false
  | _Primitive1 Fmt_d, _ => false
  | _Primitive1 Fmt_f, _ => false
  | _Primitive1 f, VInt z => (fmt_min f <=? z) && (z <=? fmt_max f)
  | _Null, VNone => true
  | _String, VNone => true
  | _String, VStr s =>
      str_ok s && (Z.of_nat (length (str_encode s)) <=? Int32_max)
  | _Bytes, VNone => true
  | _Bytes, VBytes b => Z.of_nat (length b) <=? Int32_max
  | _DateTime, VDateTime us => (datetime_min <=? us) && (us <=? datetime_max)
  | _Guid, VUuid i => (0 <=? i) && (i <? 2 ^ 128)
  | _, _ => false
  end.


(** The formats that carry an integer. *)
Definition fmt_is_int (f : fmt) : bool :=
  match f with
  | Fmt_bool | Fmt_d | Fmt_f => false
  | _ => true
  end.

(** The ranges of the body layouts, as the table of the specification
    gives them: what a form can hold. *)
Definition form_admits (t : ua.NodeIdType.t) (ns : Z) (id : value) : bool :=
  let u16 := (0 <=? ns) && (ns <=? 65535) in
  match t, id with
  | ua.NodeIdType.TwoByte, VInt i => (ns =? 0) && (0 <=? i) && (i <=? 255)
  | ua.NodeIdType.FourByte, VInt i =>
      (0 <=? ns) && (ns <=? 255) && (0 <=? i) && (i <=? 65535)
  | ua.NodeIdType.Numeric, VInt i => u16 && (0 <=? i) && (i <=? 4294967295)
  | ua.NodeIdType.String, VStr s =>
      u16 && (Z.of_nat (length (str_encode s)) <=? Int32_max)
  | ua.NodeIdType.Guid, VUuid _ => u16
  | ua.NodeIdType.ByteString, VBytes b =>
      u16 && (Z.of_nat (length b) <=? Int32_max)
  | _, _ => false
  end.

(** The specification's "smallest form consistent with the value's
    namespace and identifier": the lowest tag whose ranges admit them. *)
Definition spec_smallest_form (ns : Z) (id : value)
  : option ua.NodeIdType.t :=
  List.find (fun t => form_admits t ns id)
    [ua.NodeIdType.TwoByte; ua.NodeIdType.FourByte; ua.NodeIdType.Numeric;
     ua.NodeIdType.String; ua.NodeIdType.Guid; ua.NodeIdType.ByteString].

(** The encoding of [n] is in the smallest form that admits it. *)
Definition emits_smallest_form (n : NodeId) : Prop :=
  forall t,
    spec_smallest_form (NamespaceIndex n) (Identifier n) = Some t ->
    exists tl,
      nodeid_to_binary n = Ok (byte_of_Z (ua.NodeIdType.value t) :: tl).

(** A registry with one structure, [Probe], with a bitmask field and an
    optional field that bit 0 of the bitmask announces, registered as an
    extension object under the numeric NodeId 300. *)
Definition Probe_class : Object :=
  mkObject "Probe"
    [("Encoding", "Byte"); ("Value", "UInt32")]
    (Some [("Value", ("Encoding", 0%nat))])
    (list_to_map [("Encoding", VInt 0); ("Value", VNone)]).

Definition Probe_id : NodeId :=
  mkNodeId ua.NodeIdType.FourByte 0 (VInt 300) None None.

Definition ExtensionObject_class : Object :=
  mkObject "ExtensionObject"
    [("TypeId", "NodeId"); ("Encoding", "Byte"); ("Body", "ByteString")]
    (Some [("Body", ("Encoding", 0%nat))])
    (list_to_map [("TypeId", VNodeId NodeId_default); ("Encoding", VInt 0);
                  ("Body", VNone)]).

Definition sample_registry : ua_package :=
  {| ua_classes := list_to_map [("Probe", KStruct Probe_class)];
     extension_object_classes := fun typeid =>
       match NodeIdType typeid, Identifier typeid with
       | (ua.NodeIdType.FourByte | ua.NodeIdType.Numeric), VInt 300 =>
           if NamespaceIndex typeid =? 0 then Some (KStruct Probe_class)
           else None
       | _, _ => None
       end;
     extension_object_ids := list_to_map [("Probe", Probe_id)];
     ExtensionObject := ExtensionObject_class |}.

(** What the block [if Encoding & (1 << 0): ...] of
    [extensionobject_from_binary] does on a buffer [data] that holds what
    it reads: [body] is the sub-buffer it makes, [data'] the parent buffer
    after it. *)
Definition body_read (Encoding : Z) (data : Buffer)
           (body : option Buffer) (data' : Buffer) : Prop :=
  (Z.land Encoding 1 = 0 /\ body = None /\ data' = data)
  \/ (Z.land Encoding 1 <> 0
      /\ exists length d,
           unpack_int Fmt_i data = (Ok length, d)
           /\ ((length < 1 /\ body = Some [] /\ data' = d)
               \/ (1 <= length <= remaining d
                   /\ body = Some (take (Z.to_nat length) d)
                   /\ data' = drop (Z.to_nat length) d))).

(** An instance of [Probe] with the given bitmask and optional value. *)
Definition Probe_with (enc : Z) (v : value) : Object :=
  setattr (setattr Probe_class "Encoding" (VInt enc)) "Value" v.



(** [name] is the bitmask field of some switch of [obj]. *)
Definition is_container (obj : Object) (name : string) : Prop :=
  exists sw field idx,
    ua_switches obj = Some sw /\ In (field, (name, idx)) sw.

(** [v'] is [v], or [v] with more bits set. *)
Definition bits_added (v v' : value) : Prop :=
  v' = v
  \/ exists z z', py_int v = Some z /\ v' = VInt z' /\ Z.lor z z' = z'.

(** The bitmask fields that a list of switches names. *)
Definition containers_of (sw : list (string * (string * nat))) : list string :=
  map (fun item => fst (snd item)) sw.


(** [obj'] is [obj] after assignments that only add bits, and only to the
    attributes [cs]: the class and the schema are the same, no attribute
    appears or disappears, an attribute outside [cs] has its value, and an
    attribute of [cs] has its value or an [int] with more bits set. *)
Definition assigns_only (cs : list string) (obj obj' : Object) : Prop :=
  ua_class obj' = ua_class obj
  /\ ua_types obj' = ua_types obj
  /\ ua_switches obj' = ua_switches obj
  /\ forall n : string,
       match attrs obj !! n with
       | None => attrs obj' !! n = None
       | Some v =>
           exists v', attrs obj' !! n = Some v'
                      /\ bits_added v v'
                      /\ (~ In n cs -> v' = v)
       end.

(** The nested lists of the shape [dims]: at each level a list of the
    declared length. *)
Fixpoint has_shape (dims : list Z) (v : value) : Prop :=
  match dims with
  | [] => True
  | d :: subdims =>
      exists l, v = VList l /\ Z.of_nat (length l) = d
                /\ Forall (has_shape subdims) l
  end.

(** The elements at depth [depth] of nested lists, in order. *)
Fixpoint leaves (depth : nat) (v : value) : list value :=
  match depth with
  | O => [v]
  | S depth =>
      match v with
      | VList l => concat (List.map (leaves depth) l)
      | _ => [v]
      end
  end.

(** The product of the dimensions as [_reshape] computes it: the first one
    as it is, a zero among the others counted as one. *)
Definition dims_product (dims : list Z) : Z :=
  match dims with
  | [] => 1
  | d0 :: subdims => d0 * subsize_of subdims
  end.


(** The element [x] is read back by the codec of the tag [vtype]. *)
Definition elem_roundtrip (eself : encoders) (registry : ua_package)
           (dself : decoders) (vtype : ua.VariantType.t) (x : value) : Prop :=
  decodes_to (pack_uatype eself vtype x) (unpack_uatype registry dself vtype)
             x.

(** The Variant as [variant_to_binary] leaves it. *)
Definition after_encoding (var : Variant) : Variant :=
  mkVariant (Value var) (VariantType var) (Dimensions var)
            (is_array var || is_list (Value var)).

(** [variant_from_binary] reads the Variant back from what
    [variant_to_binary] returns for it. *)
Definition variant_roundtrips (eself : encoders) (registry : ua_package)
           (dself : decoders) (var : Variant) : Prop :=
  exists bs,
    variant_to_binary eself var = Ok (bs, after_encoding var)
    /\ forall rest,
         variant_from_binary registry dself (bs ++ rest)
         = (Ok (after_encoding var), rest).

Definition Int32_ok (z : Z) : Prop := - 2147483648 <= z <= Int32_max.

(** The shapes of a Variant: a scalar, an absent array, a one-dimensional
    array, and an array with dimensions whose nested value is the one that
    [_reshape] builds from its elements; in each the elements are read back
    by the codec of the tag. *)
Inductive variant_shape (eself : encoders) (registry : ua_package)
          (dself : decoders) : Variant -> Prop :=
| shape_scalar v t :
    is_list v = false ->
    elem_roundtrip eself registry dself t v ->
    variant_shape eself registry dself (mkVariant v t None false)
| shape_absent t :
    variant_shape eself registry dself (mkVariant VNone t None true)
| shape_array l t a :
    Forall (fun x => is_list x = false) l ->
    Forall (elem_roundtrip eself registry dself t) l ->
    Z.of_nat (length l) <= Int32_max ->
    variant_shape eself registry dself (mkVariant (VList l) t None a)
| shape_dimensions l t dims a :
    Forall (elem_roundtrip eself registry dself t)
           (concat (List.map flatten_list l)) ->
    Z.of_nat (length (concat (List.map flatten_list l))) <= Int32_max ->
    Forall Int32_ok dims ->
    Z.of_nat (length dims) <= Int32_max ->
    _reshape (concat (List.map flatten_list l)) dims = Ok (VList l) ->
    variant_shape eself registry dself (mkVariant (VList l) t (Some dims) a).

(** The first byte of a Variant. *)
Definition variant_encoding (t : ua.VariantType.t) (array dims : bool) : Z :=
  let encoding := Z.land (ua.VariantType.value t) 63 in
  let encoding := if array then set_bit encoding 7 else encoding in
  if dims then set_bit encoding 6 else encoding.

(** A NodeId that the encoding can carry: its namespace index and
    identifier fit the form of its [NodeIdType], a text identifier is
    well-formed, a UUID has 128 bits, and neither optional field is
    present. *)
Definition nodeid_ok (n : NodeId) : bool :=
  form_admits (NodeIdType n) (NamespaceIndex n) (Identifier n)
  && match Identifier n with
     | VStr s => str_ok s
     | VUuid i => (0 <=? i) && (i <? 2 ^ 128)
     | _ => true
     end
  && match NamespaceUri n, ServerIndex n with
     | None, None => true
     | _, _ => false
     end.

(** ** The transport header *)

(** [struct.pack] of a bytes object with the format ["<n>s"]: the value is
    cut or filled with null bytes to [n] bytes. *)
Definition pack_s (n : nat) (b : bytes) : bytes :=
  take n (b ++ repeat Byte.x00 n).

Fixpoint bytes_eqb (a b : bytes) : bool :=
  match a, b with
  | [], [] => true
  | x :: a, y :: b => Byte.eqb x y && bytes_eqb a b
  | _, _ => false
  end.

(** Modelled from the spec: the constants of [ua.MessageType] and
    [ua.ChunkType], the three ASCII bytes "HEL", "ACK", "ERR", "OPN",
    "CLO", "MSG" and the byte "F" of a single chunk. *)
Module MessageType.
Definition Hello : bytes := [Byte.x48; Byte.x45; Byte.x4c].
Definition Acknowledge : bytes := [Byte.x41; Byte.x43; Byte.x4b].
Definition Error : bytes := [Byte.x45; Byte.x52; Byte.x52].
Definition SecureOpen : bytes := [Byte.x4f; Byte.x50; Byte.x4e].
Definition SecureClose : bytes := [Byte.x43; Byte.x4c; Byte.x4f].
Definition SecureMessage : bytes := [Byte.x4d; Byte.x53; Byte.x47].
End MessageType.

Module ChunkType.
Definition Single : bytes := [Byte.x46].
End ChunkType.

(** Modelled from the spec: the class [ua.Header],
    "{ message_type: 3 bytes, chunk_type: 1 byte, packet_size: u32,
    optional channel_id: u32, body_size }". The channel id is absent until
    it is assigned. *)
Record Header := mkHeader {
  MessageType : bytes;
  ChunkType : bytes;
  ChannelId : option Z;
  body_size : Z;
  packet_size : Z
}.

(** [hdr.MessageType in (ua.MessageType.SecureOpen,
    ua.MessageType.SecureClose, ua.MessageType.SecureMessage)] *)
Definition in_secure (MessageType : bytes) : bool :=
  bytes_eqb MessageType MessageType.SecureOpen
  || bytes_eqb MessageType MessageType.SecureClose
  || bytes_eqb MessageType MessageType.SecureMessage.

Definition header_to_binary (hdr : Header) : res bytes :=
  let b0 := pack_s 3 (MessageType hdr) ++ pack_s 1 (ChunkType hdr) in
  let size := body_size hdr + 8 in
  let size := if in_secure (MessageType hdr) then size + 4 else size in
  (do b1 <- pack Primitives.UInt32 (VInt size) ;;
   do b2 <-
     (if in_secure (MessageType hdr) then
        match ChannelId hdr with
        | Some ChannelId => pack Primitives.UInt32 (VInt ChannelId)
        | None => Raise StructError
        end
      else Ok []) ;;
   Ok (b0 ++ b1 ++ b2))%res.

Definition header_from_binary : dec Header :=
  (do bs <- read 8 ;;
   let MessageType := take 3 bs in
   let ChunkType := take 1 (drop 3 bs) in
   let packet_size := int_of_le Fmt_I (drop 4 bs) in
   let body_size := packet_size - 8 in
   if in_secure MessageType then
     let body_size := body_size - 4 in
     do ChannelId <- unpack_int Fmt_I ;;
     dec_ret (mkHeader MessageType ChunkType (Some ChannelId) body_size
                       packet_size)
   else
     dec_ret (mkHeader MessageType ChunkType None body_size packet_size))%dec.

Definition uatcp_to_binary (self : encoders) (message_type : bytes)
           (message : Object) : res bytes :=
  let header := mkHeader message_type ChunkType.Single None 0 0 in
  (do r <- struct_to_binary self message ;;
   let binmsg := fst r in
   let header :=
     mkHeader (MessageType header) (ChunkType header) (ChannelId header)
              (Z.of_nat (length binmsg)) (packet_size header) in
   do h <- header_to_binary header ;;
   Ok (h ++ binmsg))%res.

(** The length of a header: the channel id is there for the secure
    message types only. *)
Definition header_length (MessageType : bytes) : Z :=
  if in_secure MessageType then 12 else 8.

Definition UInt32_max : Z := 4294967295.

(** A registry with a structure without fields, [Ping], registered as an
    extension object under the numeric NodeId 400. *)
Definition Ping_class : Object := mkObject "Ping" [] None ∅.

Definition Ping_id : NodeId :=
  mkNodeId ua.NodeIdType.FourByte 0 (VInt 400) None None.

Definition ping_registry : ua_package :=
  {| ua_classes := list_to_map [("Ping", KStruct Ping_class)];
     extension_object_classes := fun typeid =>
       match Identifier typeid with
       | VInt 400 => Some (KStruct Ping_class)
       | _ => None
       end;
     extension_object_ids := list_to_map [("Ping", Ping_id)];
     ExtensionObject := ExtensionObject_class |}.

(** ** Structures that are read back *)

(** A switch whose field is absent, or whose bit is already in its bitmask
    field: the loop over [ua_switches] leaves the object as it is. *)
Definition switch_settled (o : Object) (item : string * (string * nat))
  : Prop :=
  let '(name, (c, idx)) := item in
  exists m, attrs o !! name = Some m
    /\ (is_None m = true
        \/ exists y, attrs o !! c = Some (VInt y)
                     /\ Z.lor y (Z.shiftl 1 (Z.of_nat idx)) = y).

(** In the schema, an optional field comes after its bitmask field and is
    no list; [seen] holds the names of the fields before [fields]. *)
Fixpoint switches_follow (sw : list (string * (string * nat)))
         (seen : list string) (fields : list (string * string)) : bool :=
  match fields with
  | [] => true
  | (name, uatype) :: fields =>
      match switch_of sw name with
      | Some (c, _) =>
          existsb (String.eqb c) seen && negb (String.prefix "ListOf" uatype)
      | None => true
      end && switches_follow sw (name :: seen) fields
  end.

Definition schema_ordered (obj : Object) : bool :=
  match ua_switches obj with
  | Some sw => switches_follow sw [] (ua_types obj)
  | None => true
  end.

(** [obj] is an instance of the class whose constructor returns [init]: it
    has the schema of the class, and its attributes that are no field of
    the schema are as the constructor leaves them. *)
Definition instance_of (init obj : Object) : Prop :=
  ua_class obj = ua_class init
  /\ ua_types obj = ua_types init
  /\ ua_switches obj = ua_switches init
  /\ forall n, ~ In n (map fst (ua_types init)) ->
               attrs obj !! n = attrs init !! n.

(** Nothing is written for the field [name] of [obj], whose value is
    [val]: it is absent and behind a switch. *)
Definition field_omitted (obj : Object) (name : string) (val : value)
  : bool :=
  match ua_switches obj with
  | Some sw => is_None val && bool_decide (is_Some (switch_of sw name))
  | None => false
  end.

(** An absent optional field of [obj] has its bit clear, and is absent in
    the fresh instance [init]. *)
Definition absent_fields_clear (init obj : Object) : Prop :=
  forall sw name c idx,
    ua_switches obj = Some sw ->
    switch_of sw name = Some (c, idx) ->
    attrs obj !! name = Some VNone ->
    attrs init !! name = Some VNone
    /\ exists v z, attrs obj !! c = Some v /\ py_int v = Some z
                   /\ test_bit z (Z.of_nat idx) = 0.

(** Each field of [obj] that is written is read back by [from_binary] at
    the type of the field. *)
Definition fields_roundtrip (eself : encoders) (registry : ua_package)
           (dself : decoders) (obj : Object) : Prop :=
  forall name uatype val,
    In (name, uatype) (ua_types obj) ->
    attrs obj !! name = Some val ->
    field_omitted obj name val = false ->
    decodes_to (field_to_binary eself obj (name, uatype))
               (from_binary registry dself (ByName uatype)) val.

(** The object [o] that [struct_from_binary] is filling: it has the fields
    [seen] of [obj], and is the fresh instance [init] elsewhere. *)
Definition decoded_so_far (init obj : Object) (seen : list string)
           (o : Object) : Prop :=
  ua_class o = ua_class obj
  /\ ua_types o = ua_types obj
  /\ ua_switches o = ua_switches obj
  /\ forall n, attrs o !! n
               = if existsb (String.eqb n) seen then attrs obj !! n
                 else attrs init !! n.

(** A structure whose optional field is a list: bit 0 of [Encoding]
    announces [Items]. *)
Definition Batch_class : Object :=
  mkObject "Batch"
    [("Encoding", "Byte"); ("Items", "ListOfUInt32")]
    (Some [("Items", ("Encoding", 0%nat))])
    (list_to_map [("Encoding", VInt 0); ("Items", VNone)]).

(** * Properties *)

(** ** Bytes *)

Lemma Z_of_byte_range b : 0 <= Z_of_byte b < 256.
Proof.
  unfold Z_of_byte. pose proof (Byte.to_N_bounded b). lia.
Qed.

Lemma Z_of_byte_of_Z z : Z_of_byte (byte_of_Z z) = z mod 256.
Proof.
  unfold byte_of_Z, Z_of_byte.
  assert (Hr : 0 <= z mod 256 < 256) by (apply Z.mod_pos_bound; lia).
  destruct (Byte.of_N (Z.to_N (z mod 256))) as [b|] eqn:E.
  - apply Byte.to_of_N in E. rewrite E. lia.
  - pose proof (Byte.to_of_N_option_map (Z.to_N (z mod 256))) as H.
    rewrite E in H. simpl in H.
    destruct (N.leb_spec (Z.to_N (z mod 256)) 255); [discriminate | lia].
Qed.

Lemma byte_of_Z_of_byte b : byte_of_Z (Z_of_byte b) = b.
Proof.
  unfold byte_of_Z. rewrite Z.mod_small by apply Z_of_byte_range.
  unfold Z_of_byte. rewrite N2Z.id, Byte.of_to_N. reflexivity.
Qed.

Lemma length_le_bytes n z : length (le_bytes n z) = n.
Proof. revert z. induction n; intros; simpl; [|rewrite IHn]; reflexivity. Qed.

Lemma le_value_le_bytes n z :
  le_value (le_bytes n z) = z mod 256 ^ Z.of_nat n.
Proof.
  revert z. induction n as [|n IH]; intros z.
  - simpl. rewrite Z.mod_1_r. reflexivity.
  - cbn [le_bytes le_value]. rewrite IH, Z_of_byte_of_Z.
    rewrite Nat2Z.inj_succ, Z.pow_succ_r by lia.
    rewrite Z.rem_mul_r by lia. reflexivity.
Qed.

Lemma le_value_range bs : 0 <= le_value bs < 256 ^ Z.of_nat (length bs).
Proof.
  induction bs as [|b bs IH].
  - simpl. lia.
  - cbn [le_value length]. rewrite Nat2Z.inj_succ, Z.pow_succ_r by lia.
    pose proof (Z_of_byte_range b). lia.
Qed.

Lemma le_value_app a b :
  le_value (a ++ b) = le_value a + 256 ^ Z.of_nat (length a) * le_value b.
Proof.
  induction a as [|x a IH].
  - simpl. lia.
  - cbn [app le_value length]. rewrite IH.
    rewrite Nat2Z.inj_succ, Z.pow_succ_r by lia. ring.
Qed.

(** ** Reading from a buffer *)

Lemma read_app bs rest :
  read (Z.of_nat (length bs)) (bs ++ rest) = (Ok bs, rest).
Proof.
  unfold read, remaining.
  destruct (Z.ltb_spec (Z.of_nat (length bs)) 0); [lia|].
  rewrite length_app.
  destruct (Z.ltb_spec (Z.of_nat (length bs + length rest))
                       (Z.of_nat (length bs))); [lia|].
  rewrite Nat2Z.id, take_app_length, drop_app_length. reflexivity.
Qed.

Lemma read_app' n bs rest :
  n = Z.of_nat (length bs) -> read n (bs ++ rest) = (Ok bs, rest).
Proof. intros ->. apply read_app. Qed.

Lemma dec_bind_ok {A B} (m : dec A) (k : A -> dec B) b a b' :
  m b = (Ok a, b') -> dec_bind m k b = k a b'.
Proof. unfold dec_bind. intros ->. reflexivity. Qed.

(** ** The integer formats *)

Lemma wrap_signed h z :
  0 < h -> - h <= z < h ->
  (if h <=? z mod (2 * h) then z mod (2 * h) - 2 * h else z mod (2 * h)) = z.
Proof.
  intros Hh Hz. destruct (Z.neg_nonneg_cases z) as [Hn|Hn].
  - replace (z mod (2 * h)) with ((z + 1 * (2 * h)) mod (2 * h))
      by (apply Z.mod_add; lia).
    rewrite Z.mod_small by lia.
    destruct (Z.leb_spec h (z + 1 * (2 * h))); lia.
  - rewrite Z.mod_small by lia. destruct (Z.leb_spec h z); lia.
Qed.

Lemma int_of_le_le_bytes f z :
  fmt_is_int f = true -> fmt_min f <= z <= fmt_max f ->
  int_of_le f (le_bytes (fmt_size f) z) = z.
Proof.
  intros Hf Hz. unfold int_of_le. rewrite le_value_le_bytes.
  destruct f; try discriminate Hf;
    unfold fmt_min, fmt_max, fmt_bits in *; cbn in Hz |- *;
    try (rewrite Z.mod_small by lia; reflexivity).
  - apply (wrap_signed 128); lia.
  - apply (wrap_signed 32768); lia.
  - apply (wrap_signed 2147483648); lia.
  - apply (wrap_signed 9223372036854775808); lia.
Qed.

Lemma struct_pack1_int f z :
  fmt_is_int f = true -> fmt_min f <= z <= fmt_max f ->
  struct_pack1 f (VInt z) = Ok (le_bytes (fmt_size f) z).
Proof.
  intros Hf Hz. unfold struct_pack1. cbn [py_int].
  destruct (Z.leb_spec (fmt_min f) z); [|lia].
  destruct (Z.leb_spec z (fmt_max f)); [|lia].
  destruct f; try discriminate Hf; reflexivity.
Qed.

Lemma _Primitive1_unpack_app f bs rest :
  length bs = fmt_size f ->
  _Primitive1_unpack f (bs ++ rest) = (struct_unpack1 f bs, rest).
Proof.
  intros Hl. unfold _Primitive1_unpack.
  rewrite (dec_bind_ok _ _ _ bs rest) by (apply read_app'; lia).
  reflexivity.
Qed.

Lemma unpack_int_app f bs rest :
  fmt_is_int f = true -> length bs = fmt_size f ->
  unpack_int f (bs ++ rest) = (Ok (int_of_le f bs), rest).
Proof.
  intros Hf Hl. unfold unpack_int.
  rewrite (dec_bind_ok _ _ _ (VInt (int_of_le f bs)) rest); [reflexivity|].
  rewrite _Primitive1_unpack_app by assumption.
  unfold struct_unpack1. rewrite Hl, Nat.eqb_refl.
  destruct f; try discriminate Hf; reflexivity.
Qed.

Lemma unpack_int_le_bytes f z rest :
  fmt_is_int f = true -> fmt_min f <= z <= fmt_max f ->
  unpack_int f (le_bytes (fmt_size f) z ++ rest) = (Ok z, rest).
Proof.
  intros Hf Hz. rewrite unpack_int_app by (auto using length_le_bytes).
  rewrite int_of_le_le_bytes by assumption. reflexivity.
Qed.

(** The length prefix. *)
Lemma Int32_pack z :
  - 2147483648 <= z <= Int32_max ->
  pack Primitives.Int32 (VInt z) = Ok (le_bytes 4 z).
Proof.
  intros Hz. apply (struct_pack1_int Fmt_i); [reflexivity|].
  unfold Int32_max in Hz. unfold fmt_min, fmt_max, fmt_bits. cbn. lia.
Qed.

Lemma Int32_unpack z rest :
  - 2147483648 <= z <= Int32_max ->
  unpack_int Fmt_i (le_bytes 4 z ++ rest) = (Ok z, rest).
Proof.
  intros Hz. apply (unpack_int_le_bytes Fmt_i); [reflexivity|].
  unfold Int32_max in Hz. unfold fmt_min, fmt_max, fmt_bits. cbn. lia.
Qed.

(** ** Scalars of the primitive types *)

Lemma _Primitive1_roundtrip f v :
  prim_ok (_Primitive1 f) v = true ->
  decodes_to (pack (_Primitive1 f) v) (unpack (_Primitive1 f)) v.
Proof.
  intros Hv. unfold decodes_to. cbn [pack unpack].
  destruct (fmt_is_int f) eqn:Hf.
  - assert (exists z, v = VInt z /\ fmt_min f <= z <= fmt_max f)
      as (z & -> & Hz).
    { destruct f; try discriminate Hf; destruct v; try discriminate Hv;
        cbn [prim_ok] in Hv; apply andb_prop in Hv as [H1 H2];
        apply Z.leb_le in H1, H2; eexists; (split; [reflexivity | lia]). }
    exists (le_bytes (fmt_size f) z). split.
    + apply struct_pack1_int; assumption.
    + intros rest. rewrite _Primitive1_unpack_app by apply length_le_bytes.
      unfold struct_unpack1. rewrite length_le_bytes, Nat.eqb_refl. cbn [negb].
      rewrite int_of_le_le_bytes by assumption.
      destruct f; try discriminate Hf; reflexivity.
  - destruct f; try discriminate Hf; try discriminate Hv.
    destruct v as [|b| | | | | | | | | |]; try discriminate Hv.
    exists [byte_of_Z (if b then 1 else 0)]. split; [reflexivity|].
    intros rest. rewrite _Primitive1_unpack_app by reflexivity.
    destruct b; reflexivity.
Qed.

Lemma _Bytes_roundtrip_bytes b :
  Z.of_nat (length b) <= Int32_max ->
  decodes_to (_String_pack (VBytes b)) _Bytes_unpack (VBytes b).
Proof.
  intros Hl. exists (le_bytes 4 (Z.of_nat (length b)) ++ b). split.
  - cbn [_String_pack].
    rewrite (struct_pack1_int Fmt_i); [reflexivity | reflexivity |].
    unfold Int32_max in Hl. unfold fmt_min, fmt_max, fmt_bits. cbn. lia.
  - intros rest. unfold _Bytes_unpack. rewrite <- app_assoc.
    rewrite (dec_bind_ok _ _ _ (Z.of_nat (length b)) (b ++ rest))
      by (apply Int32_unpack; lia).
    destruct (Z.eqb_spec (Z.of_nat (length b)) (-1)); [lia|].
    rewrite (dec_bind_ok _ _ _ b rest) by apply read_app.
    reflexivity.
Qed.

Lemma _String_pack_None : _String_pack VNone = Ok absent_marker.
Proof. reflexivity. Qed.

Lemma absent_marker_eq : absent_marker = le_bytes 4 (-1).
Proof. reflexivity. Qed.

Lemma _Bytes_unpack_absent rest :
  _Bytes_unpack (absent_marker ++ rest) = (Ok VNone, rest).
Proof.
  unfold _Bytes_unpack. rewrite absent_marker_eq.
  rewrite (dec_bind_ok _ _ _ (-1) rest); [reflexivity|].
  apply Int32_unpack. unfold Int32_max. lia.
Qed.

Lemma bytes_decode_encode s :
  str_ok s = true -> bytes_decode (str_encode s) = Ok s.
Proof.
  unfold str_ok, bytes_decode. intros ->. unfold str_encode.
  rewrite String.string_of_list_byte_of_string. reflexivity.
Qed.

(** The mixed-endian layout of a Guid. *)

Lemma le_bytes_add a b z :
  le_bytes (a + b) z = le_bytes a z ++ le_bytes b (z / 256 ^ Z.of_nat a).
Proof.
  revert z. induction a as [|a IH]; intros z.
  - simpl. rewrite Z.div_1_r. reflexivity.
  - cbn [Nat.add le_bytes app]. rewrite IH. f_equal. f_equal. f_equal.
    rewrite Nat2Z.inj_succ, Z.pow_succ_r by lia.
    rewrite Z.div_div by lia. reflexivity.
Qed.

Lemma length_be_bytes n z : length (be_bytes n z) = n.
Proof. unfold be_bytes. rewrite length_rev. apply length_le_bytes. Qed.

Lemma be_value_be_bytes n z : be_value (be_bytes n z) = z mod 256 ^ Z.of_nat n.
Proof. unfold be_value, be_bytes. rewrite rev_involutive. apply le_value_le_bytes. Qed.

Lemma be_value_app a b :
  be_value (a ++ b) = be_value a * 256 ^ Z.of_nat (length b) + be_value b.
Proof.
  unfold be_value. rewrite rev_app_distr, le_value_app, length_rev. lia.
Qed.

Lemma be_bytes_add a b z :
  be_bytes (a + b) z = be_bytes b (z / 256 ^ Z.of_nat a) ++ be_bytes a z.
Proof. unfold be_bytes. rewrite le_bytes_add, rev_app_distr. reflexivity. Qed.

Lemma _Guid_roundtrip i :
  0 <= i < 2 ^ 128 ->
  decodes_to (_Guid_pack (VUuid i)) _Guid_unpack (VUuid i).
Proof.
  intros Hi. unfold _Guid_pack.
  change 4294967295 with (Z.ones 32). change 65535 with (Z.ones 16).
  change 255 with (Z.ones 8). change 281474976710655 with (Z.ones 48).
  rewrite !Z.land_ones, !Z.shiftr_div_pow2 by lia.
  set (tl := (i / 2 ^ 96) mod 2 ^ 32). set (tm := (i / 2 ^ 80) mod 2 ^ 16).
  set (th := (i / 2 ^ 64) mod 2 ^ 16). set (chv := (i / 2 ^ 56) mod 2 ^ 8).
  set (csl := (i / 2 ^ 48) mod 2 ^ 8). set (node := i mod 2 ^ 48).
  assert (Htl : 0 <= tl < 2 ^ 32) by (apply Z.mod_pos_bound; lia).
  assert (Htm : 0 <= tm < 2 ^ 16) by (apply Z.mod_pos_bound; lia).
  assert (Hth : 0 <= th < 2 ^ 16) by (apply Z.mod_pos_bound; lia).
  assert (Hchv : 0 <= chv < 2 ^ 8) by (apply Z.mod_pos_bound; lia).
  assert (Hcsl : 0 <= csl < 2 ^ 8) by (apply Z.mod_pos_bound; lia).
  assert (Hnode : 0 <= node < 2 ^ 48) by (apply Z.mod_pos_bound; lia).
  rewrite (struct_pack1_int Fmt_I tl), (struct_pack1_int Fmt_H tm),
    (struct_pack1_int Fmt_H th), (struct_pack1_int Fmt_B chv),
    (struct_pack1_int Fmt_B csl)
    by (try reflexivity; unfold fmt_min, fmt_max, fmt_bits; cbn; lia).
  cbn [res_bind fmt_size].
  eexists. split; [reflexivity|]. intros rest.
  unfold _Guid_unpack. rewrite <- !app_assoc.
  rewrite (dec_bind_ok _ _ _ tl _)
    by (apply (unpack_int_le_bytes Fmt_I);
        [reflexivity | unfold fmt_min, fmt_max, fmt_bits; cbn; lia]).
  rewrite (dec_bind_ok _ _ _ tm _)
    by (apply (unpack_int_le_bytes Fmt_H);
        [reflexivity | unfold fmt_min, fmt_max, fmt_bits; cbn; lia]).
  rewrite (dec_bind_ok _ _ _ th _)
    by (apply (unpack_int_le_bytes Fmt_H);
        [reflexivity | unfold fmt_min, fmt_max, fmt_bits; cbn; lia]).
  change (be_bytes 8 node) with (be_bytes (6 + 2) node).
  rewrite (be_bytes_add 6 2 node).
  rewrite drop_app_length' by (rewrite length_be_bytes; reflexivity).
  change (le_bytes 1 chv) with (be_bytes 1 chv).
  change (le_bytes 1 csl) with (be_bytes 1 csl).
  rewrite (dec_bind_ok _ _ _ (be_bytes 1 chv ++ be_bytes 1 csl
                               ++ be_bytes 6 node) rest).
  2:{ rewrite !app_assoc. rewrite <- (app_assoc (be_bytes 1 chv)).
      apply read_app'. rewrite !length_app, !length_be_bytes. reflexivity. }
  unfold dec_ret. do 3 f_equal.
  rewrite !be_value_app, !be_value_be_bytes, !length_app, !length_be_bytes.
  subst tl tm th chv csl node.
  change (Z.of_nat (1 + (1 + 6))) with 8. 
  Z.div_mod_to_equations. lia.
Qed.

Lemma prim_roundtrip T v :
  prim_ok T v = true -> decodes_to (pack T v) (unpack T) v.
Proof.
  intros Hv. destruct T.
  - apply _Primitive1_roundtrip, Hv.
  - destruct v; try discriminate Hv. exists []. split; reflexivity.
  - destruct v as [| | |s| | | | | | | |]; try discriminate Hv.
    + exists absent_marker. split; [reflexivity|].
      intros rest. cbn [unpack]. unfold _String_unpack.
      rewrite (dec_bind_ok _ _ _ _ _ (_Bytes_unpack_absent rest)).
      reflexivity.
    + cbn in Hv. apply andb_prop in Hv as [Hs Hl].
      apply Z.leb_le in Hl.
      destruct (_Bytes_roundtrip_bytes (str_encode s) Hl) as (bs & Hp & Hu).
      exists bs. split; [exact Hp|].
      intros rest. cbn [unpack]. unfold _String_unpack.
      rewrite (dec_bind_ok _ _ _ _ _ (Hu rest)). unfold dec_lift.
      rewrite bytes_decode_encode by assumption. reflexivity.
  - destruct v as [| | | |b| | | | | | |]; try discriminate Hv.
    + exists absent_marker. split; [reflexivity|].
      intros rest. apply _Bytes_unpack_absent.
    + cbn in Hv. apply Z.leb_le in Hv.
      apply _Bytes_roundtrip_bytes, Hv.
  - destruct v as [| | | | |us| | | | | |]; try discriminate Hv.
    cbn in Hv. apply andb_prop in Hv as [H1 H2].
    apply Z.leb_le in H1, H2. unfold datetime_min, datetime_max in *.
    exists (le_bytes 8 (10 * us)). split.
    + cbn [pack datetime_to_win_epoch res_bind].
      apply (struct_pack1_int Fmt_q); [reflexivity|].
      unfold fmt_min, fmt_max, fmt_bits. cbn. lia.
    + intros rest. cbn [unpack].
      rewrite (dec_bind_ok _ _ _ (10 * us) rest).
      * unfold dec_lift, win_epoch_to_datetime.
        replace (10 * us / 10) with us
          by (symmetry; rewrite Z.mul_comm; apply Z.div_mul; lia).
        unfold datetime_min, datetime_max.
        destruct (Z.leb_spec (- (584388 * 86400 * 1000000)) us); [|lia].
        destruct (Z.leb_spec us (3067671 * 86400 * 1000000 - 1)); [|lia].
        reflexivity.
      * apply (unpack_int_le_bytes Fmt_q); [reflexivity|].
        unfold fmt_min, fmt_max, fmt_bits. cbn. lia.
  - destruct v as [| | | | | |i| | | | |]; try discriminate Hv.
    cbn in Hv. apply andb_prop in Hv as [H1 H2].
    apply Z.leb_le in H1. apply Z.ltb_lt in H2.
    apply _Guid_roundtrip. lia.
Qed.

(** ** Arrays *)


(** Elements that are encoded one after the other are read back one after
    the other. *)
Lemma dec_repeat_res_map (enc : value -> res bytes) (d : dec value) l :
  (forall x, In x l -> decodes_to (enc x) d x) ->
  exists bs,
    res_map enc l = Ok bs /\
    forall rest, dec_repeat (length l) d (concat bs ++ rest) = (Ok l, rest).
Proof.
  induction l as [|x l IH]; intros H.
  - exists []. split; reflexivity.
  - destruct (H x) as (b & Hb & Hd); [left; reflexivity|].
    destruct IH as (bs & Hbs & Hds); [intros; apply H; right; assumption|].
    exists (b :: bs). cbn [res_map]. rewrite Hb, Hbs. split; [reflexivity|].
    intros rest. cbn [concat length dec_repeat]. rewrite <- app_assoc.
    rewrite (dec_bind_ok _ _ _ _ _ (Hd _)).
    rewrite (dec_bind_ok _ _ _ _ _ (Hds _)). reflexivity.
Qed.



Lemma unpack_array_absent T rest :
  unpack_array T (absent_marker ++ rest) = (Ok VNone, rest).
Proof.
  unfold unpack_array. rewrite absent_marker_eq.
  rewrite (dec_bind_ok _ _ _ (-1) rest); [reflexivity|].
  apply Int32_unpack. unfold Int32_max. lia.
Qed.



(** ** NodeId *)

Lemma struct_pack1_B_inv t b :
  struct_pack1 Fmt_B (VInt t) = Ok b -> b = [byte_of_Z t].
Proof.
  unfold struct_pack1. cbn [py_int].
  destruct (_ && _); intros H; inversion H. reflexivity.
Qed.

Lemma struct_pack_tag fs vs t bs :
  struct_pack (Fmt_B :: fs) (VInt t :: vs) = Ok bs ->
  exists tl, bs = byte_of_Z t :: tl.
Proof.
  cbn [struct_pack].
  destruct (struct_pack1 Fmt_B (VInt t)) as [b|] eqn:E; cbn [res_bind];
    [|discriminate].
  apply struct_pack1_B_inv in E as ->.
  destruct (struct_pack fs vs); cbn [res_bind]; intros H; inversion H.
  eexists. reflexivity.
Qed.

(** Whatever [nodeid_to_binary] returns starts with the tag of the
    [NodeIdType] attribute, without flags. *)
Lemma nodeid_to_binary_tag n bs :
  nodeid_to_binary n = Ok bs ->
  exists tl, bs = byte_of_Z (ua.NodeIdType.value (NodeIdType n)) :: tl.
Proof.
  unfold nodeid_to_binary.
  destruct (NodeIdType n); try apply struct_pack_tag.
  all: destruct (struct_pack _ _) as [h|] eqn:E; cbn [res_bind];
    [|discriminate];
    apply struct_pack_tag in E as (tl & ->);
    destruct (pack _ _); cbn [res_bind]; intros H; inversion H;
    eexists; reflexivity.
Qed.

Lemma _Guid_pack_ok i : exists bs, _Guid_pack (VUuid i) = Ok bs.
Proof.
  unfold _Guid_pack.
  change 4294967295 with (Z.ones 32). change 65535 with (Z.ones 16).
  change 255 with (Z.ones 8).
  rewrite !Z.land_ones by lia.
  rewrite (struct_pack1_int Fmt_I), !(struct_pack1_int Fmt_H),
    !(struct_pack1_int Fmt_B)
    by (try reflexivity; unfold fmt_min, fmt_max, fmt_bits; cbn;
        match goal with
        | |- _ <= ?a mod ?m <= _ =>
            pose proof (Z.mod_pos_bound a m ltac:(lia)); lia
        end).
  cbn [res_bind]. eexists. reflexivity.
Qed.

Lemma _String_pack_ok v :
  match v with
  | VStr s => Z.of_nat (length (str_encode s)) <= Int32_max
  | VBytes b => Z.of_nat (length b) <= Int32_max
  | _ => False
  end ->
  exists bs, _String_pack v = Ok bs.
Proof.
  destruct v; try contradiction; intros H; cbn [_String_pack];
    rewrite (struct_pack1_int Fmt_i)
      by (try reflexivity; unfold Int32_max in H;
          unfold fmt_min, fmt_max, fmt_bits; cbn; lia);
    eexists; reflexivity.
Qed.

Lemma nodeid_to_binary_ok n :
  form_admits (NodeIdType n) (NamespaceIndex n) (Identifier n) = true ->
  exists bs, nodeid_to_binary n = Ok bs.
Proof.
  unfold nodeid_to_binary, form_admits.
  destruct (NodeIdType n), (Identifier n) as [| |i|s|b| |u| | | | |];
    try discriminate; intros H;
    repeat match type of H with
      | _ && _ = true => apply andb_prop in H as [H ?]
      end;
    repeat match goal with
      | H : (_ <=? _) = true |- _ => apply Z.leb_le in H
      | H : (_ =? _) = true |- _ => apply Z.eqb_eq in H
      end;
    cbn [struct_pack ua.NodeIdType.value pack Primitives.String
         Primitives.Bytes Primitives.Guid].
  - rewrite !(struct_pack1_int Fmt_B)
      by (try reflexivity; unfold fmt_min, fmt_max, fmt_bits; cbn; lia).
    eexists. reflexivity.
  - rewrite !(struct_pack1_int Fmt_B), (struct_pack1_int Fmt_H)
      by (try reflexivity; unfold fmt_min, fmt_max, fmt_bits; cbn; lia).
    eexists. reflexivity.
  - rewrite (struct_pack1_int Fmt_B), (struct_pack1_int Fmt_H),
      (struct_pack1_int Fmt_I)
      by (try reflexivity; unfold fmt_min, fmt_max, fmt_bits; cbn; lia).
    eexists. reflexivity.
  - rewrite (struct_pack1_int Fmt_B), (struct_pack1_int Fmt_H)
      by (try reflexivity; unfold fmt_min, fmt_max, fmt_bits; cbn; lia).
    destruct (_String_pack_ok (VStr s)) as (bs & ->); [assumption|].
    eexists. reflexivity.
  - rewrite (struct_pack1_int Fmt_B), (struct_pack1_int Fmt_H)
      by (try reflexivity; unfold fmt_min, fmt_max, fmt_bits; cbn; lia).
    destruct (_Guid_pack_ok u) as (bs & ->).
    eexists. reflexivity.
  - rewrite (struct_pack1_int Fmt_B), (struct_pack1_int Fmt_H)
      by (try reflexivity; unfold fmt_min, fmt_max, fmt_bits; cbn; lia).
    destruct (_String_pack_ok (VBytes b)) as (bs & ->); [assumption|].
    eexists. reflexivity.
Qed.

(** C6, as the code has it. [nodeid_to_binary] does not choose a form: for
    every NodeId whose namespace index and identifier fit the form that its
    [NodeIdType] attribute names, it returns an encoding in that form,
    whether or not a smaller form admits the value. *)
Theorem nodeid_to_binary_emits_NodeIdType (n : NodeId) :
  form_admits (NodeIdType n) (NamespaceIndex n) (Identifier n) = true ->
  exists tl,
    nodeid_to_binary n
    = Ok (byte_of_Z (ua.NodeIdType.value (NodeIdType n)) :: tl).
Proof.
  intros H. destruct (nodeid_to_binary_ok n H) as (bs & Hbs).
  destruct (nodeid_to_binary_tag n bs Hbs) as (tl & ->).
  exists tl. exact Hbs.
Qed.

(** Namespace 0 and identifier 72 fit the Numeric form, and the Numeric
    form is emitted. *)
Lemma nodeid_to_binary_emits_NodeIdType_witness :
  form_admits ua.NodeIdType.Numeric 0 (VInt 72) = true
  /\ exists tl,
       nodeid_to_binary (mkNodeId ua.NodeIdType.Numeric 0 (VInt 72) None None)
       = Ok (Byte.x02 :: tl).
Proof.
  split; [reflexivity|].
  apply (nodeid_to_binary_emits_NodeIdType
           (mkNodeId ua.NodeIdType.Numeric 0 (VInt 72) None None)).
  reflexivity.
Defined.

(** C6, refuted as stated. Namespace 0 and identifier 72 are admitted by
    the TwoByte form, and a NodeId that holds them with the Numeric type is
    encoded in the seven bytes of the Numeric form. *)
Lemma nodeid_to_binary_not_smallest_form :
  ~ emits_smallest_form
      (mkNodeId ua.NodeIdType.Numeric 0 (VInt 72) None None).
Proof.
  intros H. destruct (H ua.NodeIdType.TwoByte) as (tl & Htl).
  - reflexivity.
  - vm_compute in Htl. discriminate Htl.
Qed.

(** C3, at a NodeId with both optional fields. The encoding is that of the
    NodeId without them: the leading byte has bits 7 and 6 clear and
    nothing follows the body, so that the decoder returns a NodeId with
    neither field. The decoder itself reads both fields when the flags are
    set. *)
Theorem nodeid_to_binary_omits_NamespaceUri :
  let n := mkNodeId ua.NodeIdType.TwoByte 0 (VInt 72)
                    (Some "urn:x") (Some 5) in
  nodeid_to_binary n = Ok [Byte.x00; Byte.x48]
  /\ nodeid_from_binary [Byte.x00; Byte.x48]
     = (Ok (mkNodeId ua.NodeIdType.TwoByte 0 (VInt 72) None None), [])
  /\ nodeid_from_binary
       [Byte.xc0; Byte.x48;
        Byte.x05; Byte.x00; Byte.x00; Byte.x00;
        Byte.x75; Byte.x72; Byte.x6e; Byte.x3a; Byte.x78;
        Byte.x05; Byte.x00; Byte.x00; Byte.x00]
     = (Ok n, []).
Proof. repeat split. Qed.

(** The optional fields never reach the output. *)
Lemma nodeid_to_binary_ignores_optional_fields (n : NodeId) uri srv :
  nodeid_to_binary
    (mkNodeId (NodeIdType n) (NamespaceIndex n) (Identifier n) uri srv)
  = nodeid_to_binary n.
Proof. destruct n as [[] ns id u s]; reflexivity. Qed.

(** ** ExtensionObject *)

Lemma copy_skip length d :
  1 <= length <= remaining d ->
  (do body <- copy length ;; do _ <- skip length ;; dec_ret (Some body))%dec d
  = (Ok (Some (take (Z.to_nat length) d)), drop (Z.to_nat length) d).
Proof.
  intros H. unfold dec_bind, copy, skip, dec_ret.
  destruct (Z.ltb_spec length 0); [lia|].
  destruct (Z.ltb_spec (remaining d) length); [lia|]. reflexivity.
Qed.

(** The decoder after its header: the type id, the encoding byte and the
    body block. What remains is the decision on the type id. *)
Lemma extensionobject_from_binary_steps registry self data typeid data1 e
      data2 body data3 :
  nodeid_from_binary data = (Ok typeid, data1) ->
  read 1 data1 = (Ok e, data2) ->
  body_read (ord e) data2 body data3 ->
  extensionobject_from_binary registry self data
  = (if Identifier_is_0 typeid then dec_ret VNone
     else
       match extension_object_classes registry typeid with
       | Some klass =>
           match body with
           | None => dec_raise UaError
           | Some body =>
               on_buffer body (self_from_binary self (ByClass klass))
           end
       | None =>
           let e0 := ExtensionObject registry in
           let e0 := setattr e0 "TypeId" (VNodeId typeid) in
           let e0 := setattr e0 "Encoding" (VInt (ord e)) in
           let e0 :=
             match body with
             | Some body => setattr e0 "Body" (VBytes body)
             | None => e0
             end in
           dec_ret (VObj e0)
       end) data3.
Proof.
  intros Hid He Hb. unfold extensionobject_from_binary.
  rewrite (dec_bind_ok _ _ _ _ _ Hid), (dec_bind_ok _ _ _ _ _ He).
  change (Z.shiftl 1 0) with 1.
  destruct Hb as [(Hbit & -> & ->) | (Hbit & length & d & Hl & Hb)].
  - rewrite Hbit. reflexivity.
  - destruct (Z.eqb_spec (Z.land (ord e) 1) 0); [contradiction|].
    cbn [negb].
    erewrite dec_bind_ok; [reflexivity|].
    rewrite (dec_bind_ok _ _ _ _ _ Hl).
    destruct Hb as [(Hlt & -> & ->) | (Hge & -> & ->)].
    + destruct (Z.ltb_spec length 1); [reflexivity | lia].
    + destruct (Z.ltb_spec length 1); [lia|]. apply copy_skip, Hge.
Qed.

(** C8. The absent sentinel is encoded as the three bytes [00 00 00], and
    an input whose type id has the identifier 0 is decoded to the absent
    sentinel whatever its encoding byte is: with bit 0 clear, or with bit 0
    set and a body, which is passed over. *)
Theorem extensionobject_null registry eself dself data typeid data1 e data2
        body data3 :
  nodeid_from_binary data = (Ok typeid, data1) ->
  Identifier_is_0 typeid = true ->
  read 1 data1 = (Ok e, data2) ->
  body_read (ord e) data2 body data3 ->
  extensionobject_to_binary registry eself VNone
  = Ok [Byte.x00; Byte.x00; Byte.x00]
  /\ extensionobject_from_binary registry dself data = (Ok VNone, data3).
Proof.
  intros Hid H0 He Hb. split; [reflexivity|].
  rewrite (extensionobject_from_binary_steps _ _ _ _ _ _ _ _ _ Hid He Hb).
  rewrite H0. reflexivity.
Qed.

(** The null type id followed by the encoding byte 1 and a body of two
    bytes: the result is the absent sentinel and the cursor is behind the
    body. *)
Lemma extensionobject_null_witness :
  extensionobject_to_binary sample_registry (encoders_at sample_registry 2)
                            VNone
  = Ok [Byte.x00; Byte.x00; Byte.x00]
  /\ extensionobject_from_binary sample_registry
       (decoders_at sample_registry 2)
       [Byte.x00; Byte.x00; Byte.x01;
        Byte.x02; Byte.x00; Byte.x00; Byte.x00; Byte.xaa; Byte.xbb; Byte.xcc]
     = (Ok VNone, [Byte.xcc]).
Proof.
  apply (extensionobject_null sample_registry _ _ _
           NodeId_default
           [Byte.x01; Byte.x02; Byte.x00; Byte.x00; Byte.x00;
            Byte.xaa; Byte.xbb; Byte.xcc]
           [Byte.x01]
           [Byte.x02; Byte.x00; Byte.x00; Byte.x00;
            Byte.xaa; Byte.xbb; Byte.xcc]
           (Some [Byte.xaa; Byte.xbb])).
  - reflexivity.
  - reflexivity.
  - reflexivity.
  - right. split; [discriminate|].
    exists 2, [Byte.xaa; Byte.xbb; Byte.xcc].
    split; [reflexivity|]. right. repeat split; vm_compute; discriminate.
Defined.

(** C7. For an input whose type id is registered (and is not the null
    identifier, which is decided first): when the encoding byte has bit 0
    clear there is no body and the decoder raises [UaError]; when it has
    bit 0 set and the declared length is within the buffer, the result is
    that of decoding the registered class from a sub-buffer of exactly the
    declared length, and the cursor of the parent is exactly behind the
    declared length, whatever the inner decoder is and whatever it does. *)
Theorem extensionobject_registered registry self data typeid klass data1 e
        data2 :
  nodeid_from_binary data = (Ok typeid, data1) ->
  Identifier_is_0 typeid = false ->
  extension_object_classes registry typeid = Some klass ->
  read 1 data1 = (Ok e, data2) ->
  (Z.land (ord e) 1 = 0 ->
   extensionobject_from_binary registry self data = (Raise UaError, data2))
  /\ (forall length d,
        Z.land (ord e) 1 <> 0 ->
        unpack_int Fmt_i data2 = (Ok length, d) ->
        0 <= length <= remaining d ->
        extensionobject_from_binary registry self data
        = (fst (self_from_binary self (ByClass klass)
                  (take (Z.to_nat length) d)),
           drop (Z.to_nat length) d)).
Proof.
  intros Hid H0 Hk He. split.
  - intros Hbit.
    rewrite (extensionobject_from_binary_steps _ _ _ _ _ _ _ None data2
               Hid He) by (left; auto).
    rewrite H0, Hk. reflexivity.
  - intros length d Hbit Hl Hr.
    rewrite (extensionobject_from_binary_steps _ _ _ _ _ _ _
               (Some (take (Z.to_nat length) d)) (drop (Z.to_nat length) d)
               Hid He).
    + rewrite H0, Hk. reflexivity.
    + right. split; [assumption|]. exists length, d. split; [assumption|].
      destruct (Z.eq_dec length 0) as [->|]; [left | right; repeat split; lia].
      repeat split; lia.
Qed.

(** The registered type id 300: without a body the decoder raises; with a
    body of five bytes, the class is decoded from these five bytes and the
    cursor is behind them. *)
Lemma extensionobject_registered_witness :
  extensionobject_from_binary sample_registry (decoders_at sample_registry 4)
    [Byte.x01; Byte.x00; Byte.x2c; Byte.x01; Byte.x00; Byte.xcc]
  = (Raise UaError, [Byte.xcc])
  /\ extensionobject_from_binary sample_registry
       (decoders_at sample_registry 4)
       [Byte.x01; Byte.x00; Byte.x2c; Byte.x01; Byte.x01;
        Byte.x05; Byte.x00; Byte.x00; Byte.x00;
        Byte.x01; Byte.x07; Byte.x00; Byte.x00; Byte.x00; Byte.xcc]
     = (Ok (VObj (setattr (setattr Probe_class "Encoding" (VInt 1))
                          "Value" (VInt 7))),
        [Byte.xcc]).
Proof.
  split.
  - apply (extensionobject_registered sample_registry
             (decoders_at sample_registry 4)
             [Byte.x01; Byte.x00; Byte.x2c; Byte.x01; Byte.x00; Byte.xcc]
             Probe_id (KStruct Probe_class)
             [Byte.x00; Byte.xcc] [Byte.x00] [Byte.xcc]);
      reflexivity.
  - refine (proj2 (extensionobject_registered sample_registry
             (decoders_at sample_registry 4)
             [Byte.x01; Byte.x00; Byte.x2c; Byte.x01; Byte.x01;
              Byte.x05; Byte.x00; Byte.x00; Byte.x00;
              Byte.x01; Byte.x07; Byte.x00; Byte.x00; Byte.x00; Byte.xcc]
             Probe_id (KStruct Probe_class)
             [Byte.x01; Byte.x05; Byte.x00; Byte.x00; Byte.x00;
              Byte.x01; Byte.x07; Byte.x00; Byte.x00; Byte.x00; Byte.xcc]
             [Byte.x01]
             [Byte.x05; Byte.x00; Byte.x00; Byte.x00;
              Byte.x01; Byte.x07; Byte.x00; Byte.x00; Byte.x00; Byte.xcc]
             eq_refl eq_refl eq_refl eq_refl)
             5 [Byte.x01; Byte.x07; Byte.x00; Byte.x00; Byte.x00; Byte.xcc]
             _ eq_refl _).
    + discriminate.
    + vm_compute. split; discriminate.
Defined.

(** C10. For an input whose encoding byte has bit 0 set and whose declared
    body length is below 1, the body is an empty sub-buffer, not an absent
    one: for a registered type id the decoder does not raise the
    missing-body [UaError]; its result is that of decoding the registered
    class from zero bytes, and the cursor of the parent stays behind the
    length. *)
Theorem extensionobject_empty_body registry self data typeid klass data1 e
        data2 length d :
  nodeid_from_binary data = (Ok typeid, data1) ->
  Identifier_is_0 typeid = false ->
  extension_object_classes registry typeid = Some klass ->
  read 1 data1 = (Ok e, data2) ->
  Z.land (ord e) 1 <> 0 ->
  unpack_int Fmt_i data2 = (Ok length, d) ->
  length < 1 ->
  extensionobject_from_binary registry self data
  = (fst (self_from_binary self (ByClass klass) []), d).
Proof.
  intros Hid H0 Hk He Hbit Hl Hlt.
  rewrite (extensionobject_from_binary_steps _ _ _ _ _ _ _ (Some []) d
             Hid He).
  - rewrite H0, Hk. reflexivity.
  - right. split; [assumption|]. exists length, d. split; [assumption|].
    left. auto.
Qed.

(** The registered type id 300 with the absent marker -1 as its length:
    the class is decoded from zero bytes, which fails on its first field
    with an underflow and not with the missing-body error. *)
Lemma extensionobject_empty_body_witness :
  extensionobject_from_binary sample_registry (decoders_at sample_registry 4)
    [Byte.x01; Byte.x00; Byte.x2c; Byte.x01; Byte.x01;
     Byte.xff; Byte.xff; Byte.xff; Byte.xff; Byte.xcc]
  = (Raise NotEnoughData, [Byte.xcc]).
Proof.
  apply (extensionobject_empty_body sample_registry
           (decoders_at sample_registry 4)
           [Byte.x01; Byte.x00; Byte.x2c; Byte.x01; Byte.x01;
            Byte.xff; Byte.xff; Byte.xff; Byte.xff; Byte.xcc]
           Probe_id (KStruct Probe_class)
           [Byte.x01; Byte.xff; Byte.xff; Byte.xff; Byte.xff; Byte.xcc]
           [Byte.x01]
           [Byte.xff; Byte.xff; Byte.xff; Byte.xff; Byte.xcc]
           (-1) [Byte.xcc]);
    try reflexivity.
  - discriminate.
Defined.

(** ** Structures with optional fields *)

(** C2, at an instance whose optional field is absent and whose bitmask
    still has the controlling bit, as an earlier encoding of the same
    object leaves it. The encoder sets the bit of a present field (third
    line) and does not clear the bit of an absent one (first line): the
    output is [01], not the [00] that the same value with the bit clear
    gives (second line), and the decoder, which trusts the bit, looks for
    the field and runs out of bytes. *)
Theorem struct_to_binary_stale_bit (self : encoders) :
  struct_to_binary self (Probe_with 1 VNone)
  = Ok ([Byte.x01], Probe_with 1 VNone)
  /\ struct_to_binary self (Probe_with 0 VNone)
     = Ok ([Byte.x00], Probe_with 0 VNone)
  /\ struct_to_binary self (Probe_with 0 (VInt 7))
     = Ok ([Byte.x01; Byte.x07; Byte.x00; Byte.x00; Byte.x00],
           Probe_with 1 (VInt 7))
  /\ setattr (Probe_with 1 (VInt 7)) "Value" VNone = Probe_with 1 VNone
  /\ struct_from_binary sample_registry (decoders_at sample_registry 3)
       (ByName "Probe") [Byte.x01]
     = (Raise NotEnoughData, []).
Proof. repeat split. Qed.

(** ** What the encoders assign *)

Lemma bits_added_refl v : bits_added v v.
Proof. left. reflexivity. Qed.

Lemma bits_added_trans v1 v2 v3 :
  bits_added v1 v2 -> bits_added v2 v3 -> bits_added v1 v3.
Proof.
  intros [->|(z & z' & Hz & -> & Hor)] H23; [exact H23|].
  destruct H23 as [->|(y & y' & Hy & -> & Hor')].
  - right. exists z, z'. auto.
  - cbn in Hy. injection Hy as <-. right. exists z, y'.
    repeat split; [assumption|].
    rewrite <- Hor', Z.lor_assoc, Hor. reflexivity.
Qed.

Lemma assigns_only_refl cs obj : assigns_only cs obj obj.
Proof.
  repeat split. intros n. destruct (attrs obj !! n) as [v|]; [|reflexivity].
  exists v. auto using bits_added_refl.
Qed.

Lemma assigns_only_trans cs1 cs2 a b c :
  assigns_only cs1 a b -> assigns_only cs2 b c ->
  assigns_only (cs1 ++ cs2) a c.
Proof.
  intros (Hc1 & Ht1 & Hs1 & H1) (Hc2 & Ht2 & Hs2 & H2).
  repeat split; try congruence.
  intros n. specialize (H1 n). specialize (H2 n).
  destruct (attrs a !! n) as [v|].
  - destruct H1 as (v1 & Hv1 & Hb1 & He1). rewrite Hv1 in H2.
    destruct H2 as (v2 & Hv2 & Hb2 & He2).
    exists v2. repeat split; [assumption | eauto using bits_added_trans |].
    intros Hn. rewrite in_app_iff in Hn.
    rewrite He2, He1; tauto.
  - rewrite H1 in H2. exact H2.
Qed.

Lemma assigns_only_setattr obj c v z :
  attrs obj !! c = Some v -> py_int v = Some z ->
  forall m, assigns_only [c] obj (setattr obj c (VInt (Z.lor z m))).
Proof.
  intros Hv Hz m. repeat split. intros n. cbn [setattr attrs].
  destruct (decide (c = n)) as [<-|Hne].
  - rewrite Hv, lookup_insert_eq. eexists. split; [reflexivity|]. split.
    + right. exists z, (Z.lor z m). repeat split; [assumption|].
      rewrite Z.lor_assoc, Z.lor_diag. reflexivity.
    + intros Hn. exfalso. apply Hn. left. reflexivity.
  - rewrite lookup_insert_ne by assumption.
    destruct (attrs obj !! n) as [w|]; [|reflexivity].
    exists w. auto using bits_added_refl.
Qed.

Lemma apply_switch_assigns obj name c idx obj' :
  apply_switch obj name (c, idx) = Ok obj' ->
  assigns_only [c] obj obj'.
Proof.
  unfold apply_switch, getattr.
  destruct (attrs obj !! name) as [member|]; cbn [res_bind]; [|discriminate].
  destruct (is_None member); cbn [negb].
  - intros H. injection H as <-. apply assigns_only_refl.
  - destruct (attrs obj !! c) as [v|] eqn:Hv; cbn [res_bind]; [|discriminate].
    destruct (py_int v) as [z|] eqn:Hz; [|discriminate].
    intros H. injection H as <-. eapply assigns_only_setattr; eassumption.
Qed.

Lemma apply_switches_assigns items : forall obj obj',
  apply_switches obj items = Ok obj' ->
  assigns_only (containers_of items) obj obj'.
Proof.
  induction items as [|[name [c idx]] items IH]; intros obj obj' H.
  - injection H as <-. apply assigns_only_refl.
  - cbn [apply_switches] in H.
    destruct (apply_switch obj name (c, idx)) as [obj1|] eqn:H1;
      cbn [res_bind] in H; [|discriminate].
    apply apply_switch_assigns in H1. apply IH in H.
    exact (assigns_only_trans [c] _ _ _ _ H1 H).
Qed.




(** ** Reshaping *)

Lemma chunks_from_cons {A} fuel k (c l : list A) :
  (0 < k)%nat -> length c = k ->
  chunks_from (S fuel) k (c ++ l) = c :: chunks_from fuel k l.
Proof.
  intros Hk Hc. cbn [chunks_from].
  destruct (c ++ l) eqn:E.
  - destruct c; [cbn in Hc; lia | discriminate E].
  - rewrite <- E. rewrite take_app_length', drop_app_length' by auto.
    reflexivity.
Qed.

Lemma chunks_from_fuel {A} k : forall f1 f2 (l : list A),
  (0 < k)%nat -> (length l <= f1)%nat -> (length l <= f2)%nat ->
  chunks_from f1 k l = chunks_from f2 k l.
Proof.
  induction f1 as [|f1 IH]; intros f2 l Hk H1 H2.
  - destruct l; [|cbn in H1; lia]. destruct f2; reflexivity.
  - destruct l as [|x l]; [destruct f2; reflexivity|].
    destruct f2 as [|f2]; [cbn in H2; lia|].
    cbn [chunks_from]. f_equal. apply IH; [assumption| |];
      rewrite length_drop; cbn [length] in *; lia.
Qed.

Lemma chunks_nil {A} k : chunks k ([] : list A) = [].
Proof. unfold chunks. destruct (k <=? 0); reflexivity. Qed.

Lemma chunks_cons {A} k (c l : list A) :
  0 < k -> Z.of_nat (length c) = k ->
  chunks k (c ++ l) = c :: chunks k l.
Proof.
  intros Hk Hc. unfold chunks. destruct (Z.leb_spec k 0); [lia|].
  rewrite length_app.
  replace (length c + length l)%nat with (S (Nat.pred (length c) + length l))
    by lia.
  rewrite chunks_from_cons by lia. f_equal.
  apply chunks_from_fuel; lia.
Qed.

Lemma chunks_concat k (ls : list (list value)) :
  0 < k -> Forall (fun c => Z.of_nat (length c) = k) ls ->
  chunks k (concat ls) = ls.
Proof.
  intros Hk H. induction H as [|c ls Hc _ IH].
  - apply chunks_nil.
  - cbn [concat]. rewrite chunks_cons by assumption. f_equal. exact IH.
Qed.


Lemma chunks_exact {A} k (n : nat) : forall (l : list A),
  0 < k -> Z.of_nat (length l) = Z.of_nat n * k ->
  length (chunks k l) = n
  /\ Forall (fun c => Z.of_nat (length c) = k) (chunks k l)
  /\ concat (chunks k l) = l.
Proof.
  induction n as [|n IH]; intros l Hk Hl.
  - destruct l; [|cbn in Hl; lia]. rewrite chunks_nil. repeat constructor.
  - rewrite <- (take_drop (Z.to_nat k) l) at 1 2 3 4.
    assert (Z.of_nat (length (take (Z.to_nat k) l)) = k)
      by (rewrite length_take; lia).
    rewrite chunks_cons by assumption.
    destruct (IH (drop (Z.to_nat k) l)) as (H1 & H2 & H3);
      [assumption | rewrite length_drop; lia |].
    cbn [length concat]. rewrite H1, H3. repeat split; auto.
Qed.

Lemma subsize_fold ds : forall a,
  fold_left (fun subsize i => subsize * (if i =? 0 then 1 else i)) ds a
  = a * subsize_of ds.
Proof.
  unfold subsize_of. induction ds as [|d ds IH]; intros a; cbn [fold_left].
  - lia.
  - rewrite IH, (IH (1 * _)). lia.
Qed.

Lemma subsize_of_cons d ds :
  subsize_of (d :: ds) = (if d =? 0 then 1 else d) * subsize_of ds.
Proof.
  unfold subsize_of at 1. cbn [fold_left]. rewrite subsize_fold. lia.
Qed.

Lemma subsize_of_pos ds : Forall (fun d => 0 <= d) ds -> 0 < subsize_of ds.
Proof.
  induction 1 as [|d ds Hd _ IH]; [reflexivity|].
  rewrite subsize_of_cons. destruct (Z.eqb_spec d 0); nia.
Qed.

Lemma subsize_of_product ds :
  Forall (fun d => 0 < d) ds -> subsize_of ds = dims_product ds.
Proof.
  destruct 1 as [|d ds Hd _]; [reflexivity|].
  rewrite subsize_of_cons. destruct (Z.eqb_spec d 0); [lia|]. reflexivity.
Qed.

Lemma pad_flat_ge d0 subsize flat :
  d0 * subsize <= Z.of_nat (length flat) -> pad_flat d0 subsize flat = flat.
Proof.
  intros H. unfold pad_flat.
  replace (Z.to_nat _) with 0%nat by lia. apply app_nil_r.
Qed.




Lemma _reshape_rec flat d0 d1 rest :
  d1 <> 0 \/ rest <> [] ->
  _reshape flat (d0 :: d1 :: rest)
  = (do groups <-
       res_map (fun chunk => _reshape chunk (d1 :: rest))
         (chunks (subsize_of (d1 :: rest))
                 (pad_flat d0 (subsize_of (d1 :: rest)) flat)) ;;
     Ok (VList groups))%res.
Proof.
  intros H. cbn [_reshape].
  destruct d1; [destruct rest; [destruct H; congruence|]|..]; reflexivity.
Qed.

Lemma _reshape_flat_case flat d0 subdims :
  subdims = [] \/ subdims = [0] ->
  _reshape flat (d0 :: subdims) = Ok (VList (pad_flat d0 1 flat)).
Proof. intros [->| ->]; reflexivity. Qed.






Lemma concat_map_singleton {A} (l : list A) :
  concat (List.map (fun v => [v]) l) = l.
Proof. induction l; cbn; congruence. Qed.


Lemma res_map_exact subdims n cs :
  (forall c, In c cs ->
     exists v, _reshape c subdims = Ok v /\ has_shape subdims v
               /\ leaves n v = c) ->
  exists vs,
    res_map (fun chunk => _reshape chunk subdims) cs = Ok vs
    /\ Forall (has_shape subdims) vs
    /\ length vs = length cs
    /\ concat (List.map (leaves n) vs) = concat cs.
Proof.
  induction cs as [|c cs IH]; intros H.
  - exists []. repeat constructor.
  - destruct (H c) as (v & Hv & Hs & Hl); [left; reflexivity|].
    destruct IH as (vs & Hvs & HF & Hlen & Hc);
      [intros; apply H; right; assumption|].
    exists (v :: vs). cbn [res_map]. rewrite Hv, Hvs. cbn.
    repeat split; [constructor; assumption | congruence | congruence].
Qed.

Lemma Forall_has_shape_nil l : Forall (has_shape []) l.
Proof. apply List.Forall_forall. intros; exact I. Qed.

(** A flat list of exactly the declared size is folded into the declared
    shape, with its elements in order. *)
Lemma _reshape_exact dims :
  dims <> [] -> Forall (fun d => 0 < d) dims -> forall flat,
  Z.of_nat (length flat) = dims_product dims ->
  exists v, _reshape flat dims = Ok v /\ has_shape dims v
            /\ leaves (length dims) v = flat.
Proof.
  induction dims as [|d0 subdims IH]; intros Hne Hpos flat Hlen;
    [congruence|].
  apply Forall_cons_1 in Hpos as [Hd0 Hpos].
  cbn [dims_product] in Hlen.
  destruct subdims as [|d1 rest].
  - rewrite _reshape_flat_case by auto.
    change (subsize_of []) with 1 in Hlen.
    rewrite pad_flat_ge by lia.
    exists (VList flat). split; [reflexivity|]. split.
    + exists flat. repeat split; [lia | apply Forall_has_shape_nil].
    + apply concat_map_singleton.
  - pose proof Hpos as Hpos'. apply Forall_cons_1 in Hpos' as [Hd1 _].
    rewrite _reshape_rec by (left; lia).
    assert (Hs : 0 < subsize_of (d1 :: rest))
      by (apply subsize_of_pos; eapply Forall_impl; [eassumption|];
          cbn; intros; lia).
    set (s := subsize_of (d1 :: rest)) in *.
    rewrite pad_flat_ge by lia.
    destruct (chunks_exact s (Z.to_nat d0) flat) as (Hn & Hk & Hc);
      [assumption | rewrite Z2Nat.id; lia |].
    destruct (res_map_exact (d1 :: rest) (length (d1 :: rest))
                (chunks s flat)) as (vs & Hvs & HF & Hl & Hcc).
    { intros c Hin. apply IH; [discriminate | assumption |].
      rewrite List.Forall_forall in Hk. rewrite (Hk c Hin).
      subst s. apply subsize_of_product, Hpos. }
    rewrite Hvs. cbn [res_bind]. exists (VList vs).
    split; [reflexivity|]. split.
    + exists vs. repeat split; [lia | assumption].
    + cbn [length leaves] in *. rewrite Hcc. exact Hc.
Qed.

Lemma length_concat_map {A} (f : A -> list value) k l :
  Forall (fun x => Z.of_nat (length (f x)) = k) l ->
  Z.of_nat (length (concat (List.map f l))) = Z.of_nat (length l) * k.
Proof.
  induction 1 as [|x l Hx _ IH]; [reflexivity|].
  cbn [List.map concat length]. rewrite length_app. lia.
Qed.

Lemma has_shape_leaves_length dims :
  Forall (fun d => 0 < d) dims -> forall v,
  has_shape dims v ->
  Z.of_nat (length (leaves (length dims) v)) = dims_product dims.
Proof.
  induction dims as [|d ds IH]; intros Hpos v Hv; [reflexivity|].
  apply Forall_cons_1 in Hpos as [Hd Hpos].
  destruct Hv as (l & -> & Hl & HF). cbn [length leaves dims_product].
  rewrite (length_concat_map _ (dims_product ds)).
  - rewrite subsize_of_product by assumption. lia.
  - eapply Forall_impl; [exact HF|]. cbn. intros x Hx. apply IH; assumption.
Qed.

Lemma res_map_map_id {A B} (f : A -> res B) (g : B -> A) l :
  Forall (fun x => f (g x) = Ok x) l -> res_map f (List.map g l) = Ok l.
Proof.
  induction 1 as [|x l Hx _ IH]; [reflexivity|].
  cbn [List.map res_map]. rewrite Hx, IH. reflexivity.
Qed.

(** [_reshape] rebuilds nested lists of a positive shape from their
    elements. *)
Lemma _reshape_leaves dims :
  dims <> [] -> Forall (fun d => 0 < d) dims -> forall v,
  has_shape dims v -> _reshape (leaves (length dims) v) dims = Ok v.
Proof.
  induction dims as [|d0 subdims IH]; intros Hne Hpos v Hv; [congruence|].
  pose proof (has_shape_leaves_length _ Hpos v Hv) as Hlen.
  apply Forall_cons_1 in Hpos as [Hd0 Hpos].
  destruct Hv as (l & -> & Hl & HF).
  cbn [dims_product] in Hlen.
  destruct subdims as [|d1 rest].
  - rewrite _reshape_flat_case by auto.
    change (subsize_of []) with 1 in Hlen.
    rewrite pad_flat_ge by lia.
    cbn [length leaves]. rewrite concat_map_singleton. reflexivity.
  - pose proof Hpos as Hpos'. apply Forall_cons_1 in Hpos' as [Hd1 _].
    rewrite _reshape_rec by (left; lia).
    assert (Hs : 0 < subsize_of (d1 :: rest))
      by (apply subsize_of_pos; eapply Forall_impl; [eassumption|];
          cbn; intros; lia).
    rewrite pad_flat_ge by lia.
    cbn [length leaves] in *.
    rewrite chunks_concat.
    + rewrite res_map_map_id; [reflexivity|].
      eapply Forall_impl; [exact HF|]. cbn. intros x Hx.
      apply IH; [discriminate | assumption | assumption].
    + assumption.
    + apply Forall_map. eapply Forall_impl; [exact HF|]. cbv beta.
      intros x Hx. unfold compose. rewrite subsize_of_product by assumption.
      apply (has_shape_leaves_length (d1 :: rest)); assumption.
Qed.



(** Seven elements for the dimensions 2 x 2: two groups follow the two
    declared ones. *)
Example _reshape_seven :
  _reshape [VInt 1; VInt 2; VInt 3; VInt 4; VInt 5; VInt 6; VInt 7] [2; 2]
  = Ok (VList [VList [VInt 1; VInt 2]; VList [VInt 3; VInt 4];
               VList [VInt 5; VInt 6]; VList [VInt 7; VList []]]).
Proof. reflexivity. Qed.

(** ** Variant *)

Lemma variant_encoding_facts t (a d : bool) :
  In t ua.VariantType.builtin ->
  let e := variant_encoding t a d in
  0 <= e <= 255
  /\ ua.datatype_to_varianttype (Z.land e 63) = t
  /\ (test_bit e 7 =? 0) = negb a
  /\ (test_bit e 6 =? 0) = negb d.
Proof.
  intros H. cbn [ua.VariantType.builtin In] in H.
  repeat (destruct H as [<-|H];
          [destruct a, d; vm_compute; repeat split; congruence|]).
  contradiction.
Qed.

Lemma Byte_pack e :
  0 <= e <= 255 -> pack Primitives.Byte (VInt e) = Ok [byte_of_Z e].
Proof.
  intros H. apply (struct_pack1_int Fmt_B); [reflexivity|].
  unfold fmt_min, fmt_max, fmt_bits. cbn. lia.
Qed.

Lemma read_1 e rest :
  0 <= e <= 255 -> read 1 (byte_of_Z e :: rest) = (Ok [byte_of_Z e], rest).
Proof. intros _. apply (read_app' 1 [byte_of_Z e] rest). reflexivity. Qed.

Lemma ord_byte e : 0 <= e <= 255 -> ord [byte_of_Z e] = e.
Proof.
  intros H. unfold ord. cbn [le_value]. rewrite Z_of_byte_of_Z.
  rewrite Z.mod_small; lia.
Qed.

Lemma unpack_uatype_array_absent registry dself t rest :
  unpack_uatype_array registry dself t (absent_marker ++ rest)
  = (Ok VNone, rest).
Proof.
  unfold unpack_uatype_array.
  destruct (Primitives.getattr (ua.VariantType.name t)).
  - apply unpack_array_absent.
  - rewrite absent_marker_eq.
    rewrite (dec_bind_ok _ _ _ (-1) rest); [reflexivity|].
    apply Int32_unpack. unfold Int32_max. lia.
Qed.

Lemma pack_uatype_array_roundtrip eself registry dself t l :
  Forall (elem_roundtrip eself registry dself t) l ->
  Z.of_nat (length l) <= Int32_max ->
  decodes_to (pack_uatype_array eself t (VList l))
             (unpack_uatype_array registry dself t) (VList l).
Proof.
  intros Hl Hn.
  destruct (dec_repeat_res_map (pack_uatype eself t)
              (unpack_uatype registry dself t) l) as (bs & Hbs & Hd).
  { intros x Hx. rewrite List.Forall_forall in Hl. apply Hl, Hx. }
  exists (le_bytes 4 (Z.of_nat (length l)) ++ concat bs). split.
  - cbn [pack_uatype_array]. rewrite Hbs. cbn [res_bind].
    rewrite Int32_pack by lia. reflexivity.
  - intros rest. rewrite <- app_assoc. unfold unpack_uatype_array.
    destruct (Primitives.getattr (ua.VariantType.name t)) as [st|] eqn:E.
    + assert (Hst : unpack_uatype registry dself t = unpack st)
        by (unfold unpack_uatype; rewrite E; reflexivity).
      rewrite Hst in Hd. unfold unpack_array.
      rewrite (dec_bind_ok _ _ _ (Z.of_nat (length l)) (concat bs ++ rest))
        by (apply Int32_unpack; lia).
      destruct (Z.eqb_spec (Z.of_nat (length l)) (-1)); [lia|].
      destruct (Z.eqb_spec (Z.of_nat (length l)) 0) as [H0|H0].
      * destruct l; [|discriminate H0].
        cbn in Hbs. injection Hbs as <-. reflexivity.
      * rewrite Nat2Z.id. rewrite (dec_bind_ok _ _ _ _ _ (Hd rest)).
        reflexivity.
    + rewrite (dec_bind_ok _ _ _ (Z.of_nat (length l)) (concat bs ++ rest))
        by (apply Int32_unpack; lia).
      destruct (Z.eqb_spec (Z.of_nat (length l)) (-1)); [lia|].
      rewrite Nat2Z.id. rewrite (dec_bind_ok _ _ _ _ _ (Hd rest)).
      reflexivity.
Qed.

(** A tag that names a primitive is encoded and decoded by it. *)
Lemma elem_roundtrip_primitive eself registry dself t T x :
  Primitives.getattr (ua.VariantType.name t) = Some T ->
  prim_ok T x = true ->
  elem_roundtrip eself registry dself t x.
Proof.
  intros HT Hx. unfold elem_roundtrip, pack_uatype, unpack_uatype.
  rewrite HT. apply prim_roundtrip, Hx.
Qed.

Lemma Int32_ok_roundtrip eself registry dself dims :
  Forall Int32_ok dims ->
  Forall (elem_roundtrip eself registry dself ua.VariantType.Int32)
         (map VInt dims).
Proof.
  intros H. apply Forall_map. eapply Forall_impl; [exact H|].
  intros d Hd. apply (elem_roundtrip_primitive _ _ _ _ Primitives.Int32);
    [reflexivity|].
  unfold Int32_ok, Int32_max in Hd. cbn [prim_ok Primitives.Int32].
  unfold fmt_min, fmt_max, fmt_bits. cbn.
  apply andb_true_intro. split; apply Z.leb_le; lia.
Qed.

Lemma ints_of_map dims : ints_of (map VInt dims) = Ok dims.
Proof.
  induction dims as [|d dims IH]; [reflexivity|].
  cbn [map ints_of]. rewrite IH. reflexivity.
Qed.

Lemma flatten_list_scalars l :
  Forall (fun x => is_list x = false) l ->
  concat (List.map flatten_list l) = l.
Proof.
  induction 1 as [|x l Hx _ IH]; [reflexivity|].
  cbn [List.map concat]. rewrite IH.
  destruct x; try discriminate Hx; reflexivity.
Qed.

(** The head of [variant_from_binary]: the first byte. *)
Lemma variant_from_binary_head registry dself t a d bs :
  In t ua.VariantType.builtin ->
  variant_from_binary registry dself
    (byte_of_Z (variant_encoding t a d) :: bs)
  = (do '(value, array) <-
       (if a then
          do value <- unpack_uatype_array registry dself t ;;
          dec_ret (value, true)
        else
          do value <- unpack_uatype registry dself t ;;
          dec_ret (value, false)) ;;
     do '(value, dimensions) <-
       (if d then
          do dimensions <-
            unpack_uatype_array registry dself ua.VariantType.Int32 ;;
          match dimensions, value with
          | VList dims, VList flat =>
              do dims <- dec_lift (ints_of dims) ;;
              do value <- dec_lift (_reshape flat dims) ;;
              dec_ret (value, Some dims)
          | _, _ => dec_raise TypeError
          end
        else dec_ret (value, None)) ;;
     dec_ret (mkVariant value t dimensions array))%dec bs.
Proof.
  intros Ht.
  destruct (variant_encoding_facts t a d Ht) as (Hr & Hty & H7 & H6).
  unfold variant_from_binary.
  rewrite (dec_bind_ok _ _ _ _ _ (read_1 _ bs Hr)).
  rewrite ord_byte by assumption. rewrite Hty, H7, H6.
  destruct a, d; reflexivity.
Qed.

Lemma variant_to_binary_scalar eself v t b1 :
  In t ua.VariantType.builtin -> is_list v = false ->
  pack_uatype eself t v = Ok b1 ->
  variant_to_binary eself (mkVariant v t None false)
  = Ok (byte_of_Z (variant_encoding t false false) :: b1,
        mkVariant v t None false).
Proof.
  intros Ht Hv Hb.
  destruct (variant_encoding_facts t false false Ht) as (Hr & _).
  unfold variant_to_binary. cbn [is_array Value VariantType Dimensions].
  rewrite Hv. cbn [orb].
  change (Z.land (ua.VariantType.value t) 63)
    with (variant_encoding t false false).
  rewrite Byte_pack by assumption. rewrite Hb. reflexivity.
Qed.

Lemma variant_to_binary_array eself v t dims a flat b1 b2 :
  In t ua.VariantType.builtin ->
  a || is_list v = true ->
  flatten v = Ok flat ->
  pack_uatype_array eself t flat = Ok b1 ->
  match dims with
  | Some dims =>
      pack_uatype_array eself ua.VariantType.Int32 (VList (map VInt dims))
  | None => Ok []
  end = Ok b2 ->
  variant_to_binary eself (mkVariant v t dims a)
  = Ok (byte_of_Z (variant_encoding t true (bool_decide (is_Some dims)))
          :: b1 ++ b2,
        mkVariant v t dims true).
Proof.
  intros Ht Ha Hf Hb1 Hb2.
  destruct (variant_encoding_facts t true (bool_decide (is_Some dims)) Ht)
    as (Hr & _).
  unfold variant_to_binary. cbn [is_array Value VariantType Dimensions].
  rewrite Ha.
  replace (match dims with
           | Some _ => set_bit (set_bit (Z.land (ua.VariantType.value t) 63) 7) 6
           | None => set_bit (Z.land (ua.VariantType.value t) 63) 7
           end)
    with (variant_encoding t true (bool_decide (is_Some dims)))
    by (destruct dims; reflexivity).
  rewrite Byte_pack by assumption. cbn [res_bind].
  rewrite Hf. cbn [res_bind]. rewrite Hb1. cbn [res_bind].
  rewrite Hb2. reflexivity.
Qed.

(** C1, as the code has it. For every Variant whose tag is a builtin one,
    whose elements are each read back by the codec of the tag, and whose
    value is a scalar, an absent array, a one-dimensional array, or an
    array with Dimensions whose nested value is the one [_reshape] builds
    from its elements (as it is for every array of a positive shape, see
    [_reshape_flatten]), [variant_from_binary] reads from
    [variant_to_binary(v)] the Variant [v] as the encoder leaves it: same
    value, tag and Dimensions, [is_array] set for an array. *)
Theorem variant_roundtrip eself registry dself (var : Variant) :
  In (VariantType var) ua.VariantType.builtin ->
  variant_shape eself registry dself var ->
  variant_roundtrips eself registry dself var.
Proof.
  intros Ht Hs. unfold variant_roundtrips, after_encoding.
  destruct Hs as [v t Hv He | t | l t a Hsc He Hn
                 | l t dims a He Hn Hd Hdn Hr];
    cbn [VariantType Value Dimensions is_array is_list orb] in *.
  - destruct He as (b1 & Hb1 & Hd1). rewrite Hv.
    eexists. split; [apply variant_to_binary_scalar; eassumption|].
    intros rest. cbn [app]. rewrite variant_from_binary_head by assumption.
    rewrite (dec_bind_ok _ _ _ (v, false) rest)
      by (rewrite (dec_bind_ok _ _ _ _ _ (Hd1 rest)); reflexivity).
    reflexivity.
  - eexists. split.
    + apply (variant_to_binary_array eself VNone t None true VNone
               absent_marker []); auto.
    + intros rest. cbn [app bool_decide].
      rewrite variant_from_binary_head by assumption.
      rewrite app_nil_r.
      rewrite (dec_bind_ok _ _ _ (VNone, true) rest)
        by (rewrite (dec_bind_ok _ _ _ _ _
                       (unpack_uatype_array_absent _ _ _ rest));
            reflexivity).
      reflexivity.
  - destruct (pack_uatype_array_roundtrip eself registry dself t l He Hn)
      as (b1 & Hb1 & Hd1).
    rewrite orb_true_r. eexists. split.
    + apply (variant_to_binary_array eself (VList l) t None a (VList l)
               b1 []); auto using orb_true_r.
      cbn [flatten]. rewrite flatten_list_scalars by assumption.
      reflexivity.
    + intros rest. cbn [app bool_decide].
      rewrite variant_from_binary_head by assumption.
      rewrite app_nil_r.
      rewrite (dec_bind_ok _ _ _ (VList l, true) rest)
        by (rewrite (dec_bind_ok _ _ _ _ _ (Hd1 rest)); reflexivity).
      reflexivity.
  - destruct (pack_uatype_array_roundtrip eself registry dself t _ He Hn)
      as (b1 & Hb1 & Hd1).
    destruct (pack_uatype_array_roundtrip eself registry dself
                ua.VariantType.Int32 (map VInt dims)) as (b2 & Hb2 & Hd2).
    { apply Int32_ok_roundtrip, Hd. }
    { rewrite length_map. exact Hdn. }
    rewrite orb_true_r. eexists. split.
    + apply (variant_to_binary_array eself (VList l) t (Some dims) a
               (VList (concat (List.map flatten_list l))) b1 b2);
        auto using orb_true_r.
    + intros rest. cbn [app].
      rewrite variant_from_binary_head by assumption.
      change (bool_decide (is_Some (Some dims))) with true.
      rewrite <- app_assoc.
      rewrite (dec_bind_ok _ _ _
                 (VList (concat (List.map flatten_list l)), true)
                 (b2 ++ rest))
        by (rewrite (dec_bind_ok _ _ _ _ _ (Hd1 _)); reflexivity).
      rewrite (dec_bind_ok _ _ _ (VList l, Some dims) rest);
        [reflexivity|].
      rewrite (dec_bind_ok _ _ _ _ _ (Hd2 rest)).
      unfold dec_bind, dec_lift. rewrite ints_of_map, Hr. reflexivity.
Qed.

Lemma flatten_list_leaves dims : forall v,
  has_shape dims v ->
  Forall (fun x => is_list x = false) (leaves (length dims) v) ->
  flatten_list v = leaves (length dims) v.
Proof.
  induction dims as [|d ds IH]; intros v Hv Hl.
  - cbn [length leaves] in *. apply Forall_cons_1 in Hl as [Hx _].
    destruct v; try discriminate Hx; reflexivity.
  - destruct Hv as (l & -> & _ & HF). cbn [length leaves flatten_list] in *.
    f_equal. induction HF as [|x l Hx HF IHl]; [reflexivity|].
    cbn [List.map concat] in Hl. apply Forall_app in Hl as [Hl1 Hl2].
    cbn [List.map]. f_equal; [apply IH; assumption | apply IHl, Hl2].
Qed.

(** Nested lists of a positive shape whose elements are not lists are what
    [_reshape] builds from their flat sequence. *)
Lemma _reshape_flatten dims l :
  dims <> [] -> Forall (fun d => 0 < d) dims ->
  has_shape dims (VList l) ->
  Forall (fun x => is_list x = false) (leaves (length dims) (VList l)) ->
  _reshape (concat (List.map flatten_list l)) dims = Ok (VList l).
Proof.
  intros Hne Hpos Hs Hl.
  change (concat (List.map flatten_list l)) with (flatten_list (VList l)).
  rewrite (flatten_list_leaves dims) by assumption.
  apply _reshape_leaves; assumption.
Qed.

(** A 2 x 3 array of Int32 with its Dimensions. *)
Lemma variant_roundtrip_witness :
  variant_roundtrips (encoders_at sample_registry 0) sample_registry
    (decoders_at sample_registry 0)
    (mkVariant
       (VList [VList [VInt 1; VInt 2; VInt 3]; VList [VInt 4; VInt 5; VInt 6]])
       ua.VariantType.Int32 (Some [2; 3]) false).
Proof.
  apply variant_roundtrip.
  - cbn. auto 10.
  - apply shape_dimensions.
    + repeat constructor;
        apply (elem_roundtrip_primitive _ _ _ _ Primitives.Int32);
        reflexivity.
    + vm_compute. discriminate.
    + repeat constructor; vm_compute; discriminate.
    + vm_compute. discriminate.
    + reflexivity.
Defined.

(** C1, refuted as stated. The 2 x 0 x 3 array of Int32, which has no
    element and is the nested list [[[], []]], is encoded as an empty array
    with the Dimensions [2, 0, 3]; the decoder pads the empty flat list
    with six empty lists and returns
    [[[[[], [], []]], [[[], [], []]]]] for it. *)
Lemma variant_zero_dimension_not_read_back :
  ~ variant_roundtrips (encoders_at sample_registry 1) sample_registry
      (decoders_at sample_registry 1)
      (mkVariant (VList [VList []; VList []]) ua.VariantType.Int32
                 (Some [2; 0; 3]) true).
Proof.
  intros (bs & Hb & Hd). vm_compute in Hb. injection Hb as <-.
  specialize (Hd []). vm_compute in Hd. discriminate Hd.
Qed.


(** ** NodeId round trip *)

Lemma struct_unpack1_int f z :
  fmt_is_int f = true -> fmt_min f <= z <= fmt_max f ->
  struct_unpack1 f (le_bytes (fmt_size f) z) = Ok (VInt z).
Proof.
  intros Hf Hz. unfold struct_unpack1.
  rewrite length_le_bytes, Nat.eqb_refl. cbn [negb].
  rewrite int_of_le_le_bytes by assumption.
  destruct f; try discriminate Hf; reflexivity.
Qed.

Lemma unpack_ns_id_app f1 f2 n ns id rest :
  fmt_is_int f1 = true -> fmt_is_int f2 = true ->
  fmt_min f1 <= ns <= fmt_max f1 -> fmt_min f2 <= id <= fmt_max f2 ->
  n = Z.of_nat (fmt_size f1 + fmt_size f2) ->
  unpack_ns_id [f1; f2] n
    (le_bytes (fmt_size f1) ns ++ le_bytes (fmt_size f2) id ++ rest)
  = (Ok (ns, VInt id), rest).
Proof.
  intros H1 H2 Hns Hid ->. unfold unpack_ns_id.
  rewrite app_assoc.
  rewrite (dec_bind_ok _ _ _
             (le_bytes (fmt_size f1) ns ++ le_bytes (fmt_size f2) id) rest)
    by (apply read_app'; rewrite length_app, !length_le_bytes; reflexivity).
  unfold dec_bind, dec_lift. cbn [struct_unpack].
  rewrite take_app_length', drop_app_length'
    by (symmetry; apply length_le_bytes).
  rewrite struct_unpack1_int by assumption. cbn [res_bind].
  rewrite take_ge by (rewrite length_le_bytes; lia).
  rewrite struct_unpack1_int by assumption. cbn [res_bind].
  rewrite drop_ge by (rewrite length_le_bytes; lia). reflexivity.
Qed.

Ltac fmt_range := unfold fmt_min, fmt_max, fmt_bits; cbn; lia.

(** The first byte of an encoding without flags, and what follows the
    body. *)
Ltac nodeid_header tag t rest :=
  unfold nodeid_from_binary;
  rewrite (dec_bind_ok _ _ _ [byte_of_Z tag] rest)
    by (apply (read_app' 1 [byte_of_Z tag] rest); reflexivity);
  cbv zeta;
  rewrite (dec_bind_ok _ _ _ t rest) by reflexivity.

Ltac bool_hyps H :=
  repeat match type of H with
    | _ && _ = true => let H' := fresh "H" in apply andb_prop in H as [H H']
    end;
  repeat match goal with
    | H : (_ <=? _) = true |- _ => apply Z.leb_le in H
    | H : (_ <? _) = true |- _ => apply Z.ltb_lt in H
    | H : (_ =? _) = true |- _ => apply Z.eqb_eq in H
    end.

(** A NodeId without optional fields is read back from its encoding, in
    each of the six forms. *)
Lemma nodeid_roundtrip (n : NodeId) :
  nodeid_ok n = true -> decodes_to (nodeid_to_binary n) nodeid_from_binary n.
Proof.
  unfold nodeid_ok, decodes_to, nodeid_to_binary, form_admits.
  destruct n as [t ns id [uri|] [srv|]]; cbn [NodeIdType NamespaceIndex
    Identifier NamespaceUri ServerIndex]; rewrite ?andb_false_r;
    try discriminate.
  rewrite andb_true_r.
  destruct t, id as [| |i|s|b| |u| | | | |]; rewrite ?andb_false_l;
    try discriminate; intros H; bool_hyps H;
    cbn [struct_pack ua.NodeIdType.value pack Primitives.String
         Primitives.Bytes Primitives.Guid].
  - (* TwoByte *)
    subst ns.
    rewrite !(struct_pack1_int Fmt_B) by (try reflexivity; fmt_range).
    cbn [res_bind fmt_size app]. eexists. split; [reflexivity|].
    intros rest. cbn [le_bytes app].
    nodeid_header 0 ua.NodeIdType.TwoByte (byte_of_Z i :: rest).
    rewrite (dec_bind_ok _ _ _ (mkNodeId ua.NodeIdType.TwoByte 0 (VInt i)
                                  None None) rest).
    + reflexivity.
    + rewrite (dec_bind_ok _ _ _ [byte_of_Z i] rest)
        by (apply (read_app' 1 [byte_of_Z i] rest); reflexivity).
      unfold dec_ret, ord. cbn [le_value]. rewrite Z_of_byte_of_Z.
      rewrite Z.mod_small by lia. rewrite Z.mul_0_r, Z.add_0_r.
      reflexivity.
  - (* FourByte *)
    rewrite !(struct_pack1_int Fmt_B), (struct_pack1_int Fmt_H)
      by (try reflexivity; fmt_range).
    cbn [res_bind fmt_size app]. eexists. split; [reflexivity|].
    intros rest. cbn [app]. rewrite <- !app_assoc.
    change (le_bytes 1 1 ++ ?x) with (byte_of_Z 1 :: x).
    nodeid_header 1 ua.NodeIdType.FourByte
      (le_bytes 1 ns ++ le_bytes 2 i ++ rest).
    rewrite (dec_bind_ok _ _ _ (mkNodeId ua.NodeIdType.FourByte ns (VInt i)
                                  None None) rest).
    + reflexivity.
    + rewrite (dec_bind_ok _ _ _ (ns, VInt i) rest); [reflexivity|].
      apply (unpack_ns_id_app Fmt_B Fmt_H);
        try reflexivity; fmt_range.
  - (* Numeric *)
    rewrite (struct_pack1_int Fmt_B), (struct_pack1_int Fmt_H),
      (struct_pack1_int Fmt_I) by (try reflexivity; fmt_range).
    cbn [res_bind fmt_size app]. eexists. split; [reflexivity|].
    intros rest. cbn [app]. rewrite <- !app_assoc.
    change (le_bytes 1 2 ++ ?x) with (byte_of_Z 2 :: x).
    nodeid_header 2 ua.NodeIdType.Numeric
      (le_bytes 2 ns ++ le_bytes 4 i ++ rest).
    rewrite (dec_bind_ok _ _ _ (mkNodeId ua.NodeIdType.Numeric ns (VInt i)
                                  None None) rest).
    + reflexivity.
    + rewrite (dec_bind_ok _ _ _ (ns, VInt i) rest); [reflexivity|].
      apply (unpack_ns_id_app Fmt_H Fmt_I);
        try reflexivity; fmt_range.
  - (* String *)
    rewrite (struct_pack1_int Fmt_B), (struct_pack1_int Fmt_H)
      by (try reflexivity; fmt_range).
    destruct (prim_roundtrip _String (VStr s)) as (bs & Hp & Hd).
    { cbn [prim_ok]. apply andb_true_intro. split; [assumption|].
      apply Z.leb_le. lia. }
    cbn [pack] in Hp. rewrite Hp.
    cbn [res_bind fmt_size app]. eexists. split; [reflexivity|].
    intros rest. cbn [app]. rewrite <- !app_assoc.
    change (le_bytes 1 3 ++ ?x) with (byte_of_Z 3 :: x).
    nodeid_header 3 ua.NodeIdType.String (le_bytes 2 ns ++ bs ++ rest).
    rewrite (dec_bind_ok _ _ _ (mkNodeId ua.NodeIdType.String ns (VStr s)
                                  None None) rest).
    + reflexivity.
    + rewrite (dec_bind_ok _ _ _ ns (bs ++ rest))
        by (apply (unpack_int_le_bytes Fmt_H); [reflexivity | fmt_range]).
      rewrite (dec_bind_ok _ _ _ _ _ (Hd rest)). reflexivity.
  - (* Guid *)
    rewrite (struct_pack1_int Fmt_B), (struct_pack1_int Fmt_H)
      by (try reflexivity; fmt_range).
    destruct (prim_roundtrip _Guid (VUuid u)) as (bs & Hp & Hd).
    { cbn [prim_ok]. apply andb_true_intro.
      split; [apply Z.leb_le | apply Z.ltb_lt]; lia. }
    cbn [pack] in Hp. rewrite Hp.
    cbn [res_bind fmt_size app]. eexists. split; [reflexivity|].
    intros rest. cbn [app]. rewrite <- !app_assoc.
    change (le_bytes 1 4 ++ ?x) with (byte_of_Z 4 :: x).
    nodeid_header 4 ua.NodeIdType.Guid (le_bytes 2 ns ++ bs ++ rest).
    rewrite (dec_bind_ok _ _ _ (mkNodeId ua.NodeIdType.Guid ns (VUuid u)
                                  None None) rest).
    + reflexivity.
    + rewrite (dec_bind_ok _ _ _ ns (bs ++ rest))
        by (apply (unpack_int_le_bytes Fmt_H); [reflexivity | fmt_range]).
      rewrite (dec_bind_ok _ _ _ _ _ (Hd rest)). reflexivity.
  - (* ByteString *)
    rewrite (struct_pack1_int Fmt_B), (struct_pack1_int Fmt_H)
      by (try reflexivity; fmt_range).
    destruct (prim_roundtrip _Bytes (VBytes b)) as (bs & Hp & Hd).
    { cbn [prim_ok]. apply Z.leb_le. lia. }
    cbn [pack] in Hp. rewrite Hp.
    cbn [res_bind fmt_size app]. eexists. split; [reflexivity|].
    intros rest. cbn [app]. rewrite <- !app_assoc.
    change (le_bytes 1 5 ++ ?x) with (byte_of_Z 5 :: x).
    nodeid_header 5 ua.NodeIdType.ByteString (le_bytes 2 ns ++ bs ++ rest).
    rewrite (dec_bind_ok _ _ _ (mkNodeId ua.NodeIdType.ByteString ns
                                  (VBytes b) None None) rest).
    + reflexivity.
    + rewrite (dec_bind_ok _ _ _ ns (bs ++ rest))
        by (apply (unpack_int_le_bytes Fmt_H); [reflexivity | fmt_range]).
      rewrite (dec_bind_ok _ _ _ _ _ (Hd rest)). reflexivity.
Qed.

(** Under the tags NodeId and ExpandedNodeId a NodeId is an element that
    is read back, when it has neither optional field. *)
Lemma elem_roundtrip_nodeid eself registry dself t n :
  t = ua.VariantType.NodeId \/ t = ua.VariantType.ExpandedNodeId ->
  nodeid_ok n = true ->
  elem_roundtrip eself registry dself t (VNodeId n).
Proof.
  intros Ht Hn. destruct (nodeid_roundtrip n Hn) as (bs & Hb & Hd).
  exists bs. split.
  - destruct Ht as [->| ->]; exact Hb.
  - intros rest.
    assert (Hu : unpack_uatype registry dself t
                 = (do n <- nodeid_from_binary ;; dec_ret (VNodeId n))%dec)
      by (destruct Ht as [->| ->]; reflexivity).
    rewrite Hu, (dec_bind_ok _ _ _ _ _ (Hd rest)). reflexivity.
Qed.

(** ** The concrete scenarios of the specification *)

Example scenario_UInt32 :
  pack Primitives.UInt32 (VInt 16909060)
  = Ok [Byte.x04; Byte.x03; Byte.x02; Byte.x01]
  /\ unpack Primitives.UInt32 [Byte.x04; Byte.x03; Byte.x02; Byte.x01]
     = (Ok (VInt 16909060), []).
Proof. split; reflexivity. Qed.

Example scenario_String :
  pack Primitives.String VNone
  = Ok [Byte.xff; Byte.xff; Byte.xff; Byte.xff]
  /\ pack Primitives.String (VStr "")
     = Ok [Byte.x00; Byte.x00; Byte.x00; Byte.x00]
  /\ pack Primitives.String (VStr "OPC")
     = Ok [Byte.x03; Byte.x00; Byte.x00; Byte.x00;
           Byte.x4f; Byte.x50; Byte.x43].
Proof. repeat split. Qed.

Example scenario_Guid :
  pack Primitives.Guid (VUuid 0x72962B91FA754AE68D28B404DC7DAF63)
  = Ok [Byte.x91; Byte.x2b; Byte.x96; Byte.x72; Byte.x75; Byte.xfa;
        Byte.xe6; Byte.x4a; Byte.x8d; Byte.x28; Byte.xb4; Byte.x04;
        Byte.xdc; Byte.x7d; Byte.xaf; Byte.x63].
Proof. reflexivity. Qed.

Example scenario_NodeId :
  nodeid_to_binary (mkNodeId ua.NodeIdType.TwoByte 0 (VInt 72) None None)
  = Ok [Byte.x00; Byte.x48]
  /\ nodeid_from_binary [Byte.x00; Byte.x48]
     = (Ok (mkNodeId ua.NodeIdType.TwoByte 0 (VInt 72) None None), []).
Proof. split; reflexivity. Qed.

Example scenario_Variant :
  variant_to_binary (encoders_at sample_registry 1)
    (mkVariant (VList [VInt 1; VInt 2; VInt 3]) ua.VariantType.Int32
               None false)
  = Ok ([Byte.x86; Byte.x03; Byte.x00; Byte.x00; Byte.x00;
         Byte.x01; Byte.x00; Byte.x00; Byte.x00;
         Byte.x02; Byte.x00; Byte.x00; Byte.x00;
         Byte.x03; Byte.x00; Byte.x00; Byte.x00],
        mkVariant (VList [VInt 1; VInt 2; VInt 3]) ua.VariantType.Int32
                  None true).
Proof. reflexivity. Qed.

(** * Further properties *)

(** ** The bit helpers and the transport header *)

Lemma pack_s_exact n b : length b = n -> pack_s n b = b.
Proof. intros H. unfold pack_s. apply take_app_length'. auto. Qed.

Lemma UInt32_pack z :
  0 <= z <= UInt32_max -> pack Primitives.UInt32 (VInt z) = Ok (le_bytes 4 z).
Proof.
  intros Hz. apply (struct_pack1_int Fmt_I); [reflexivity|].
  unfold UInt32_max in Hz. fmt_range.
Qed.

Lemma header_to_binary_ok hdr :
  length (MessageType hdr) = 3%nat -> length (ChunkType hdr) = 1%nat ->
  0 <= body_size hdr + header_length (MessageType hdr) <= UInt32_max ->
  (in_secure (MessageType hdr) = true ->
   exists c, ChannelId hdr = Some c /\ 0 <= c <= UInt32_max) ->
  header_to_binary hdr
  = Ok (MessageType hdr ++ ChunkType hdr
        ++ le_bytes 4 (body_size hdr + header_length (MessageType hdr))
        ++ match ChannelId hdr with
           | Some c => if in_secure (MessageType hdr) then le_bytes 4 c
                       else []
           | None => []
           end).
Proof.
  intros Hm Hc Hs Hch. unfold header_to_binary, header_length in *.
  rewrite !pack_s_exact by assumption.
  destruct (in_secure (MessageType hdr)).
  - destruct Hch as (c & -> & Hcr); [reflexivity|].
    rewrite (UInt32_pack (body_size hdr + 8 + 4)) by lia.
    rewrite (UInt32_pack c) by lia. cbn [res_bind].
    rewrite <- !app_assoc, <- Z.add_assoc. reflexivity.
  - rewrite UInt32_pack by lia. cbn [res_bind].
    rewrite <- !app_assoc. destruct (ChannelId hdr); reflexivity.
Qed.

Lemma header_from_binary_app mt ct size tail :
  length mt = 3%nat -> length ct = 1%nat -> 0 <= size <= UInt32_max ->
  header_from_binary (mt ++ ct ++ le_bytes 4 size ++ tail)
  = (if in_secure mt then
       do ChannelId <- unpack_int Fmt_I ;;
       dec_ret (mkHeader mt ct (Some ChannelId) (size - 8 - 4) size)
     else dec_ret (mkHeader mt ct None (size - 8) size))%dec tail.
Proof.
  intros Hm Hc Hs. unfold header_from_binary.
  rewrite (dec_bind_ok _ _ _ (mt ++ ct ++ le_bytes 4 size) tail).
  2:{ rewrite !app_assoc. rewrite <- (app_assoc mt).
      apply read_app'. rewrite !length_app, length_le_bytes. lia. }
  cbv zeta.
  assert (H3 : take 3 (mt ++ ct ++ le_bytes 4 size) = mt)
    by (apply take_app_length'; auto).
  assert (Hd3 : drop 3 (mt ++ ct ++ le_bytes 4 size) = ct ++ le_bytes 4 size)
    by (apply drop_app_length'; auto).
  assert (Hd4 : drop 4 (mt ++ ct ++ le_bytes 4 size) = le_bytes 4 size).
  { rewrite app_assoc. apply drop_app_length'. rewrite length_app. lia. }
  rewrite H3, Hd3, Hd4.
  rewrite take_app_length' by auto.
  rewrite (int_of_le_le_bytes Fmt_I) by
    (try reflexivity; unfold UInt32_max in Hs; fmt_range).
  reflexivity.
Qed.

(** X6. For a header whose MessageType has 3 bytes and whose ChunkType
    has 1, [header_to_binary] writes 8 bytes, or 12 with the ChannelId for
    the three secure message types, and [header_from_binary] reads the
    header back from them: [packet_size] is [body_size] plus the length of
    the header, and the ChannelId is read for the secure types only. *)
Theorem header_roundtrip (hdr : Header) :
  length (MessageType hdr) = 3%nat -> length (ChunkType hdr) = 1%nat ->
  0 <= body_size hdr + header_length (MessageType hdr) <= UInt32_max ->
  (in_secure (MessageType hdr) = true ->
   exists c, ChannelId hdr = Some c /\ 0 <= c <= UInt32_max) ->
  exists bs,
    header_to_binary hdr = Ok bs
    /\ Z.of_nat (length bs) = header_length (MessageType hdr)
    /\ forall rest,
         header_from_binary (bs ++ rest)
         = (Ok (mkHeader (MessageType hdr) (ChunkType hdr)
                  (if in_secure (MessageType hdr) then ChannelId hdr
                   else None)
                  (body_size hdr)
                  (body_size hdr + header_length (MessageType hdr))),
            rest).
Proof.
  intros Hm Hc Hs Hch. eexists. split; [apply header_to_binary_ok; auto|].
  split.
  - rewrite !length_app, length_le_bytes, Hm, Hc. unfold header_length.
    destruct (in_secure (MessageType hdr)).
    + destruct Hch as (c & -> & _); [reflexivity|].
      rewrite length_le_bytes. reflexivity.
    + destruct (ChannelId hdr); reflexivity.
  - intros rest. rewrite <- !app_assoc.
    rewrite header_from_binary_app by assumption.
    unfold header_length in *.
    destruct (in_secure (MessageType hdr)).
    + destruct Hch as (c & -> & Hcr); [reflexivity|].
      rewrite (dec_bind_ok _ _ _ c rest)
        by (apply (unpack_int_le_bytes Fmt_I);
            [reflexivity | unfold UInt32_max in Hcr; fmt_range]).
      unfold dec_ret. do 2 f_equal. f_equal; lia.
    + unfold dec_ret. destruct (ChannelId hdr); cbn [app];
        do 2 f_equal; f_equal; lia.
Qed.

Lemma header_roundtrip_witness :
  exists bs,
    header_to_binary
      (mkHeader MessageType.SecureMessage ChunkType.Single (Some 7) 20 0)
    = Ok bs
    /\ Z.of_nat (length bs) = 12
    /\ forall rest,
         header_from_binary (bs ++ rest)
         = (Ok (mkHeader MessageType.SecureMessage ChunkType.Single (Some 7)
                         20 32), rest).
Proof.
  apply (header_roundtrip
           (mkHeader MessageType.SecureMessage ChunkType.Single (Some 7)
                     20 0)).
  - reflexivity.
  - reflexivity.
  - vm_compute. split; discriminate.
  - intros _. exists 7. split; [reflexivity|]. vm_compute.
    split; discriminate.
Defined.

(** X7. [uatcp_to_binary] puts an 8-byte header before the encoding of
    the message: read by [header_from_binary], it has the message type,
    the chunk type [F], the length of the body as [body_size] and the
    length of the whole output as [packet_size], and the cursor is left at
    the body. *)
Theorem uatcp_to_binary_frame (self : encoders) (message_type : bytes)
        (message : Object) (binmsg : bytes) (message' : Object) :
  length message_type = 3%nat ->
  in_secure message_type = false ->
  struct_to_binary self message = Ok (binmsg, message') ->
  Z.of_nat (length binmsg) + 8 <= UInt32_max ->
  exists out,
    uatcp_to_binary self message_type message = Ok out
    /\ Z.of_nat (length out) = 8 + Z.of_nat (length binmsg)
    /\ forall rest,
         header_from_binary (out ++ rest)
         = (Ok (mkHeader message_type ChunkType.Single None
                         (Z.of_nat (length binmsg))
                         (Z.of_nat (length out))),
            binmsg ++ rest).
Proof.
  intros Hm Hsec Hb Hn. unfold uatcp_to_binary. rewrite Hb.
  cbn [res_bind fst MessageType ChunkType ChannelId packet_size].
  rewrite header_to_binary_ok;
    cbn [MessageType ChunkType ChannelId body_size];
    unfold header_length; rewrite ?Hsec; try reflexivity; try lia;
    try discriminate.
  cbn [res_bind]. eexists. split; [reflexivity|].
  assert (Hlen : Z.of_nat (length ((message_type ++ ChunkType.Single
                   ++ le_bytes 4 (Z.of_nat (length binmsg) + 8) ++ [])
                   ++ binmsg)) = 8 + Z.of_nat (length binmsg)).
  { rewrite !length_app, length_le_bytes, Hm. unfold ChunkType.Single.
    cbn [length]. lia. }
  split; [exact Hlen|].
  intros rest. rewrite Hlen. rewrite app_nil_r, <- !app_assoc.
  rewrite header_from_binary_app by (try reflexivity; auto; lia).
  rewrite Hsec. unfold dec_ret. do 2 f_equal. f_equal; lia.
Qed.

Lemma uatcp_to_binary_frame_witness :
  exists out,
    uatcp_to_binary (encoders_at sample_registry 1) MessageType.Hello
                    (Probe_with 0 (VInt 7)) = Ok out
    /\ Z.of_nat (length out) = 8 + 5
    /\ forall rest,
         header_from_binary (out ++ rest)
         = (Ok (mkHeader MessageType.Hello ChunkType.Single None 5
                         (Z.of_nat (length out))),
            [Byte.x01; Byte.x07; Byte.x00; Byte.x00; Byte.x00] ++ rest).
Proof.
  apply (uatcp_to_binary_frame (encoders_at sample_registry 1)
           MessageType.Hello (Probe_with 0 (VInt 7))
           [Byte.x01; Byte.x07; Byte.x00; Byte.x00; Byte.x00]
           (Probe_with 1 (VInt 7))).
  - reflexivity.
  - reflexivity.
  - reflexivity.
  - vm_compute. discriminate.
Defined.

Lemma test_set_bit data offset :
  0 <= offset ->
  test_bit (set_bit data offset) offset = 2 ^ offset.
Proof.
  intros Ho. unfold test_bit, set_bit. rewrite Z.shiftl_1_l.
  apply Z.bits_inj'. intros n Hn.
  rewrite Z.land_spec, Z.lor_spec, Z.pow2_bits_eqb by assumption.
  destruct (Z.eqb offset n), (Z.testbit data n); reflexivity.
Qed.

Lemma test_unset_bit data offset :
  0 <= offset ->
  test_bit (unset_bit data offset) offset = 0.
Proof.
  intros Ho. unfold test_bit, unset_bit. rewrite Z.shiftl_1_l.
  apply Z.bits_inj'. intros n Hn.
  rewrite !Z.land_spec, Z.lnot_spec, Z.pow2_bits_eqb, Z.bits_0
    by assumption.
  destruct (Z.eqb offset n), (Z.testbit data n); reflexivity.
Qed.

Lemma test_bit_other data offset offset' :
  0 <= offset -> 0 <= offset' -> offset <> offset' ->
  test_bit (set_bit data offset) offset' = test_bit data offset'
  /\ test_bit (unset_bit data offset) offset' = test_bit data offset'.
Proof.
  intros Ho Ho' Hne. unfold test_bit, set_bit, unset_bit.
  rewrite !Z.shiftl_1_l.
  split; apply Z.bits_inj'; intros n Hn;
    rewrite ?Z.land_spec, ?Z.lor_spec, ?Z.lnot_spec, ?Z.pow2_bits_eqb
      by assumption;
    destruct (Z.eqb_spec offset n), (Z.eqb_spec offset' n),
      (Z.testbit data n); try reflexivity; congruence.
Qed.

(** X5. [set_bit] sets and [unset_bit] clears the bit at [offset] as
    [test_bit] sees it, neither changes another bit, and the later of two
    calls on the same bit wins. *)
Theorem bit_helpers (data offset offset' : Z) :
  0 <= offset -> 0 <= offset' -> offset <> offset' ->
  test_bit (set_bit data offset) offset <> 0
  /\ test_bit (unset_bit data offset) offset = 0
  /\ test_bit (set_bit data offset) offset' = test_bit data offset'
  /\ test_bit (unset_bit data offset) offset' = test_bit data offset'
  /\ unset_bit (set_bit data offset) offset = unset_bit data offset
  /\ set_bit (unset_bit data offset) offset = set_bit data offset.
Proof.
  intros Ho Ho' Hne. split; [|split; [|split; [|split; [|split]]]].
  - rewrite test_set_bit by assumption.
    pose proof (Z.pow_pos_nonneg 2 offset). lia.
  - apply test_unset_bit. assumption.
  - apply test_bit_other; assumption.
  - apply test_bit_other; assumption.
  - unfold set_bit, unset_bit. rewrite Z.shiftl_1_l.
    apply Z.bits_inj'. intros n Hn.
    rewrite !Z.land_spec, Z.lor_spec, Z.lnot_spec, Z.pow2_bits_eqb
      by assumption.
    destruct (Z.eqb offset n), (Z.testbit data n); reflexivity.
  - unfold set_bit, unset_bit. rewrite Z.shiftl_1_l.
    apply Z.bits_inj'. intros n Hn.
    rewrite !Z.lor_spec, Z.land_spec, Z.lnot_spec, Z.pow2_bits_eqb
      by assumption.
    destruct (Z.eqb offset n), (Z.testbit data n); reflexivity.
Qed.

Lemma bit_helpers_witness :
  test_bit (set_bit 5 1) 1 <> 0
  /\ test_bit (unset_bit 5 1) 1 = 0
  /\ test_bit (set_bit 5 1) 2 = test_bit 5 2
  /\ test_bit (unset_bit 5 1) 2 = test_bit 5 2
  /\ unset_bit (set_bit 5 1) 1 = unset_bit 5 1
  /\ set_bit (unset_bit 5 1) 1 = set_bit 5 1.
Proof. apply (bit_helpers 5 1 2); lia. Defined.

(** ** Scalars, NodeId and arrays, read back *)

(** X1. For every primitive type [T] (the integer formats, Boolean, Null,
    String, ByteString, DateTime, Guid) and every value [v] of [T],
    [T.unpack] reads [v] back from [T.pack(v)], whatever follows it in the
    buffer, and leaves the cursor behind it. *)
Theorem primitive_pack_unpack (T : _Primitive) (v : value) :
  prim_ok T v = true -> decodes_to (pack T v) (unpack T) v.
Proof. apply prim_roundtrip. Qed.

Lemma primitive_pack_unpack_witness :
  decodes_to (pack Primitives.Guid
                (VUuid 0x72962B91FA754AE68D28B404DC7DAF63))
             (unpack Primitives.Guid)
             (VUuid 0x72962B91FA754AE68D28B404DC7DAF63).
Proof.
  apply (primitive_pack_unpack Primitives.Guid). reflexivity.
Defined.

(** X2. For every NodeId without NamespaceUri and ServerIndex whose
    namespace index and identifier fit the form that its NodeIdType names,
    [nodeid_from_binary] reads the NodeId back from [nodeid_to_binary]. *)
Theorem nodeid_to_binary_from_binary (n : NodeId) :
  nodeid_ok n = true -> decodes_to (nodeid_to_binary n) nodeid_from_binary n.
Proof. apply nodeid_roundtrip. Qed.

Lemma nodeid_to_binary_from_binary_witness :
  decodes_to
    (nodeid_to_binary
       (mkNodeId ua.NodeIdType.String 2 (VStr "Pump") None None))
    nodeid_from_binary
    (mkNodeId ua.NodeIdType.String 2 (VStr "Pump") None None).
Proof.
  apply (nodeid_to_binary_from_binary
           (mkNodeId ua.NodeIdType.String 2 (VStr "Pump") None None)).
  reflexivity.
Defined.

Lemma ord_single b : ord [b] = Z_of_byte b.
Proof. unfold ord. cbn [le_value]. lia. Qed.

(** X3. [nodeid_from_binary] raises an error on a leading byte whose low
    six bits are above 5 (no form of NodeIdType), after it has consumed
    that one byte. *)
Theorem nodeid_from_binary_unknown_tag (b : byte) (rest : bytes) :
  5 < Z.land (Z_of_byte b) 63 ->
  nodeid_from_binary (b :: rest) = (Raise ValueError, rest).
Proof.
  intros Ht. unfold nodeid_from_binary.
  rewrite (dec_bind_ok _ _ _ [b] rest)
    by (apply (read_app' 1 [b] rest); reflexivity).
  cbv zeta. rewrite ord_single.
  unfold dec_bind at 1, dec_lift, ua.NodeIdType.of_value.
  repeat match goal with
    | |- context [Z.eqb ?a ?k] =>
        destruct (Z.eqb_spec a k); [lia|]
    end.
  reflexivity.
Qed.

Lemma nodeid_from_binary_unknown_tag_witness :
  nodeid_from_binary [Byte.x06; Byte.x01; Byte.x02]
  = (Raise ValueError, [Byte.x01; Byte.x02]).
Proof.
  apply (nodeid_from_binary_unknown_tag Byte.x06 [Byte.x01; Byte.x02]).
  vm_compute. reflexivity.
Defined.

(** X4. The TwoByte form carries no namespace: [nodeid_to_binary] writes
    [00 id] whatever the NamespaceIndex of the NodeId is, and
    [nodeid_from_binary] reads a NodeId of namespace 0 from it. *)
Theorem nodeid_TwoByte_drops_namespace (ns i : Z) uri srv (rest : bytes) :
  0 <= i <= 255 ->
  nodeid_to_binary (mkNodeId ua.NodeIdType.TwoByte ns (VInt i) uri srv)
  = Ok [Byte.x00; byte_of_Z i]
  /\ nodeid_from_binary ([Byte.x00; byte_of_Z i] ++ rest)
     = (Ok (mkNodeId ua.NodeIdType.TwoByte 0 (VInt i) None None), rest).
Proof.
  intros Hi. split.
  - unfold nodeid_to_binary.
    cbn [NodeIdType Identifier struct_pack ua.NodeIdType.value].
    rewrite !(struct_pack1_int Fmt_B) by (try reflexivity; fmt_range).
    reflexivity.
  - destruct (nodeid_roundtrip
                (mkNodeId ua.NodeIdType.TwoByte 0 (VInt i) None None))
      as (bs & Hb & Hd).
    + unfold nodeid_ok, form_admits.
      cbn [NodeIdType NamespaceIndex Identifier NamespaceUri ServerIndex].
      rewrite !andb_true_r. apply andb_true_intro.
      split; [|apply Z.leb_le; lia].
      apply andb_true_intro. split; [reflexivity | apply Z.leb_le; lia].
    + unfold nodeid_to_binary in Hb.
      cbn [NodeIdType Identifier struct_pack ua.NodeIdType.value] in Hb.
      rewrite !(struct_pack1_int Fmt_B) in Hb
        by (try reflexivity; fmt_range).
      cbn in Hb. injection Hb as <-. apply Hd.
Qed.

Lemma nodeid_TwoByte_drops_namespace_witness :
  nodeid_to_binary (mkNodeId ua.NodeIdType.TwoByte 3 (VInt 72) None None)
  = Ok [Byte.x00; Byte.x48]
  /\ nodeid_from_binary ([Byte.x00; Byte.x48] ++ [])
     = (Ok (mkNodeId ua.NodeIdType.TwoByte 0 (VInt 72) None None), []).
Proof.
  apply (nodeid_TwoByte_drops_namespace 3 72 None None []). lia.
Defined.

(** X8. For every tag [vtype], [unpack_uatype_array] reads back from
    [pack_uatype_array] the absent array and every list whose elements the
    codec of [vtype] reads back. *)
Theorem uatype_array_read_back eself registry dself
        (vtype : ua.VariantType.t) (array : value) :
  match array with
  | VNone => True
  | VList l =>
      Forall (elem_roundtrip eself registry dself vtype) l
      /\ Z.of_nat (length l) <= Int32_max
  | _ => False
  end ->
  decodes_to (pack_uatype_array eself vtype array)
             (unpack_uatype_array registry dself vtype) array.
Proof.
  destruct array; try contradiction.
  - intros _. exists absent_marker. split; [reflexivity|].
    apply unpack_uatype_array_absent.
  - intros [Hl Hn]. apply pack_uatype_array_roundtrip; assumption.
Qed.

Lemma uatype_array_read_back_witness :
  decodes_to
    (pack_uatype_array (encoders_at sample_registry 0) ua.VariantType.NodeId
       (VList [VNodeId Probe_id; VNodeId NodeId_default]))
    (unpack_uatype_array sample_registry (decoders_at sample_registry 0)
       ua.VariantType.NodeId)
    (VList [VNodeId Probe_id; VNodeId NodeId_default]).
Proof.
  apply (uatype_array_read_back (encoders_at sample_registry 0)
           sample_registry (decoders_at sample_registry 0)
           ua.VariantType.NodeId
           (VList [VNodeId Probe_id; VNodeId NodeId_default])).
  split.
  - repeat constructor; apply elem_roundtrip_nodeid; auto.
  - vm_compute. discriminate.
Defined.

Lemma Int32_unpack_any L rest :
  - 2147483648 <= L <= Int32_max ->
  unpack_int Fmt_i (le_bytes 4 L ++ rest) = (Ok L, rest).
Proof. apply Int32_unpack. Qed.

(** X9. A length prefix below -1 is no error: [unpack_array],
    [unpack_uatype_array] and [from_binary] at a [ListOf] type return the
    empty list and consume the four bytes of the prefix only. *)
Theorem negative_length_is_empty registry dself dself'
        (T : _Primitive) (vtype : ua.VariantType.t) (s : string)
        (L : Z) (rest : bytes) :
  - 2147483648 <= L < -1 ->
  String.prefix "ListOf" s = true ->
  unpack_array T (le_bytes 4 L ++ rest) = (Ok (VList []), rest)
  /\ unpack_uatype_array registry dself vtype (le_bytes 4 L ++ rest)
     = (Ok (VList []), rest)
  /\ from_binary registry dself' (ByName s) (le_bytes 4 L ++ rest)
     = (Ok (VList []), rest).
Proof.
  intros HL Hs.
  assert (Hu : unpack_int Fmt_i (le_bytes 4 L ++ rest) = (Ok L, rest))
    by (apply Int32_unpack; unfold Int32_max; lia).
  assert (Ha : unpack_array T (le_bytes 4 L ++ rest) = (Ok (VList []), rest)).
  { unfold unpack_array. rewrite (dec_bind_ok _ _ _ _ _ Hu).
    destruct (Z.eqb_spec L (-1)); [lia|].
    destruct (Z.eqb_spec L 0); [lia|].
    replace (Z.to_nat L) with 0%nat by lia. reflexivity. }
  split; [exact Ha|]. split.
  - unfold unpack_uatype_array.
    destruct (Primitives.getattr (ua.VariantType.name vtype)).
    + unfold unpack_array. rewrite (dec_bind_ok _ _ _ _ _ Hu).
      destruct (Z.eqb_spec L (-1)); [lia|].
      destruct (Z.eqb_spec L 0); [lia|].
      replace (Z.to_nat L) with 0%nat by lia. reflexivity.
    + rewrite (dec_bind_ok _ _ _ _ _ Hu).
      destruct (Z.eqb_spec L (-1)); [lia|].
      replace (Z.to_nat L) with 0%nat by lia. reflexivity.
  - unfold from_binary. rewrite Hs. rewrite (dec_bind_ok _ _ _ _ _ Hu).
    destruct (Z.eqb_spec L (-1)); [lia|].
    replace (Z.to_nat L) with 0%nat by lia. reflexivity.
Qed.

Lemma negative_length_is_empty_witness :
  unpack_array Primitives.Int32
    ([Byte.xfe; Byte.xff; Byte.xff; Byte.xff] ++ [Byte.x01])
  = (Ok (VList []), [Byte.x01]).
Proof.
  apply (negative_length_is_empty sample_registry
           (decoders_at sample_registry 0) (decoders_at sample_registry 0)
           Primitives.Int32 ua.VariantType.Int32 "ListOfInt32" (-2)
           [Byte.x01]).
  - lia.
  - reflexivity.
Defined.

(** ** ExtensionObject, encoded and read back *)

(** X10. For a type id that is neither null nor registered,
    [extensionobject_from_binary] returns an [ExtensionObject] that holds
    the type id, the encoding byte and, when bit 0 of the encoding byte is
    set, the raw bytes of the body; the cursor is left behind the body. *)
Theorem extensionobject_unknown registry self data typeid data1 e data2
        body data3 :
  nodeid_from_binary data = (Ok typeid, data1) ->
  Identifier_is_0 typeid = false ->
  extension_object_classes registry typeid = None ->
  read 1 data1 = (Ok e, data2) ->
  body_read (ord e) data2 body data3 ->
  exists obj,
    extensionobject_from_binary registry self data = (Ok (VObj obj), data3)
    /\ ua_class obj = ua_class (ExtensionObject registry)
    /\ attrs obj !! "TypeId" = Some (VNodeId typeid)
    /\ attrs obj !! "Encoding" = Some (VInt (ord e))
    /\ attrs obj !! "Body"
       = match body with
         | Some body => Some (VBytes body)
         | None => attrs (ExtensionObject registry) !! "Body"
         end.
Proof.
  intros Hid H0 Hk He Hb.
  rewrite (extensionobject_from_binary_steps _ _ _ _ _ _ _ _ _ Hid He Hb).
  rewrite H0, Hk. eexists. split; [reflexivity|].
  destruct body; cbn [setattr attrs ua_class];
    repeat split;
    repeat first [ rewrite lookup_insert_eq
                 | rewrite lookup_insert_ne by discriminate ];
    reflexivity.
Qed.

Lemma extensionobject_unknown_witness :
  exists obj,
    extensionobject_from_binary sample_registry
      (decoders_at sample_registry 2)
      [Byte.x01; Byte.x00; Byte.x2d; Byte.x01; Byte.x01;
       Byte.x02; Byte.x00; Byte.x00; Byte.x00; Byte.xaa; Byte.xbb; Byte.xcc]
    = (Ok (VObj obj), [Byte.xcc])
    /\ ua_class obj = "ExtensionObject"
    /\ attrs obj !! "TypeId"
       = Some (VNodeId (mkNodeId ua.NodeIdType.FourByte 0 (VInt 301)
                                 None None))
    /\ attrs obj !! "Encoding" = Some (VInt 1)
    /\ attrs obj !! "Body" = Some (VBytes [Byte.xaa; Byte.xbb]).
Proof.
  apply (extensionobject_unknown sample_registry
           (decoders_at sample_registry 2)
           [Byte.x01; Byte.x00; Byte.x2d; Byte.x01; Byte.x01;
            Byte.x02; Byte.x00; Byte.x00; Byte.x00;
            Byte.xaa; Byte.xbb; Byte.xcc]
           (mkNodeId ua.NodeIdType.FourByte 0 (VInt 301) None None)
           [Byte.x01; Byte.x02; Byte.x00; Byte.x00; Byte.x00;
            Byte.xaa; Byte.xbb; Byte.xcc]
           [Byte.x01]
           [Byte.x02; Byte.x00; Byte.x00; Byte.x00;
            Byte.xaa; Byte.xbb; Byte.xcc]
           (Some [Byte.xaa; Byte.xbb]) [Byte.xcc]);
    try reflexivity.
  right. split; [discriminate|].
  exists 2, [Byte.xaa; Byte.xbb; Byte.xcc].
  split; [reflexivity|]. right. repeat split; vm_compute; discriminate.
Defined.

(** The encoding of an object of a registered class. *)
Lemma extensionobject_to_binary_registered registry eself o TypeId body o'
      tid :
  is_ExtensionObject registry (VObj o) = false ->
  extension_object_ids registry !! ua_class o = Some TypeId ->
  self_struct_to_binary eself o = Ok (body, o') ->
  nodeid_to_binary TypeId = Ok tid ->
  Z.of_nat (length body) <= Int32_max ->
  extensionobject_to_binary registry eself (VObj o)
  = Ok (tid ++ [Byte.x01]
        ++ match body with
           | [] => []
           | _ => le_bytes 4 (Z.of_nat (length body)) ++ body
           end).
Proof.
  intros Hx Hi Hs Ht Hn. unfold extensionobject_to_binary.
  rewrite Hx. cbn [is_None]. rewrite Hi, Hs. cbn [res_bind fst].
  rewrite Ht. cbn [res_bind].
  change (pack Primitives.Byte (VInt 1)) with (Ok [Byte.x01] : res bytes).
  cbn [res_bind]. destruct body as [|b body].
  - reflexivity.
  - cbn [truthy]. cbn [pack Primitives.Bytes _String_pack].
    assert (H0 : 0 <= Z.of_nat (length (b :: body))) by lia.
    revert Hn H0. generalize (Z.of_nat (length (b :: body))).
    intros len Hn H0.
    rewrite (struct_pack1_int Fmt_i)
      by (try reflexivity; unfold Int32_max in Hn; fmt_range).
    reflexivity.
Qed.

(** X11. For an object of a registered class whose encoding is not
    empty, [extensionobject_to_binary] writes the type id, the encoding
    byte [01] and the length-prefixed body, and
    [extensionobject_from_binary] returns what [from_binary] at the
    registered class reads from exactly that body, leaving the cursor
    behind it. *)
Theorem extensionobject_class_roundtrip registry eself dself o TypeId
        klass body o' :
  is_ExtensionObject registry (VObj o) = false ->
  extension_object_ids registry !! ua_class o = Some TypeId ->
  extension_object_classes registry TypeId = Some klass ->
  nodeid_ok TypeId = true ->
  Identifier_is_0 TypeId = false ->
  self_struct_to_binary eself o = Ok (body, o') ->
  body <> [] ->
  Z.of_nat (length body) <= Int32_max ->
  exists bs,
    extensionobject_to_binary registry eself (VObj o) = Ok bs
    /\ forall rest,
         extensionobject_from_binary registry dself (bs ++ rest)
         = (fst (self_from_binary dself (ByClass klass) body), rest).
Proof.
  intros Hx Hi Hk Hok H0 Hs Hne Hn.
  destruct (nodeid_roundtrip TypeId Hok) as (tid & Ht & Hd).
  eexists. split.
  { eapply extensionobject_to_binary_registered; eassumption. }
  intros rest. destruct body as [|b body]; [congruence|].
  set (Y := le_bytes 4 (Z.of_nat (length (b :: body)))
            ++ (b :: body) ++ rest).
  replace ((tid ++ [Byte.x01]
            ++ le_bytes 4 (Z.of_nat (length (b :: body))) ++ b :: body)
           ++ rest)
    with (tid ++ [Byte.x01] ++ Y)
    by (subst Y; rewrite <- !app_assoc; reflexivity).
  rewrite (extensionobject_from_binary_steps registry dself
             (tid ++ [Byte.x01] ++ Y) TypeId ([Byte.x01] ++ Y)
             [Byte.x01] Y (Some (b :: body)) rest (Hd _)).
  - rewrite H0, Hk. reflexivity.
  - apply (read_app' 1 [Byte.x01]). reflexivity.
  - right. split; [discriminate|].
    exists (Z.of_nat (length (b :: body))), ((b :: body) ++ rest).
    split.
    + subst Y. apply Int32_unpack. lia.
    + right. rewrite Nat2Z.id.
      rewrite take_app_length, drop_app_length.
      unfold remaining. rewrite length_app. cbn [length]. repeat split; lia.
Qed.

(** X12. For an object of a registered class whose encoding is empty,
    [extensionobject_to_binary] writes the encoding byte [01] and no
    length ([if Body:] is false for empty bytes), and
    [extensionobject_from_binary], which reads a length whenever bit 0 is
    set, fails on this output. *)
Theorem extensionobject_empty_struct registry eself dself o TypeId body o' :
  is_ExtensionObject registry (VObj o) = false ->
  extension_object_ids registry !! ua_class o = Some TypeId ->
  nodeid_ok TypeId = true ->
  self_struct_to_binary eself o = Ok (body, o') ->
  body = [] ->
  exists tid,
    nodeid_to_binary TypeId = Ok tid
    /\ extensionobject_to_binary registry eself (VObj o)
       = Ok (tid ++ [Byte.x01])
    /\ extensionobject_from_binary registry dself (tid ++ [Byte.x01])
       = (Raise NotEnoughData, []).
Proof.
  intros Hx Hi Hok Hs ->.
  destruct (nodeid_roundtrip TypeId Hok) as (tid & Ht & Hd).
  exists tid. split; [exact Ht|]. split.
  - rewrite (extensionobject_to_binary_registered registry eself o TypeId
               [] o' tid); auto.
    cbn. unfold Int32_max. lia.
  - unfold extensionobject_from_binary.
    rewrite (dec_bind_ok _ _ _ _ _ (Hd _)).
    rewrite (dec_bind_ok _ _ _ [Byte.x01] [])
      by (apply (read_app' 1 [Byte.x01] []); reflexivity).
    reflexivity.
Qed.

Lemma extensionobject_class_roundtrip_witness :
  exists bs,
    extensionobject_to_binary sample_registry (encoders_at sample_registry 1)
      (VObj (Probe_with 0 (VInt 7))) = Ok bs
    /\ forall rest,
         extensionobject_from_binary sample_registry
           (decoders_at sample_registry 3) (bs ++ rest)
         = (Ok (VObj (Probe_with 1 (VInt 7))), rest).
Proof.
  apply (extensionobject_class_roundtrip sample_registry
           (encoders_at sample_registry 1) (decoders_at sample_registry 3)
           (Probe_with 0 (VInt 7)) Probe_id (KStruct Probe_class)
           [Byte.x01; Byte.x07; Byte.x00; Byte.x00; Byte.x00]
           (Probe_with 1 (VInt 7)));
    try reflexivity.
  - discriminate.
  - vm_compute. discriminate.
Defined.

Lemma extensionobject_empty_struct_witness :
  exists tid,
    nodeid_to_binary Ping_id = Ok tid
    /\ extensionobject_to_binary ping_registry (encoders_at ping_registry 1)
         (VObj Ping_class)
       = Ok (tid ++ [Byte.x01])
    /\ extensionobject_from_binary ping_registry
         (decoders_at ping_registry 3) (tid ++ [Byte.x01])
       = (Raise NotEnoughData, []).
Proof.
  apply (extensionobject_empty_struct ping_registry
           (encoders_at ping_registry 1) (decoders_at ping_registry 3)
           Ping_class Ping_id [] Ping_class);
    reflexivity.
Defined.

(** X13. For positive dimensions and a flat list of exactly their product
    many elements, [_reshape] returns a value of the declared shape whose
    leaves in order are the flat list; and it rebuilds every value of that
    shape from its leaves. *)
Theorem reshape_of_product (dims : list Z) (flat : list value) (v : value) :
  dims <> [] -> Forall (fun d => 0 < d) dims ->
  Z.of_nat (length flat) = dims_product dims ->
  has_shape dims v ->
  (exists w, _reshape flat dims = Ok w /\ has_shape dims w
             /\ leaves (length dims) w = flat)
  /\ _reshape (leaves (length dims) v) dims = Ok v.
Proof.
  intros Hne Hpos Hlen Hv. split.
  - apply _reshape_exact; assumption.
  - apply _reshape_leaves; assumption.
Qed.

Lemma reshape_of_product_witness :
  (exists w,
     _reshape [VInt 1; VInt 2; VInt 3; VInt 4; VInt 5; VInt 6] [2; 3] = Ok w
     /\ has_shape [2; 3] w
     /\ leaves 2 w = [VInt 1; VInt 2; VInt 3; VInt 4; VInt 5; VInt 6])
  /\ _reshape
       (leaves 2 (VList [VList [VInt 1; VInt 2; VInt 3];
                         VList [VInt 4; VInt 5; VInt 6]])) [2; 3]
     = Ok (VList [VList [VInt 1; VInt 2; VInt 3];
                  VList [VInt 4; VInt 5; VInt 6]]).
Proof.
  apply (reshape_of_product [2; 3]
           [VInt 1; VInt 2; VInt 3; VInt 4; VInt 5; VInt 6]
           (VList [VList [VInt 1; VInt 2; VInt 3];
                   VList [VInt 4; VInt 5; VInt 6]])).
  - discriminate.
  - repeat constructor.
  - reflexivity.
  - eexists. split; [reflexivity|]. split; [reflexivity|].
    repeat constructor;
      (eexists; split; [reflexivity|]; split; [reflexivity|];
       repeat constructor).
Defined.

(** X14. A Variant holding a list with an empty [Dimensions] list is
    encoded ([if var.Dimensions is not None] holds for the empty list), and
    [variant_from_binary] fails on the result: [_reshape] indexes
    [dims[0]]. *)
Theorem variant_empty_dimensions eself registry dself (l : list value)
        (t : ua.VariantType.t) (a : bool) :
  In t ua.VariantType.builtin ->
  Forall (elem_roundtrip eself registry dself t)
         (concat (List.map flatten_list l)) ->
  Z.of_nat (length (concat (List.map flatten_list l))) <= Int32_max ->
  exists bs,
    variant_to_binary eself (mkVariant (VList l) t (Some []) a)
    = Ok (bs, mkVariant (VList l) t (Some []) true)
    /\ forall rest,
         variant_from_binary registry dself (bs ++ rest)
         = (Raise IndexError, rest).
Proof.
  intros Ht He Hn.
  destruct (pack_uatype_array_roundtrip eself registry dself t _ He Hn)
    as (b1 & Hb1 & Hd1).
  destruct (pack_uatype_array_roundtrip eself registry dself
              ua.VariantType.Int32 []) as (b2 & Hb2 & Hd2);
    [constructor | unfold Int32_max; cbn; lia |].
  eexists. split.
  - apply (variant_to_binary_array eself (VList l) t (Some []) a
             (VList (concat (List.map flatten_list l))) b1 b2);
      auto using orb_true_r.
  - intros rest. cbn [app].
    rewrite variant_from_binary_head by assumption.
    change (bool_decide (is_Some (Some []))) with true.
    rewrite <- app_assoc.
    rewrite (dec_bind_ok _ _ _
               (VList (concat (List.map flatten_list l)), true)
               (b2 ++ rest))
      by (rewrite (dec_bind_ok _ _ _ _ _ (Hd1 _)); reflexivity).
    unfold dec_bind at 1. unfold dec_bind at 1. rewrite (Hd2 rest).
    reflexivity.
Qed.

Lemma variant_empty_dimensions_witness :
  exists bs,
    variant_to_binary (encoders_at sample_registry 0)
      (mkVariant (VList [VInt 1; VInt 2]) ua.VariantType.Int32 (Some [])
                 false)
    = Ok (bs, mkVariant (VList [VInt 1; VInt 2]) ua.VariantType.Int32
                        (Some []) true)
    /\ forall rest,
         variant_from_binary sample_registry (decoders_at sample_registry 0)
           (bs ++ rest)
         = (Raise IndexError, rest).
Proof.
  apply (variant_empty_dimensions (encoders_at sample_registry 0)
           sample_registry (decoders_at sample_registry 0)
           [VInt 1; VInt 2] ua.VariantType.Int32 false).
  - cbn. auto 10.
  - repeat constructor;
      apply (elem_roundtrip_primitive _ _ _ _ Primitives.Int32);
      reflexivity.
  - vm_compute. discriminate.
Defined.

(** ** Encoding twice *)


Lemma bits_added_is_None v v' :
  bits_added v v' -> is_None v' = is_None v.
Proof.
  intros [->|(z & z' & Hz & -> & _)]; [reflexivity|].
  destruct v; try discriminate Hz; reflexivity.
Qed.


Lemma switch_settled_mono cs o o' item :
  assigns_only cs o o' -> switch_settled o item -> switch_settled o' item.
Proof.
  destruct item as [name [c idx]].
  intros (_ & _ & _ & Ha) (m & Hm & H).
  pose proof (Ha name) as Hn. rewrite Hm in Hn.
  destruct Hn as (m' & Hm' & Hb & _).
  exists m'. split; [exact Hm'|].
  destruct H as [Hnone | (y & Hy & Hor)].
  - left. rewrite (bits_added_is_None _ _ Hb). exact Hnone.
  - right. pose proof (Ha c) as Hc. rewrite Hy in Hc.
    destruct Hc as (v' & Hv' & Hbc & _).
    destruct Hbc as [-> | (z & z' & Hz & -> & Hzz)]; [eauto|].
    cbn in Hz. injection Hz as <-.
    exists z'. split; [exact Hv'|].
    rewrite <- Hzz at 1. rewrite <- Z.lor_assoc, (Z.lor_comm z').
    rewrite Z.lor_assoc, Hor. exact Hzz.
Qed.

Lemma apply_switch_settles o name c idx o1 :
  apply_switch o name (c, idx) = Ok o1 ->
  switch_settled o1 (name, (c, idx)).
Proof.
  unfold apply_switch, getattr.
  destruct (attrs o !! name) as [m|] eqn:Hm; cbn [res_bind]; [|discriminate].
  destruct (is_None m) eqn:Hn; cbn [negb].
  - intros H. injection H as <-. exists m. auto.
  - destruct (attrs o !! c) as [v|] eqn:Hv; cbn [res_bind]; [|discriminate].
    destruct (py_int v) as [z|] eqn:Hz; [|discriminate].
    intros H. injection H as <-. unfold switch_settled, setattr. cbn [attrs].
    destruct (decide (c = name)) as [->|Hne].
    + rewrite lookup_insert_eq. eexists. split; [reflexivity|].
      right. eexists. split; [reflexivity|].
      rewrite <- Z.lor_assoc, Z.lor_diag. reflexivity.
    + rewrite lookup_insert_ne by assumption. exists m.
      split; [exact Hm|]. right. rewrite lookup_insert_eq.
      eexists. split; [reflexivity|].
      rewrite <- Z.lor_assoc, Z.lor_diag. reflexivity.
Qed.

Lemma apply_switches_settles items : forall o o',
  apply_switches o items = Ok o' -> Forall (switch_settled o') items.
Proof.
  induction items as [|[name [c idx]] items IH]; intros o o' H;
    [constructor|].
  cbn [apply_switches] in H.
  destruct (apply_switch o name (c, idx)) as [o1|] eqn:H1;
    cbn [res_bind] in H; [|discriminate].
  constructor; [|eapply IH, H].
  eapply switch_settled_mono.
  - eapply apply_switches_assigns, H.
  - eapply apply_switch_settles, H1.
Qed.




(** ** Structures, read back *)

(** What a successful [struct_to_binary] call has done. *)
Lemma struct_to_binary_inv eself obj bs obj' :
  struct_to_binary eself obj = Ok (bs, obj') ->
  (exists packets,
     res_map (field_to_binary eself obj') (ua_types obj') = Ok packets
     /\ bs = concat packets)
  /\ forall sw, ua_switches obj' = Some sw -> Forall (switch_settled obj') sw.
Proof.
  unfold struct_to_binary. intros Hs.
  destruct (ua_switches obj) as [sw|] eqn:Hsw.
  - destruct (apply_switches obj sw) as [o1|] eqn:H1;
      cbn [res_bind] in Hs; [|discriminate].
    destruct (res_map (field_to_binary eself o1) (ua_types o1))
      as [packet|] eqn:Hp; cbn [res_bind] in Hs; [|discriminate].
    injection Hs as <- <-. split; [eauto|].
    destruct (apply_switches_assigns _ _ _ H1) as (_ & _ & Hsw' & _).
    intros sw' E. rewrite Hsw', Hsw in E. injection E as <-.
    eapply apply_switches_settles, H1.
  - cbn [res_bind] in Hs.
    destruct (res_map (field_to_binary eself obj) (ua_types obj))
      as [packet|] eqn:Hp; cbn [res_bind] in Hs; [|discriminate].
    injection Hs as <- <-. split; [eauto|]. congruence.
Qed.

Lemma test_bit_of_lor y idx :
  Z.lor y (Z.shiftl 1 (Z.of_nat idx)) = y ->
  (test_bit y (Z.of_nat idx) =? 0) = false.
Proof.
  intros H. apply Z.eqb_neq. unfold test_bit. intros E.
  assert (Hb : Z.testbit (Z.land y (Z.shiftl 1 (Z.of_nat idx))) (Z.of_nat idx)
               = true).
  { rewrite Z.land_spec. rewrite <- H at 1. rewrite Z.lor_spec.
    rewrite Z.shiftl_1_l, Z.pow2_bits_true by lia.
    rewrite orb_true_r. reflexivity. }
  rewrite E, Z.bits_0 in Hb. discriminate.
Qed.

Lemma switch_of_In sw name c idx :
  switch_of sw name = Some (c, idx) -> In (name, (c, idx)) sw.
Proof.
  unfold switch_of.
  destruct (find _ sw) as [[n s]|] eqn:Hf; [|discriminate].
  intros E. injection E as ->. apply find_some in Hf as [Hin Hn].
  cbn in Hn. apply String.eqb_eq in Hn. subst n. exact Hin.
Qed.

Lemma decoded_so_far_setattr init obj seen o name val :
  decoded_so_far init obj seen o ->
  attrs obj !! name = Some val ->
  decoded_so_far init obj (name :: seen) (setattr o name val).
Proof.
  intros (Hc & Ht & Hs & Ha) Hval. unfold decoded_so_far, setattr.
  cbn [ua_class ua_types ua_switches attrs existsb].
  repeat split; try assumption. intros n.
  destruct (String.eqb_spec n name) as [->|Hne].
  - rewrite lookup_insert_eq. cbn [orb]. congruence.
  - rewrite lookup_insert_ne by congruence. cbn [orb]. apply Ha.
Qed.

Lemma decoded_so_far_skip init obj seen o name :
  decoded_so_far init obj seen o ->
  attrs obj !! name = Some VNone ->
  attrs init !! name = Some VNone ->
  decoded_so_far init obj (name :: seen) o.
Proof.
  intros (Hc & Ht & Hs & Ha) Hval Hinit. unfold decoded_so_far.
  repeat split; try assumption. intros n. cbn [existsb].
  destruct (String.eqb_spec n name) as [->|Hne]; cbn [orb]; [|apply Ha].
  rewrite Ha. destruct (existsb _ seen); congruence.
Qed.

(** The loop over [ua_types] of the decoder follows that of the encoder. *)
Lemma fields_from_binary_follows eself registry dself init obj :
  absent_fields_clear init obj ->
  fields_roundtrip eself registry dself obj ->
  (forall sw, ua_switches obj = Some sw -> Forall (switch_settled obj) sw) ->
  forall fields seen o packets rest,
    incl fields (ua_types obj) ->
    match ua_switches obj with
    | Some sw => switches_follow sw seen fields = true
    | None => True
    end ->
    decoded_so_far init obj seen o ->
    res_map (field_to_binary eself obj) fields = Ok packets ->
    exists o',
      fields_from_binary registry dself o fields (concat packets ++ rest)
      = (Ok o', rest)
      /\ decoded_so_far init obj (rev (map fst fields) ++ seen) o'.
Proof.
  intros Habs Hcodec Hset.
  induction fields as [|[name uatype] fields IH];
    intros seen o packets rest Hincl Hplace Hinv Hp.
  - cbn in Hp. injection Hp as <-. exists o. split; [reflexivity|].
    exact Hinv.
  - cbn [res_map] in Hp.
    destruct (field_to_binary eself obj (name, uatype)) as [y|] eqn:Hy;
      cbn [res_bind] in Hp; [|discriminate].
    destruct (res_map (field_to_binary eself obj) fields) as [ys|] eqn:Hys;
      cbn [res_bind] in Hp; [|discriminate].
    injection Hp as <-.
    assert (Hin : In (name, uatype) (ua_types obj))
      by (apply Hincl; left; reflexivity).
    assert (Hincl' : incl fields (ua_types obj))
      by (intros f Hf; apply Hincl; right; exact Hf).
    assert (Hval : exists val, attrs obj !! name = Some val).
    { unfold field_to_binary, getattr in Hy.
      destruct (attrs obj !! name); [eauto|discriminate]. }
    destruct Hval as (val & Hval).
    (* the field is decoded *)
    assert (Hdecode :
      field_omitted obj name val = false ->
      match ua_switches obj with
      | Some sw => switches_follow sw (name :: seen) fields = true
      | None => True
      end ->
      forall o1, decoded_so_far init obj seen o1 ->
      exists o',
        dec_bind
          (dec_bind (from_binary registry dself (ByName uatype))
             (fun val => dec_ret (setattr o1 name val)))
          (fun obj => fields_from_binary registry dself obj fields)
          (concat (y :: ys) ++ rest) = (Ok o', rest)
        /\ decoded_so_far init obj
             (rev (map fst ((name, uatype) :: fields)) ++ seen) o').
    { intros Hom Hplace' o1 Hinv1.
      destruct (Hcodec name uatype val Hin Hval Hom) as (bs & Hbs & Hd).
      rewrite Hy in Hbs. injection Hbs as <-.
      destruct (IH (name :: seen) (setattr o1 name val) ys rest Hincl' Hplace'
                  (decoded_so_far_setattr _ _ _ _ _ _ Hinv1 Hval) eq_refl)
        as (o' & Ho' & Hinv').
      exists o'. split.
      - cbn [concat]. rewrite <- app_assoc.
        erewrite dec_bind_ok;
          [|erewrite dec_bind_ok; [reflexivity|apply Hd]].
        exact Ho'.
      - cbn [map fst rev]. rewrite <- app_assoc. exact Hinv'. }
    cbn [fields_from_binary]. unfold field_from_binary.
    destruct Hinv as (Hc & Ht & Hs & Ha). rewrite Hs.
    assert (Hinv : decoded_so_far init obj seen o)
      by (repeat split; assumption).
    destruct (ua_switches obj) as [sw|] eqn:Hsw;
      [|apply Hdecode; [unfold field_omitted; rewrite Hsw|..]; auto].
    cbn [switches_follow] in Hplace.
    apply andb_true_iff in Hplace as [Hhere Hplace].
    destruct (switch_of sw name) as [[c idx]|] eqn:Hso;
      [|apply Hdecode; auto; unfold field_omitted; rewrite Hsw, Hso;
        apply andb_false_r].
    apply andb_true_iff in Hhere as [Hseen Hlist].
    apply negb_true_iff in Hlist.
    assert (Hoc : attrs o !! c = attrs obj !! c)
      by (rewrite Ha, Hseen; reflexivity).
    destruct (is_None val) eqn:Hnone.
    + (* absent: nothing written, nothing read *)
      destruct val; try discriminate Hnone.
      destruct (Habs sw name c idx Hsw Hso Hval)
        as (Hinit & v & z & Hv & Hz & Hbit).
      unfold field_to_binary in Hy. unfold getattr in Hy. rewrite Hval in Hy.
      cbn [res_bind] in Hy. rewrite Hlist, Hsw, Hso in Hy.
      cbn in Hy. injection Hy as <-.
      destruct (IH (name :: seen) o ys rest Hincl' Hplace
                  (decoded_so_far_skip _ _ _ _ _ Hinv Hval Hinit) eq_refl)
        as (o' & Ho' & Hinv').
      exists o'. split.
      * cbn [concat app].
        erewrite dec_bind_ok; [exact Ho'|].
        unfold dec_bind, dec_lift, getattr. rewrite Hoc, Hv, Hz, Hbit.
        reflexivity.
      * cbn [map fst rev]. rewrite <- app_assoc. exact Hinv'.
    + (* present: the bit is set *)
      pose proof (Hset sw eq_refl) as Hall.
      pose proof (proj1 (List.Forall_forall _ _) Hall _
                    (switch_of_In _ _ _ _ Hso)) as (m & Hm & Hcase).
      rewrite Hval in Hm. injection Hm as <-.
      destruct Hcase as [E | (y0 & Hy0 & Hor)]; [congruence|].
      assert (Hom : field_omitted obj name val = false)
        by (unfold field_omitted; rewrite Hsw, Hnone; reflexivity).
      destruct (Hdecode Hom Hplace o Hinv) as (o' & Ho' & Hinv').
      exists o'. split; [|exact Hinv'].
      unfold dec_bind at 1. unfold dec_bind at 1.
      unfold dec_lift at 1. unfold getattr. rewrite Hoc, Hy0.
      cbn [py_int]. rewrite (test_bit_of_lor _ _ Hor).
      exact Ho'.
Qed.

(** X16. [struct_from_binary] reads a structure back from
    [struct_to_binary], as the encoder leaves it: for an instance of a
    class in whose schema every optional field comes after its bitmask
    field and is no list, whose absent optional fields have their bit
    clear, and whose written fields are each read back by [from_binary] at
    the type of the field. *)
Theorem struct_roundtrip eself registry dself (init obj obj' : Object) bs :
  struct_to_binary eself obj = Ok (bs, obj') ->
  instance_of init obj' ->
  schema_ordered obj' = true ->
  absent_fields_clear init obj' ->
  fields_roundtrip eself registry dself obj' ->
  forall rest,
    struct_from_binary registry dself (ByClass (KStruct init)) (bs ++ rest)
    = (Ok (VObj obj'), rest).
Proof.
  intros Hs (Hc & Ht & Hsw & Hrest) Hord Habs Hcodec rest.
  destruct (struct_to_binary_inv _ _ _ _ Hs) as ((packets & Hp & ->) & Hset).
  destruct (fields_from_binary_follows eself registry dself init obj'
              Habs Hcodec Hset (ua_types obj') [] init packets rest)
    as (o' & Ho' & (Hc' & Ht' & Hsw' & Ha')).
  - intros f Hf. exact Hf.
  - unfold schema_ordered in Hord. destruct (ua_switches obj'); auto.
  - repeat split; auto.
  - exact Hp.
  - unfold struct_from_binary.
    rewrite (dec_bind_ok _ _ _ (KStruct init) (concat packets ++ rest))
      by reflexivity.
    rewrite Ht in Ho'.
    rewrite (dec_bind_ok _ _ _ _ _ Ho').
    unfold dec_ret. do 2 f_equal.
    destruct o' as [k t s a], obj' as [k' t' s' a']. cbn in *. subst.
    do 2 f_equal. apply map_eq. intros n. rewrite Ha'.
    destruct (existsb _ _) eqn:Hex; [reflexivity|].
    symmetry. apply Hrest. intros Hin.
    assert (existsb (String.eqb n) (rev (map fst (ua_types init)) ++ [])
            = true); [|congruence].
    apply existsb_exists. exists n. split; [|apply String.eqb_refl].
    rewrite app_nil_r. apply in_rev. rewrite rev_involutive. exact Hin.
Qed.

Lemma struct_roundtrip_witness :
  struct_from_binary sample_registry (decoders_at sample_registry 0)
    (ByClass (KStruct Probe_class))
    ([Byte.x01; Byte.x07; Byte.x00; Byte.x00; Byte.x00] ++ [Byte.x2a])
  = (Ok (VObj (Probe_with 1 (VInt 7))), [Byte.x2a]).
Proof.
  apply (struct_roundtrip (encoders_at sample_registry 0) sample_registry
           (decoders_at sample_registry 0) Probe_class
           (Probe_with 0 (VInt 7)) (Probe_with 1 (VInt 7))).
  - reflexivity.
  - repeat split; try reflexivity. intros n Hn.
    cbn in Hn. unfold Probe_with, setattr. cbn [attrs].
    rewrite !lookup_insert_ne by (intros <-; apply Hn; auto).
    reflexivity.
  - reflexivity.
  - intros sw name c idx Hsw Hso Hval. cbn in Hsw. injection Hsw as <-.
    unfold switch_of in Hso. cbn [find fst] in Hso.
    destruct (String.eqb_spec "Value" name) as [<-|Hne];
      [vm_compute in Hval|]; discriminate.
  - intros name uatype val Hin Hval _.
    destruct Hin as [E|[E|[]]]; injection E as <- <-;
      vm_compute in Hval; injection Hval as <-.
    + change (decodes_to (pack Primitives.Byte (VInt 1))
                (unpack Primitives.Byte) (VInt 1)).
      apply prim_roundtrip. reflexivity.
    + change (decodes_to (pack Primitives.UInt32 (VInt 7))
                (unpack Primitives.UInt32) (VInt 7)).
      apply prim_roundtrip. reflexivity.
Defined.

(** ** Lists *)

Lemma substring_all s : String.substring 0 (String.length s) s = s.
Proof. induction s as [|a s IH]; cbn; [reflexivity|]. rewrite IH. reflexivity. Qed.

Lemma substring_app (a b : string) :
  String.substring (String.length a)
    (String.length (a ++ b) - String.length a) (a ++ b) = b.
Proof.
  induction a as [|c a IH].
  - change ("" ++ b)%string with b. cbn [String.length].
    rewrite Nat.sub_0_r. apply substring_all.
  - change (String c a ++ b)%string with (String c (a ++ b)).
    cbn [String.length String.substring Nat.sub]. exact IH.
Qed.

Lemma strip_ListOf_app uatype : strip_ListOf ("ListOf" ++ uatype) = uatype.
Proof.
  exact (substring_app "ListOf" uatype).
Qed.

Lemma prefix_ListOf_app uatype :
  String.prefix "ListOf" ("ListOf" ++ uatype) = true.
Proof. destruct uatype; reflexivity. Qed.

(** X17. [from_binary] at the type [ListOf<T>] reads back from
    [list_to_binary] at [T] the absent list and every list whose elements
    are each read back at [T]. *)
Theorem list_to_binary_from_binary eself registry dself (uatype : string)
        (val : value) :
  match val with
  | VNone => True
  | VList l =>
      Forall (fun el =>
                decodes_to (to_binary eself uatype el)
                           (self_from_binary dself (ByName uatype)) el) l
      /\ Z.of_nat (length l) <= Int32_max
  | _ => False
  end ->
  decodes_to (list_to_binary eself uatype val)
             (from_binary registry dself (ByName ("ListOf" ++ uatype))) val.
Proof.
  assert (Hfrom : forall size rest,
    - 2147483648 <= size <= Int32_max ->
    from_binary registry dself (ByName ("ListOf" ++ uatype))
      (le_bytes 4 size ++ rest)
    = (if size =? -1 then dec_ret VNone
       else dec_bind
              (dec_repeat (Z.to_nat size)
                 (self_from_binary dself (ByName uatype)))
              (fun res => dec_ret (VList res))) rest).
  { intros size rest Hsize. unfold from_binary.
    rewrite prefix_ListOf_app, strip_ListOf_app.
    rewrite (dec_bind_ok _ _ _ size rest) by (apply Int32_unpack; exact Hsize).
    reflexivity. }
  destruct val; try contradiction.
  - intros _. exists (le_bytes 4 (-1)). split.
    + cbn [list_to_binary]. apply Int32_pack. unfold Int32_max. lia.
    + intros rest. rewrite Hfrom by (unfold Int32_max; lia). reflexivity.
  - intros [Hl Hn].
    destruct (dec_repeat_res_map (to_binary eself uatype)
                (self_from_binary dself (ByName uatype)) l)
      as (bs & Hbs & Hd).
    { intros x Hx. rewrite List.Forall_forall in Hl. apply Hl, Hx. }
    exists (le_bytes 4 (Z.of_nat (length l)) ++ concat bs). split.
    + cbn [list_to_binary]. rewrite Int32_pack by lia. cbn [res_bind].
      rewrite Hbs. reflexivity.
    + intros rest. rewrite <- app_assoc. rewrite Hfrom by lia.
      destruct (Z.eqb_spec (Z.of_nat (length l)) (-1)); [lia|].
      rewrite Nat2Z.id. rewrite (dec_bind_ok _ _ _ _ _ (Hd rest)).
      reflexivity.
Qed.

Lemma list_to_binary_from_binary_witness :
  decodes_to
    (list_to_binary (encoders_at sample_registry 0) "UInt32"
       (VList [VInt 1; VInt 2]))
    (from_binary sample_registry (decoders_at sample_registry 1)
       (ByName "ListOfUInt32"))
    (VList [VInt 1; VInt 2]).
Proof.
  apply (list_to_binary_from_binary (encoders_at sample_registry 0)
           sample_registry (decoders_at sample_registry 1) "UInt32"
           (VList [VInt 1; VInt 2])).
  split.
  - repeat constructor.
    + change (decodes_to (pack Primitives.UInt32 (VInt 1))
                (unpack Primitives.UInt32) (VInt 1)).
      apply prim_roundtrip. reflexivity.
    + change (decodes_to (pack Primitives.UInt32 (VInt 2))
                (unpack Primitives.UInt32) (VInt 2)).
      apply prim_roundtrip. reflexivity.
  - vm_compute. discriminate.
Defined.

(** X18. An optional field of a list type is written even when it is
    absent and its bit is clear (the [ListOf] branch of [struct_to_binary]
    does not look at [ua_switches]): the four bytes of the length -1; the
    decoder reads nothing for that field. *)
Theorem absent_list_field_written eself registry dself (obj : Object)
        sw name uatype c idx v z (data : Buffer) :
  ua_switches obj = Some sw ->
  switch_of sw name = Some (c, idx) ->
  String.prefix "ListOf" uatype = true ->
  attrs obj !! name = Some VNone ->
  attrs obj !! c = Some v ->
  py_int v = Some z ->
  test_bit z (Z.of_nat idx) = 0 ->
  field_to_binary eself obj (name, uatype) = Ok absent_marker
  /\ field_from_binary registry dself obj (name, uatype) data
     = (Ok obj, data).
Proof.
  intros Hsw Hso Hlist Hval Hc Hz Hbit. split.
  - unfold field_to_binary, getattr. rewrite Hval. cbn [res_bind].
    rewrite Hlist. cbn [list_to_binary].
    rewrite Int32_pack by (unfold Int32_max; lia).
    rewrite absent_marker_eq. reflexivity.
  - unfold field_from_binary. rewrite Hsw, Hso.
    unfold dec_bind, dec_lift, getattr. rewrite Hc, Hz, Hbit. reflexivity.
Qed.

Lemma absent_list_field_written_witness :
  field_to_binary (encoders_at sample_registry 0) Batch_class
    ("Items", "ListOfUInt32")
  = Ok [Byte.xff; Byte.xff; Byte.xff; Byte.xff]
  /\ field_from_binary sample_registry (decoders_at sample_registry 0)
       Batch_class ("Items", "ListOfUInt32") [Byte.x2a]
     = (Ok Batch_class, [Byte.x2a]).
Proof.
  apply (absent_list_field_written (encoders_at sample_registry 0)
           sample_registry (decoders_at sample_registry 0) Batch_class
           [("Items", ("Encoding", 0%nat))] "Items" "ListOfUInt32"
           "Encoding" 0%nat (VInt 0) 0 [Byte.x2a]); reflexivity.
Defined.
